(** * ATM simulation (Atm_Project.py): ledger, record store and session controller

    A shallow embedding of [src/Atm_Project.py] and the properties of the
    account ledger that its specification states.

    Conventions of the embedding.
    - A Python [str] is a Rocq [string] read as a sequence of code points
      below 256; [len] is [String.length].
    - A Python [float] is an IEEE-754 binary64 value, [spec_float] with
      precision 53 and maximal exponent 1024 (module [PyFloat]).
    - The SQLite connection is a pair of tables: what has been committed and
      what the connection sees inside its open transaction (module [Sql]).
      A statement stores the values it is given as they are; the table is
      the keyed record store of the specification, and what the engine does
      with a float that is not a number is not part of it: SQLite binds a
      NaN as NULL, which the column [balance REAL NOT NULL] refuses in a row
      that an UPDATE reaches, so that [_persist_balance] raises there.  The
      theorems that say that [deposit] or [withdraw] returns are stated
      where the balance that is written is a number.
    - Objects that are reached through more than one reference (the
      [Account] instances held by [ATM.accounts] and [ATM.current_account])
      live in a heap indexed by locations. *)

From Stdlib Require Import ZArith NArith Ascii String SpecFloat.
From stdpp Require Import gmap strings list fin_maps.

(** ** Python floats *)

Module PyFloat.

Definition prec : Z := 53.
Definition emax : Z := 1024.

Definition float : Type := spec_float.

Definition zero : float := S754_zero false.
Definition nan : float := S754_nan.
Definition inf : float := S754_infinity false.

(** [float(z)] for an integer [z]. *)
Definition of_Z (z : Z) : float := binary_normalize prec emax z 0 false.

Definition add (x y : float) : float := SFadd prec emax x y.
Definition sub (x y : float) : float := SFsub prec emax x y.

(** [x <= y] and [x < y]; both are [False] as soon as an operand is NaN. *)
Definition leb (x y : float) : bool := SFleb x y.
Definition ltb (x y : float) : bool := SFltb x y.

Definition is_nan (x : float) : bool :=
  match x with S754_nan => true | _ => false end.

(** A zero or a finite number: neither NaN nor an infinity. *)
Definition is_finite (x : float) : bool :=
  match x with S754_zero _ | S754_finite _ _ _ => true | _ => false end.

(** The values of [spec_float] that are binary64 numbers: the mantissa of a
    finite one is canonical and its exponent in range. *)
Definition valid (x : float) : bool := valid_binary prec emax x.

(** [0 <= x] *)
Definition nonneg (x : float) : bool := leb zero x.

(** The number of binary digits, and the exponent of the format. *)
Definition digits (m : Z) : Z := Zdigits2 m.

Definition fexp64 (e : Z) : Z := Z.max (e - 53) (-1074).

Definition has_sign (s : bool) (x : float) : Prop :=
  match x with
  | S754_zero s' | S754_infinity s' | S754_finite s' _ _ => s' = s
  | S754_nan => False
  end.

End PyFloat.

Abbreviation float := PyFloat.float.

(** ** hashlib.sha256 (FIPS 180-4) *)

Module SHA256.

Local Open Scope N_scope.

Definition w32 (x : N) : N := x mod 2 ^ 32.

Definition rotr (n x : N) : N :=
  N.lor (N.shiftr x n) (w32 (N.shiftl x (32 - n))).

Definition Ch (x y z : N) : N :=
  N.lxor (N.land x y) (N.land (N.lxor x (N.ones 32)) z).

Definition Maj (x y z : N) : N :=
  N.lxor (N.lxor (N.land x y) (N.land x z)) (N.land y z).

Definition Sigma0 (x : N) : N := N.lxor (N.lxor (rotr 2 x) (rotr 13 x)) (rotr 22 x).
Definition Sigma1 (x : N) : N := N.lxor (N.lxor (rotr 6 x) (rotr 11 x)) (rotr 25 x).
Definition sigma0 (x : N) : N := N.lxor (N.lxor (rotr 7 x) (rotr 18 x)) (N.shiftr x 3).
Definition sigma1 (x : N) : N := N.lxor (N.lxor (rotr 17 x) (rotr 19 x)) (N.shiftr x 10).

(** The constants are the first 32 bits of the fractional parts of the cube
    roots (for [K]) and of the square roots (for [H0]) of the first primes. *)
Definition is_prime (n : nat) : bool :=
  forallb (fun d => negb (n mod d =? 0)%nat) (seq 2 (n - 2)).

Definition primes (count : nat) : list N :=
  map N.of_nat (firstn count (filter is_prime (seq 2 400))).

(** The integer cube root, one bit after the other from bit [bits - 1]. *)
Fixpoint cube_root (bits : nat) (n r : N) : N :=
  match bits with
  | O => r
  | S i =>
      let r' := r + 2 ^ N.of_nat i in
      cube_root i n (if r' * r' * r' <=? n then r' else r)
  end.

Definition K : list N :=
  Eval vm_compute in
    map (fun p => cube_root 40 (p * 2 ^ 96) 0 mod 2 ^ 32) (primes 64).

Definition H0 : list N :=
  Eval vm_compute in
    map (fun p => N.sqrt (p * 2 ^ 64) mod 2 ^ 32) (primes 8).

(** Padding: a [1] bit, zeros, and the bit length on 8 bytes, big-endian. *)
Definition be_bytes (n : nat) (x : N) : list N :=
  map (fun i => N.shiftr x (8 * N.of_nat i) mod 256) (rev (seq 0 n)).

Definition pad (msg : list N) : list N :=
  let l := length msg in
  let zeros := ((64 - (l + 9) mod 64) mod 64)%nat in
  msg ++ [0x80] ++ repeat 0 zeros ++ be_bytes 8 (8 * N.of_nat l).

Fixpoint words_of_bytes (bs : list N) : list N :=
  match bs with
  | b0 :: b1 :: b2 :: b3 :: rest =>
      (N.shiftl b0 24 + N.shiftl b1 16 + N.shiftl b2 8 + b3) :: words_of_bytes rest
  | _ => []
  end.

(** Message schedule: [win] holds the sixteen words before the next one. *)
Fixpoint expand (n : nat) (win : list N) : list N :=
  match n, win with
  | S n', w0 :: rest =>
      let w := w32 (sigma1 (nth 13 rest 0) + nth 8 rest 0 + sigma0 (nth 0 rest 0) + w0) in
      w :: expand n' (rest ++ [w])
  | _, _ => []
  end.

Definition schedule (block : list N) : list N := block ++ expand 48 block.

Definition round (st : list N) (kw : N * N) : list N :=
  match st with
  | [a; b; c; d; e; f; g; h] =>
      let t1 := h + Sigma1 e + Ch e f g + fst kw + snd kw in
      let t2 := Sigma0 a + Maj a b c in
      [w32 (t1 + t2); a; b; c; w32 (d + t1); e; f; g]
  | _ => st
  end.

Definition compress (h : list N) (block : list N) : list N :=
  let st := fold_left round (combine K (schedule block)) h in
  map (fun p => w32 (fst p + snd p)) (combine h st).

Fixpoint blocks (n : nat) (ws : list N) (h : list N) : list N :=
  match n with
  | O => h
  | S n' => blocks n' (skipn 16 ws) (compress h (firstn 16 ws))
  end.

Definition digest (msg : list N) : list N :=
  let ws := words_of_bytes (pad msg) in
  blocks (length ws / 16) ws H0.

Definition hex_digit (d : N) : ascii :=
  ascii_of_N (if d <? 10 then 48 + d else 87 + d).

Definition hex_word (w : N) : string :=
  string_of_list_ascii
    (map (fun i => hex_digit (N.shiftr w (4 * N.of_nat i) mod 16)) (rev (seq 0 8))).

Definition hexdigest (msg : list N) : string :=
  fold_right (fun w s => hex_word w ++ s)%string EmptyString (digest msg).

End SHA256.

(** [pin.encode("utf-8")] for code points below 256. *)
Definition encode_utf8 (s : string) : list N :=
  flat_map
    (fun c => let n := N_of_ascii c in
              if (n <? 128)%N then [n]
              else [N.lor 0xC0 (N.shiftr n 6); N.lor 0x80 (N.land n 0x3F)])
    (list_ascii_of_string s).

(** [hash_pin]: SHA-256 hex digest of the input PIN. *)
Definition hash_pin (pin : string) : string :=
  SHA256.hexdigest (encode_utf8 pin).

(** ** The accounts table

    [account_number TEXT PRIMARY KEY, pin TEXT NOT NULL,
     balance REAL NOT NULL DEFAULT 0].  Rows are kept in insertion order. *)

Module Sql.

Record Row := { account_number : string; pin : string; balance : float }.

Definition table : Type := list Row.

(** The row of a key: the first one that carries it. *)
Definition select (k : string) (t : table) : option Row :=
  find (fun r => String.eqb (account_number r) k) t.

(** [UPDATE accounts SET balance = ? WHERE account_number = ?] *)
Definition update_balance (b : float) (k : string) (t : table) : table :=
  map (fun r => if String.eqb (account_number r) k
                then {| account_number := account_number r; pin := pin r; balance := b |}
                else r) t.

(** [UPDATE accounts SET pin = ? WHERE account_number = ?] *)
Definition update_pin (p : string) (k : string) (t : table) : table :=
  map (fun r => if String.eqb (account_number r) k
                then {| account_number := account_number r; pin := p; balance := balance r |}
                else r) t.

(** [INSERT INTO accounts ...]: the primary key refuses a second row. *)
Inductive outcome := Done (t : table) | IntegrityError.

Definition insert (r : Row) (t : table) : outcome :=
  match select (account_number r) t with
  | Some _ => IntegrityError
  | None => Done (t ++ [r])
  end.

(** [INSERT OR IGNORE INTO accounts ...] *)
Definition insert_or_ignore (t : table) (r : Row) : table :=
  match select (account_number r) t with
  | Some _ => t
  | None => t ++ [r]
  end.

(** A connection: the committed table and the table as the connection sees
    it, with the changes of its open transaction. *)
Record Connection := { committed : table; working : table }.

Definition execute (f : table -> table) (c : Connection) : Connection :=
  {| committed := committed c; working := f (working c) |}.

Definition commit (c : Connection) : Connection :=
  {| committed := working c; working := working c |}.

(** [CREATE TABLE IF NOT EXISTS accounts]; [None] is a database that has no
    accounts table yet. *)
Definition create_table_if_not_exists (db : option Connection) : Connection :=
  match db with
  | Some c => c
  | None => {| committed := []; working := [] |}
  end.

End Sql.

(** ** Transaction and Account *)

Definition datetime : Type := Z.

Record Transaction := {
  txn_type : string;
  amount : float;
  balance_after : float;
  timestamp : datetime
}.

(** The [_conn] attribute is the one connection of the process; the methods
    below receive it as an argument and return it updated. *)
Record Account := {
  account_number : string;
  __pin_hash : string;
  __balance : float;
  _transactions : list Transaction
}.

(** [Account.__init__]; [balance] is already a float, so [float(balance)]
    is [balance]. *)
Definition Account_init (account_number : string) (pin_hash : string) (balance : float) : Account :=
  {| account_number := account_number; __pin_hash := pin_hash;
     __balance := balance; _transactions := [] |}.

Definition SavingsAccount := Account_init.

Definition set_balance (b : float) (self : Account) : Account :=
  {| account_number := account_number self; __pin_hash := __pin_hash self;
     __balance := b; _transactions := _transactions self |}.

Definition set_pin_hash (h : string) (self : Account) : Account :=
  {| account_number := account_number self; __pin_hash := h;
     __balance := __balance self; _transactions := _transactions self |}.

Definition append_transaction (t : Transaction) (self : Account) : Account :=
  {| account_number := account_number self; __pin_hash := __pin_hash self;
     __balance := __balance self; _transactions := _transactions self ++ [t] |}.

Definition _check_pin (self : Account) (pin : string) : bool :=
  String.eqb (__pin_hash self) (hash_pin pin).

Definition _persist_balance (self : Account) (conn : Sql.Connection) : Sql.Connection :=
  Sql.commit (Sql.execute (Sql.update_balance (__balance self) (account_number self)) conn).

Definition _persist_pin (self : Account) (conn : Sql.Connection) : Sql.Connection :=
  Sql.commit (Sql.execute (Sql.update_pin (__pin_hash self) (account_number self)) conn).

(** [now] is what [datetime.now()] returns when the record is built. *)
Definition get_balance (now : datetime) (self : Account) : float * Account :=
  (__balance self,
   append_transaction
     {| txn_type := "INQUIRY"; amount := PyFloat.zero;
        balance_after := __balance self; timestamp := now |} self).

Definition deposit (now : datetime) (amount : float) (self : Account) (conn : Sql.Connection)
  : bool * Account * Sql.Connection :=
  if PyFloat.leb amount PyFloat.zero then (false, self, conn)
  else
    let self := set_balance (PyFloat.add (__balance self) amount) self in
    let conn := _persist_balance self conn in
    let self := append_transaction
                  {| txn_type := "DEPOSIT"; amount := amount;
                     balance_after := __balance self; timestamp := now |} self in
    (true, self, conn).

Definition withdraw (now : datetime) (amount : float) (self : Account) (conn : Sql.Connection)
  : bool * Account * Sql.Connection :=
  if PyFloat.leb amount PyFloat.zero || PyFloat.ltb (__balance self) amount
  then (false, self, conn)
  else
    let self := set_balance (PyFloat.sub (__balance self) amount) self in
    let conn := _persist_balance self conn in
    let self := append_transaction
                  {| txn_type := "WITHDRAW"; amount := amount;
                     balance_after := __balance self; timestamp := now |} self in
    (true, self, conn).

Definition change_pin (old_pin new_pin : string) (self : Account) (conn : Sql.Connection)
  : bool * Account * Sql.Connection :=
  if negb (_check_pin self old_pin) then (false, self, conn)
  else if (String.length new_pin <? 4)%nat then (false, self, conn)
  else
    let self := set_pin_hash (hash_pin new_pin) self in
    let conn := _persist_pin self conn in
    (true, self, conn).

Definition get_transactions (self : Account) : list Transaction :=
  _transactions self.

(** ** Database helper functions *)

Definition samples : list Sql.Row :=
  [ {| Sql.account_number := "1001"; Sql.pin := hash_pin "1234"; Sql.balance := PyFloat.zero |};
    {| Sql.account_number := "1002"; Sql.pin := hash_pin "5678"; Sql.balance := PyFloat.zero |};
    {| Sql.account_number := "1003"; Sql.pin := hash_pin "0000"; Sql.balance := PyFloat.zero |} ].

Definition init_db (db : option Sql.Connection) : Sql.Connection :=
  let conn := Sql.create_table_if_not_exists db in
  let conn := Sql.execute (fun t => fold_left Sql.insert_or_ignore samples t) conn in
  Sql.commit conn.

(** The integer [0] of the statement is stored in a REAL column. *)
Definition insert_account_to_db (conn : Sql.Connection) (account_number : string) (pin : string)
  : bool * Sql.Connection :=
  match Sql.insert {| Sql.account_number := account_number; Sql.pin := hash_pin pin;
                      Sql.balance := PyFloat.zero |} (Sql.working conn) with
  | Sql.Done t => (true, Sql.commit (Sql.execute (fun _ => t) conn))
  | Sql.IntegrityError => (false, conn)
  end.

(** ** The process: heap, console and the ATM object *)

Definition loc : Type := nat.

(** What [print] and the prompts of [input] write to the console.  The
    formatted lines keep the value they format. *)
Inductive Output :=
| Prompt (s : string)
| Line (s : string)
| BalanceLine (bal : float)
| TransactionLine (t : Transaction).

(** [accounts] and [current_account] are the attributes of the one [ATM]
    object; both hold references into [heap].  [conn] is the connection
    that [ATM._conn] and every [Account._conn] refer to. *)
Record World := {
  conn : Sql.Connection;
  heap : gmap loc Account;
  accounts : gmap string loc;
  current_account : option loc;
  stdin : list string;
  stdout : list Output;
  clock : datetime
}.

Definition set_conn (c : Sql.Connection) (w : World) : World :=
  {| conn := c; heap := heap w; accounts := accounts w;
     current_account := current_account w;
     stdin := stdin w; stdout := stdout w; clock := clock w |}.

Definition set_heap (h : gmap loc Account) (w : World) : World :=
  {| conn := conn w; heap := h; accounts := accounts w;
     current_account := current_account w;
     stdin := stdin w; stdout := stdout w; clock := clock w |}.

Definition set_accounts (a : gmap string loc) (w : World) : World :=
  {| conn := conn w; heap := heap w; accounts := a;
     current_account := current_account w;
     stdin := stdin w; stdout := stdout w; clock := clock w |}.

Definition set_current_account (c : option loc) (w : World) : World :=
  {| conn := conn w; heap := heap w; accounts := accounts w;
     current_account := c;
     stdin := stdin w; stdout := stdout w; clock := clock w |}.

Definition set_stdin (i : list string) (w : World) : World :=
  {| conn := conn w; heap := heap w; accounts := accounts w;
     current_account := current_account w;
     stdin := i; stdout := stdout w; clock := clock w |}.

Definition set_stdout (o : list Output) (w : World) : World :=
  {| conn := conn w; heap := heap w; accounts := accounts w;
     current_account := current_account w;
     stdin := stdin w; stdout := o; clock := clock w |}.

(** Exceptions that leave the functions below. *)
Inductive exn := EOFError | AttributeError.

Inductive Result (A : Type) :=
| Return (a : A)
| Raise (e : exn).
Arguments Return {A} a.
Arguments Raise {A} e.

(** A computation changes the world and returns or raises; what it changed
    before raising stays changed. *)
Definition M (A : Type) : Type := World -> Result A * World.

Definition ret {A} (a : A) : M A := fun w => (Return a, w).

Definition bind {A B} (c : M A) (k : A -> M B) : M B :=
  fun w => match c w with
           | (Return a, w') => k a w'
           | (Raise e, w') => (Raise e, w')
           end.

Declare Scope atm_scope.
Delimit Scope atm_scope with atm.
Notation "'let*' x ':=' c 'in' k" := (bind c (fun x => k))
  (at level 10, x name, c at level 100, k at level 200) : atm_scope.
Notation "c ';;' k" := (bind c (fun _ => k))
  (at level 100, k at level 200, right associativity) : atm_scope.

Definition raise {A} (e : exn) : M A := fun w => (Raise e, w).
Definition gets {A} (f : World -> A) : M A := fun w => (Return (f w), w).
Definition modify (f : World -> World) : M unit := fun w => (Return tt, f w).

Definition print (o : Output) : M unit :=
  modify (fun w => set_stdout (stdout w ++ [o]) w).

(** [input(prompt)]: the next line of the console, without its newline. *)
Definition input (prompt : string) : M string :=
  fun w =>
    let w := set_stdout (stdout w ++ [Prompt prompt]) w in
    match stdin w with
    | [] => (Raise EOFError, w)
    | l :: rest => (Return l, set_stdin rest w)
    end.

(** [str.strip()] *)
Definition isspace (c : ascii) : bool :=
  let n := N_of_ascii c in
  (((9 <=? n) && (n <=? 13)) || ((28 <=? n) && (n <=? 32)) || (n =? 133) || (n =? 160))%N.

Fixpoint lstrip (s : list ascii) : list ascii :=
  match s with
  | c :: s' => if isspace c then lstrip s' else s
  | [] => []
  end.

Definition strip (s : string) : string :=
  string_of_list_ascii (rev (lstrip (rev (lstrip (list_ascii_of_string s))))).

(** A new object is stored at a location that the heap does not use. *)
Definition new (obj : Account) : M loc :=
  fun w => let l := fresh (dom (heap w)) in
           (Return l, set_heap (<[l := obj]> (heap w)) w).

(** A method call on the object at [l]; the method receives the object and
    the connection and leaves both updated. *)
Definition call {A} (l : loc) (method : Account -> Sql.Connection -> A * Account * Sql.Connection)
  : M A :=
  fun w => match heap w !! l with
           | Some self =>
               let '(r, self', conn') := method self (conn w) in
               (Return r, set_conn conn' (set_heap (<[l := self']> (heap w)) w))
           | None => (Raise AttributeError, w)
           end.

(** A method call on [self.current_account], which may be [None]. *)
Definition call_current {A} (method : Account -> Sql.Connection -> A * Account * Sql.Connection)
  : M A :=
  fun w => match current_account w with
           | Some l => call l method w
           | None => (Raise AttributeError, w)
           end.

Local Open Scope atm_scope.

(** [load_all_accounts]: one object per row, in the order of the rows. *)
Definition load_account (r : Sql.Row) : M unit :=
  let* l := new (SavingsAccount (Sql.account_number r) (Sql.pin r) (Sql.balance r)) in
  modify (fun w => set_accounts (<[Sql.account_number r := l]> (accounts w)) w).

Fixpoint load_rows (rows : list Sql.Row) : M unit :=
  match rows with
  | [] => ret tt
  | r :: rows' => load_account r ;; load_rows rows'
  end.

Definition load_all_accounts : M unit :=
  modify (set_accounts ∅) ;;
  let* rows := gets (fun w => Sql.working (conn w)) in
  load_rows rows.

(** [ATM.__init__] on a database [db], with the console and the clock of the
    process. *)
Definition ATM_init (db : option Sql.Connection) (i : list string) (t : datetime) : World :=
  let w := {| conn := init_db db; heap := ∅; accounts := ∅; current_account := None;
              stdin := i; stdout := []; clock := t |} in
  snd ((load_all_accounts ;; modify (set_current_account None)) w).

Definition create_account : M unit :=
  let* acc_no := input "Enter NEW Account Number: " in
  let acc_no := strip acc_no in
  if String.eqb acc_no "" then print (Line "Account number required.")
  else
    let* known := gets (fun w => accounts w !! acc_no) in
    match known with
    | Some _ => print (Line "Account number exists.")
    | None =>
        let* pin := input "Set a 4-digit PIN: " in
        let pin := strip pin in
        if (String.length pin <? 4)%nat then print (Line "PIN must be at least 4 digits.")
        else
          let* c := gets conn in
          let '(ok, c') := insert_account_to_db c acc_no pin in
          modify (set_conn c') ;;
          if ok then
            let* l := new (SavingsAccount acc_no (hash_pin pin) PyFloat.zero) in
            modify (fun w => set_accounts (<[acc_no := l]> (accounts w)) w) ;;
            print (Line "Account created. Initial balance: ₹0.")
          else print (Line "Failed to create account.")
    end.

Definition authenticate_user : M bool :=
  let* acc_no := input "Enter Account Number: " in
  let acc_no := strip acc_no in
  let* pin := input "Enter PIN: " in
  let pin := strip pin in
  let* account := gets (fun w => accounts w !! acc_no) in
  let* self := gets (fun w => account ≫= (heap w !!.)) in
  match account, self with
  | Some l, Some self =>
      if _check_pin self pin then
        modify (set_current_account (Some l)) ;;
        print (Line "Login successful.") ;;
        ret true
      else print (Line "Invalid account number or PIN.") ;; ret false
  | _, _ => print (Line "Invalid account number or PIN.") ;; ret false
  end.

Fixpoint print_transactions (txns : list Transaction) : M unit :=
  match txns with
  | [] => ret tt
  | t :: txns' => print (TransactionLine t) ;; print_transactions txns'
  end.

(** [float_of_str] is [float(...)] on the text of an amount; [None] stands
    for [ValueError]. *)
Definition handle_choice (float_of_str : string -> option float) (choice : string) : M bool :=
  if String.eqb choice "1" then
    let* now := gets clock in
    let* bal := call_current (fun self c => let '(b, self') := get_balance now self in (b, self', c)) in
    print (BalanceLine bal) ;; ret true
  else if String.eqb choice "2" then
    let* text := input "Enter withdrawal amount: ₹" in
    match float_of_str text with
    | None => print (Line "Invalid amount.") ;; ret true
    | Some amt =>
        let* now := gets clock in
        let* ok := call_current (withdraw now amt) in
        (if ok then print (Line "Withdrawal successful.")
         else print (Line "Insufficient balance or invalid amount.")) ;;
        ret true
    end
  else if String.eqb choice "3" then
    let* text := input "Enter deposit amount: ₹" in
    match float_of_str text with
    | None => print (Line "Invalid amount.") ;; ret true
    | Some amt =>
        let* now := gets clock in
        let* ok := call_current (deposit now amt) in
        (if ok then print (Line "Deposit successful.")
         else print (Line "Amount must be > 0.")) ;;
        ret true
    end
  else if String.eqb choice "4" then
    let* txns := call_current (fun self c => (get_transactions self, self, c)) in
    (match txns with
     | [] => print (Line "No transactions this session.")
     | _ => print_transactions txns
     end) ;;
    ret true
  else if String.eqb choice "5" then
    let* old_pin := input "Enter current PIN: " in
    let old_pin := strip old_pin in
    let* new_pin := input "Enter new PIN (min 4 digits): " in
    let new_pin := strip new_pin in
    let* ok := call_current (change_pin old_pin new_pin) in
    (if ok then print (Line "PIN changed successfully.")
     else print (Line "PIN change failed.")) ;;
    ret true
  else if String.eqb choice "6" then
    modify (set_current_account None) ;; ret false
  else
    print (Line "Invalid choice.") ;; ret true.

(** ** Ledger operations as data

    A run of the ledger on one account: the operations of [Account] in the
    order they are called, each with the time of the call.  What each call
    returns is kept. *)

Inductive Op :=
| GetBalance
| Deposit (amount : float)
| Withdraw (amount : float)
| ChangePin (old_pin new_pin : string)
| GetTransactions.

Inductive Value :=
| VFloat (x : float)
| VBool (b : bool)
| VList (l : list Transaction).

Definition perform (now : datetime) (o : Op) (self : Account) (conn : Sql.Connection)
  : Value * Account * Sql.Connection :=
  match o with
  | GetBalance => let '(b, self') := get_balance now self in (VFloat b, self', conn)
  | Deposit a => let '(r, self', conn') := deposit now a self conn in (VBool r, self', conn')
  | Withdraw a => let '(r, self', conn') := withdraw now a self conn in (VBool r, self', conn')
  | ChangePin o n => let '(r, self', conn') := change_pin o n self conn in (VBool r, self', conn')
  | GetTransactions => (VList (get_transactions self), self, conn)
  end.

Fixpoint perform_all (ops : list (datetime * Op)) (self : Account) (conn : Sql.Connection)
  : list Value * Account * Sql.Connection :=
  match ops with
  | [] => ([], self, conn)
  | (now, o) :: ops' =>
      let '(v, self', conn') := perform now o self conn in
      let '(vs, self'', conn'') := perform_all ops' self' conn' in
      (v :: vs, self'', conn'')
  end.





(** The balance after each operation of a run. *)
Fixpoint balances (ops : list (datetime * Op)) (self : Account) (conn : Sql.Connection)
  : list float :=
  match ops with
  | [] => []
  | (now, o) :: ops' =>
      let '(_, self', conn') := perform now o self conn in
      __balance self' :: balances ops' self' conn'
  end.

(** The amount of an operation, when it has one, is a finite binary64
    number. *)
Definition finite_amount (o : Op) : Prop :=
  match o with
  | Deposit a | Withdraw a => PyFloat.valid a = true /\ PyFloat.is_finite a = true
  | _ => True
  end.

(** A balance: a binary64 number with [0 <= balance]. *)
Definition balance_ok (b : float) : Prop :=
  PyFloat.valid b = true /\ PyFloat.nonneg b = true.

(** An account is linked to the table when its row is there. *)
Definition linked (self : Account) (conn : Sql.Connection) : Prop :=
  is_Some (Sql.select (account_number self) (Sql.working conn)).


(** A conversion of amounts for the examples: the decimal integers, [nan]
    and [inf]; [float] itself accepts more. *)
Fixpoint digits_value (acc : Z) (s : list ascii) : option Z :=
  match s with
  | [] => Some acc
  | c :: s' =>
      let n := Z.of_N (N_of_ascii c) in
      if ((48 <=? n) && (n <=? 57))%Z then digits_value (10 * acc + (n - 48)) s'
      else None
  end.

Definition float_of_digits (s : string) : option float :=
  if String.eqb s "nan" then Some PyFloat.nan
  else if String.eqb s "inf" then Some PyFloat.inf
  else match list_ascii_of_string s with
       | [] => None
       | cs => PyFloat.of_Z <$> digits_value 0 cs
       end.

(** ** Data of the examples *)

Definition sample_conn : Sql.Connection := init_db None.

Definition sample_account : Account :=
  SavingsAccount "1001" (hash_pin "1234") PyFloat.zero.

(** Account 1001 and the connection after a deposit of 500. *)
Definition funded_account : Account :=
  (deposit 7%Z (PyFloat.of_Z 500) sample_account sample_conn).1.2.

Definition funded_conn : Sql.Connection :=
  (deposit 7%Z (PyFloat.of_Z 500) sample_account sample_conn).2.

(** The process after start-up on a new database, with the lines that the
    user is going to type. *)
Definition sample_world (lines : list string) : World :=
  ATM_init None lines 7%Z.

(** [self.current_account.get_transactions()], as the fourth choice of the
    menu calls it. *)
Definition current_transactions : M (list Transaction) :=
  call_current (fun self c => (get_transactions self, self, c)).


(** The process after a login to account 1001 and a deposit of 500; the
    user is going to type the account number and the PIN again. *)
Definition busy_world : World :=
  ((let* _ := authenticate_user in handle_choice float_of_digits "3")%atm
     (sample_world ["1001"; "1234"; "500"; "1001"; "1234"])).2.

(** ** The states of the process *)

Definition set_clock (t : datetime) (w : World) : World :=
  {| conn := conn w; heap := heap w; accounts := accounts w;
     current_account := current_account w;
     stdin := stdin w; stdout := stdout w; clock := t |}.

(** The primary key: no two rows with one account number. *)
Definition table_ok (db : option Sql.Connection) : Prop :=
  match db with
  | Some c => List.NoDup (map Sql.account_number (Sql.working c))
  | None => True
  end.

(** The states that the process can be in: the one after [ATM.__init__],
    and the ones after a call of a method of [ATM] or after the user typed
    or time went by. *)
Inductive reachable (float_of_str : string -> option float) : World -> Prop :=
| reach_init (db : option Sql.Connection) (i : list string) (t : datetime) :
    table_ok db -> reachable float_of_str (ATM_init db i t)
| reach_create_account (w : World) :
    reachable float_of_str w -> reachable float_of_str (create_account w).2
| reach_authenticate_user (w : World) :
    reachable float_of_str w -> reachable float_of_str (authenticate_user w).2
| reach_handle_choice (w : World) (choice : string) :
    reachable float_of_str w -> reachable float_of_str (handle_choice float_of_str choice w).2
| reach_environment (w : World) (i : list string) (t : datetime) :
    reachable float_of_str w -> reachable float_of_str (set_clock t (set_stdin i w)).

(** The object mirrors its row. *)
Definition mirrors (self : Account) (r : Sql.Row) : Prop :=
  Sql.account_number r = account_number self
  /\ Sql.pin r = __pin_hash self
  /\ Sql.balance r = __balance self.

(** Nothing is left uncommitted; every entry of [accounts] refers to an
    object that carries the entry's key and mirrors the row of that key;
    [current_account] is one of these objects. *)
Definition consistent (w : World) : Prop :=
  Sql.committed (conn w) = Sql.working (conn w)
  /\ (forall k l, accounts w !! k = Some l ->
        exists self r, heap w !! l = Some self
                       /\ account_number self = k
                       /\ Sql.select k (Sql.working (conn w)) = Some r
                       /\ mirrors self r)
  /\ (forall l, current_account w = Some l -> exists k, accounts w !! k = Some l).

(** A computation that keeps the state consistent, however it ends. *)
Definition preserves {A} (c : M A) : Prop :=
  forall w, consistent w -> consistent (c w).2.

(** What a method of [Account] does to the table: it rewrites rows of its
    own key only, keeps the keys, commits, and leaves the object as the
    mirror of its row. *)
Definition method_ok {A} (method : Account -> Sql.Connection -> A * Account * Sql.Connection)
  : Prop :=
  forall self c r,
    Sql.committed c = Sql.working c ->
    Sql.select (account_number self) (Sql.working c) = Some r ->
    mirrors self r ->
    account_number (method self c).1.2 = account_number self
    /\ Sql.committed (method self c).2 = Sql.working (method self c).2
    /\ exists g : Sql.Row -> Sql.Row,
         (forall x, Sql.account_number (g x) = Sql.account_number x)
         /\ (forall x, Sql.account_number x <> account_number self -> g x = x)
         /\ Sql.working (method self c).2 = map g (Sql.working c)
         /\ mirrors (method self c).1.2 (g r).

(** ** The menus and the main loop *)

Definition show_menu : M unit :=
  print (Line "1. Balance Inquiry") ;;
  print (Line "2. Cash Withdrawal") ;;
  print (Line "3. Cash Deposit") ;;
  print (Line "4. Transaction History (session)") ;;
  print (Line "5. Change PIN") ;;
  print (Line "6. Logout").

(** The loops of [run] are run on fuel, one unit for each turn of a loop;
    [None] is returned when the fuel is used up before the loop ends. *)
Fixpoint session_loop (fuel : nat) (float_of_str : string -> option float)
  : M (option unit) :=
  match fuel with
  | O => ret None
  | S fuel' =>
      show_menu ;;
      let* choice := input "Enter choice: " in
      let* session_active := handle_choice float_of_str (strip choice) in
      if session_active then session_loop fuel' float_of_str else ret (Some tt)
  end.

Fixpoint run (fuel : nat) (float_of_str : string -> option float) : M (option unit) :=
  match fuel with
  | O => ret None
  | S fuel' =>
      print (Line (String "010" "Main Menu")) ;;
      print (Line "1. Login") ;;
      print (Line "2. Create New Account") ;;
      print (Line "3. Exit") ;;
      let* opt := input "Choose (1-3): " in
      let opt := strip opt in
      if String.eqb opt "1" then
        let* ok := authenticate_user in
        if ok then
          let* ended := session_loop fuel' float_of_str in
          match ended with
          | Some _ => run fuel' float_of_str
          | None => ret None
          end
        else run fuel' float_of_str
      else if String.eqb opt "2" then
        create_account ;; run fuel' float_of_str
      else if String.eqb opt "3" then ret (Some tt)
      else print (Line "Invalid option.") ;; run fuel' float_of_str
  end.

(** [sqlite3.connect(DB_FILE)] on a file that holds the table [db] (or no
    table yet), and [conn.close()], which leaves in the file what was
    committed. *)
Definition connect (db : option Sql.table) : option Sql.Connection :=
  (fun t => {| Sql.committed := t; Sql.working := t |}) <$> db.

Definition close (c : Sql.Connection) : Sql.table := Sql.committed c.

(** [main]: how [run] ended, the table left in the file and what was
    written to the console. *)
Definition main (fuel : nat) (float_of_str : string -> option float)
  (db : option Sql.table) (i : list string) (t : datetime)
  : Result (option unit) * Sql.table * list Output :=
  let atm := ATM_init (connect db) i t in
  let '(r, w) := run fuel float_of_str atm in
  (r, close (conn w), stdout w).

(** ** Relations between states *)

(** The table, the heap, the dictionary of accounts and the binding of the
    session are the same in both states. *)
Definition untouched (w w' : World) : Prop :=
  conn w' = conn w /\ heap w' = heap w /\ accounts w' = accounts w
  /\ current_account w' = current_account w.

(** The state after [create_account] stored a new account [k] with PIN
    [pin]: the row is inserted, the object is new, the dictionary refers to
    it. *)
Definition created (k pin : string) (w : World) : World :=
  let l := fresh (dom (heap w)) in
  set_accounts (<[k := l]> (accounts w))
    (set_heap (<[l := SavingsAccount k (hash_pin pin) PyFloat.zero]> (heap w))
       (set_conn (insert_account_to_db (conn w) k pin).2 w)).

(** A computation whose end state is related to its start state by [R],
    however it ends. *)
Definition respects (R : World -> World -> Prop) {A} (c : M A) : Prop :=
  forall w, R w (c w).2.

(** No line is put back on the console. *)
Definition consumes (w w' : World) : Prop :=
  length (stdin w') <= length (stdin w).

(** The account numbers of the table, in the order of the rows. *)
Definition keys (w : World) : list string :=
  map Sql.account_number (Sql.working (conn w)).

(** No row is deleted or moved, and the primary key holds in the end state
    when it held in the start state. *)
Definition keeps_rows (w w' : World) : Prop :=
  (exists more, keys w' = keys w ++ more)
  /\ (List.NoDup (keys w) -> List.NoDup (keys w')).

(** Nothing is taken away: every object is still where it was, with its
    account number and with its log as the beginning of the new log, and
    every entry of the dictionary is still there. *)
Definition grows (w w' : World) : Prop :=
  (forall l self, heap w !! l = Some self ->
     exists self' new,
       heap w' !! l = Some self'
       /\ account_number self' = account_number self
       /\ _transactions self' = _transactions self ++ new)
  /\ (forall k l, accounts w !! k = Some l -> accounts w' !! k = Some l).

(** An account is bound to the session. *)
Definition bound (w : World) : Prop :=
  exists l self, current_account w = Some l /\ heap w !! l = Some self.

(** What a step of a session leaves alone.  While no account is bound it
    changes no object, no entry and no row.  While the object at [l] is
    bound it changes no other object, no entry and no row of another
    account number, and the session stays bound to [l] or ends. *)
Definition isolates (w w' : World) : Prop :=
  (Sql.committed (conn w) = Sql.working (conn w) ->
   Sql.committed (conn w') = Sql.working (conn w'))
  /\ accounts w' = accounts w
  /\ match current_account w with
     | None =>
         current_account w' = None /\ heap w' = heap w
         /\ Sql.working (conn w') = Sql.working (conn w)
     | Some l =>
         (current_account w' = Some l \/ current_account w' = None)
         /\ (forall l', l' <> l -> heap w' !! l' = heap w !! l')
         /\ match heap w !! l with
            | Some self =>
                (exists self', heap w' !! l = Some self'
                               /\ account_number self' = account_number self)
                /\ (forall k, k <> account_number self ->
                      Sql.select k (Sql.working (conn w'))
                      = Sql.select k (Sql.working (conn w)))
            | None => heap w' !! l = None
                      /\ Sql.working (conn w') = Sql.working (conn w)
            end
     end.

(** Between [w] and [w'] only the object at [l] and the row of its account
    number may differ. *)
Definition touches_only (l : loc) (self : Account) (w w' : World) : Prop :=
  (forall l', l' <> l -> heap w' !! l' = heap w !! l')
  /\ accounts w' = accounts w
  /\ (forall k, k <> account_number self ->
        Sql.select k (Sql.working (conn w')) = Sql.select k (Sql.working (conn w))
        /\ Sql.select k (Sql.committed (conn w')) = Sql.select k (Sql.committed (conn w))).

(** The lines of the console that [float] accepts are numbers: none of them
    reads as NaN or as an infinity. *)
Definition typed_numbers (float_of_str : string -> option float) (lines : list string) : Prop :=
  forall s a, In s lines -> float_of_str s = Some a ->
              PyFloat.valid a = true /\ PyFloat.is_finite a = true.

(** Every balance of the process, of an object or of a row, is a number
    with [0 <= balance]. *)
Definition numbers (w : World) : Prop :=
  (forall l self, heap w !! l = Some self -> balance_ok (__balance self))
  /\ (forall r, In r (Sql.working (conn w)) -> balance_ok (Sql.balance r)).

(** A step keeps the balances numbers, as long as the amounts still to be
    typed are numbers. *)
Definition keeps_numbers (float_of_str : string -> option float) (w w' : World) : Prop :=
  numbers w /\ typed_numbers float_of_str (stdin w) ->
  numbers w' /\ typed_numbers float_of_str (stdin w').

(** A string that [hash_pin] returns. *)
Definition is_digest (s : string) : Prop := exists pin, s = hash_pin pin.

(** Every PIN that the process holds, in an object or in a row, is a
    digest. *)
Definition digests (w : World) : Prop :=
  (forall l self, heap w !! l = Some self -> is_digest (__pin_hash self))
  /\ (forall r, In r (Sql.working (conn w)) -> is_digest (Sql.pin r)).

Definition keeps_digests (w w' : World) : Prop := digests w -> digests w'.

(** The console is only read forward: what is left of it is a suffix of
    what was there. *)
Definition reads_forward (w w' : World) : Prop :=
  exists read, stdin w = read ++ stdin w'.

(** * Properties *)

(** ** Test vectors of the digest *)

Example sha256_empty :
  SHA256.hexdigest [] = "e3b0c44298fc1c149afbf4c8996fb92427ae41e4649b934ca495991b7852b855"%string.
Proof. vm_compute. reflexivity. Qed.

Example sha256_abc :
  hash_pin "abc" = "ba7816bf8f01cfea414140de5dae2223b00361a396177a9cb410ff61f20015ad"%string.
Proof. vm_compute. reflexivity. Qed.

Example sha256_two_blocks :
  hash_pin "abcdbcdecdefdefgefghfghighijhijkijkljklmklmnlmnomnopnopq"
  = "248d6a61d20638b8e5c026930c3e6039a33ce45964ff2167f6ecedd419db06c1"%string.
Proof. vm_compute. reflexivity. Qed.

Example hash_pin_1234 :
  hash_pin "1234" = "03ac674216f3e15c761ee1a5e255f067953623c8b388b4459e13f978d7c846f4"%string.
Proof. vm_compute. reflexivity. Qed.

(** ** A session, run

    A new account 2001 with PIN 4321, a login, a deposit of 500, a
    withdrawal of 200 and a refused withdrawal of 1000. *)

Example session_run :
  let w := (let* _ := create_account in
            let* _ := authenticate_user in
            let* _ := handle_choice float_of_digits "3" in
            let* _ := handle_choice float_of_digits "2" in
            handle_choice float_of_digits "2")%atm
             (sample_world ["2001"; "4321"; " 2001 "; "4321"; "500"; "200"; "1000"]) in
  w.1 = Return true
  /\ (current_transactions w.2).1
     = Return [ {| txn_type := "DEPOSIT"; amount := PyFloat.of_Z 500;
                   balance_after := PyFloat.of_Z 500; timestamp := 7%Z |};
                {| txn_type := "WITHDRAW"; amount := PyFloat.of_Z 200;
                   balance_after := PyFloat.of_Z 300; timestamp := 7%Z |} ]
  /\ Sql.balance <$> Sql.select "2001" (Sql.committed (conn w.2)) = Some (PyFloat.of_Z 300)
  /\ last (stdout w.2) = Some (Line "Insufficient balance or invalid amount.").
Proof. vm_compute. repeat split. Qed.

(** ** Comparison of floats *)

Section FloatOrder.
Import PyFloat.

Lemma SFcompare_swap (x y : float) :
  SFcompare y x = CompOpp <$> SFcompare x y.
Proof.
  destruct x as [sx|sx| |sx mx ex], y as [sy|sy| |sy my ey]; simpl;
    try reflexivity; try (destruct sx; reflexivity); try (destruct sy; reflexivity);
    try (destruct sx, sy; reflexivity).
  destruct sx, sy; simpl; try reflexivity;
    rewrite (Z.compare_antisym ey ex); destruct (ey ?= ex)%Z; simpl; try reflexivity;
    change (Pos.compare_cont Eq my mx) with (Pos.compare my mx);
    change (Pos.compare_cont Eq mx my) with (Pos.compare mx my);
    rewrite (Pos.compare_antisym my mx); destruct (my ?= mx)%positive; reflexivity.
Qed.

(** [0 < a] excludes [a <= 0]. *)
Lemma ltb_zero_leb (a : float) : ltb zero a = true -> leb a zero = false.
Proof.
  unfold ltb, leb, SFltb, SFleb. rewrite (SFcompare_swap zero a).
  destruct (SFcompare zero a) as [[]|]; simpl; congruence.
Qed.

(** [a <= b] excludes [a > b]. *)
Lemma leb_ltb (a b : float) : leb a b = true -> ltb b a = false.
Proof.
  unfold ltb, leb, SFltb, SFleb. rewrite (SFcompare_swap a b).
  destruct (SFcompare a b) as [[]|]; simpl; congruence.
Qed.

End FloatOrder.

(** ** The table *)

Section Table.
Import Sql.

Lemma select_map (f : Row -> Row) (k : string) (t : table) :
  (forall r, account_number (f r) = account_number r) ->
  select k (map f t) = f <$> select k t.
Proof.
  intros Hkey. unfold select. induction t as [|r t IH]; simpl; [reflexivity|].
  rewrite Hkey. destruct (String.eqb (account_number r) k); [reflexivity|exact IH].
Qed.

Lemma select_update_balance (b : float) (k k' : string) (t : table) :
  select k (update_balance b k' t)
  = (fun r => if String.eqb (account_number r) k'
              then {| account_number := account_number r; pin := pin r; balance := b |}
              else r) <$> select k t.
Proof. apply select_map. intros r. destruct (String.eqb _ _); reflexivity. Qed.

Lemma select_update_pin (p : string) (k k' : string) (t : table) :
  select k (update_pin p k' t)
  = (fun r => if String.eqb (account_number r) k'
              then {| account_number := account_number r; pin := p; balance := balance r |}
              else r) <$> select k t.
Proof. apply select_map. intros r. destruct (String.eqb _ _); reflexivity. Qed.

Lemma select_key (k : string) (t : table) (r : Row) :
  select k t = Some r -> account_number r = k.
Proof.
  unfold select. intros H. apply find_some in H as [_ H].
  apply String.eqb_eq in H. exact H.
Qed.

Lemma keys_update_balance (b : float) (k : string) (t : table) :
  map account_number (update_balance b k t) = map account_number t.
Proof.
  unfold update_balance. rewrite map_map. apply map_ext.
  intros r. destruct (String.eqb _ _); reflexivity.
Qed.

Lemma keys_update_pin (p : string) (k : string) (t : table) :
  map account_number (update_pin p k t) = map account_number t.
Proof.
  unfold update_pin. rewrite map_map. apply map_ext.
  intros r. destruct (String.eqb _ _); reflexivity.
Qed.

Lemma pins_update_balance (b : float) (k : string) (t : table) :
  map pin (update_balance b k t) = map pin t.
Proof.
  unfold update_balance. rewrite map_map. apply map_ext.
  intros r. destruct (String.eqb _ _); reflexivity.
Qed.

Lemma balances_update_pin (p : string) (k : string) (t : table) :
  map balance (update_pin p k t) = map balance t.
Proof.
  unfold update_pin. rewrite map_map. apply map_ext.
  intros r. destruct (String.eqb _ _); reflexivity.
Qed.

End Table.

(** After [_persist_balance] the committed row of a linked account carries
    the balance of the object. *)
Lemma persist_balance_committed (self : Account) (conn : Sql.Connection) :
  linked self conn ->
  Sql.balance <$> Sql.select (account_number self) (Sql.committed (_persist_balance self conn))
  = Some (__balance self).
Proof.
  intros [r Hr]. unfold _persist_balance. simpl.
  rewrite select_update_balance, Hr. simpl.
  rewrite (select_key _ _ _ Hr : Sql.account_number r = _), String.eqb_refl. reflexivity.
Qed.

Lemma persist_pin_committed (self : Account) (conn : Sql.Connection) :
  linked self conn ->
  Sql.pin <$> Sql.select (account_number self) (Sql.committed (_persist_pin self conn))
  = Some (__pin_hash self).
Proof.
  intros [r Hr]. unfold _persist_pin. simpl.
  rewrite select_update_pin, Hr. simpl.
  rewrite (select_key _ _ _ Hr : Sql.account_number r = _), String.eqb_refl. reflexivity.
Qed.


(** ** Deposit and withdrawal *)


(** The part of C1 that the code keeps.  Where the sum is a number, a
    deposit of [a > 0] returns [True], adds [a] to the balance, commits the
    table with the new balance written in the row of the account, so that
    the committed row of an account that has one carries the new balance,
    and appends one DEPOSIT record with [a] and the new balance; a deposit
    of [a <= 0] returns [False] and changes neither the object, its log, nor
    the connection. *)
Theorem deposit_spec (now : datetime) (a : float) (self : Account) (conn : Sql.Connection) :
  (PyFloat.ltb PyFloat.zero a = true ->
   PyFloat.is_nan (PyFloat.add (__balance self) a) = false ->
   exists self' conn',
     deposit now a self conn = (true, self', conn')
     /\ __balance self' = PyFloat.add (__balance self) a
     /\ Sql.committed conn'
        = Sql.update_balance (__balance self') (account_number self) (Sql.working conn)
     /\ (linked self conn ->
         Sql.balance <$> Sql.select (account_number self) (Sql.committed conn')
         = Some (__balance self'))
     /\ _transactions self'
        = _transactions self
          ++ [{| txn_type := "DEPOSIT"; amount := a;
                 balance_after := PyFloat.add (__balance self) a; timestamp := now |}])
  /\ (PyFloat.leb a PyFloat.zero = true -> deposit now a self conn = (false, self, conn)).
Proof.
  split.
  - intros Hpos _. unfold deposit.
    rewrite (ltb_zero_leb a Hpos).
    eexists _, _. split; [reflexivity|]. repeat split.
    intros Hlinked.
    apply (persist_balance_committed (set_balance _ self)). exact Hlinked.
  - intros Hle. unfold deposit. rewrite Hle. reflexivity.
Qed.

Lemma deposit_spec_witness :
  (exists self' conn',
     deposit 7%Z (PyFloat.of_Z 500) sample_account sample_conn = (true, self', conn')
     /\ __balance self' = PyFloat.add (__balance sample_account) (PyFloat.of_Z 500)
     /\ Sql.balance <$> Sql.select (account_number sample_account) (Sql.committed conn')
        = Some (__balance self')
     /\ _transactions self'
        = _transactions sample_account
          ++ [{| txn_type := "DEPOSIT"; amount := PyFloat.of_Z 500;
                 balance_after := PyFloat.add (__balance sample_account) (PyFloat.of_Z 500);
                 timestamp := 7%Z |}])
  /\ deposit 7%Z (PyFloat.of_Z (-5)) sample_account sample_conn
     = (false, sample_account, sample_conn).
Proof.
  split.
  - destruct (proj1 (deposit_spec 7%Z (PyFloat.of_Z 500) sample_account sample_conn))
      as (self' & conn' & Hret & Hbal & _ & Hrow & Hlog).
    + vm_compute. reflexivity.
    + vm_compute. reflexivity.
    + exists self', conn'. split; [exact Hret|]. split; [exact Hbal|].
      split; [|exact Hlog]. apply Hrow. vm_compute. eexists. reflexivity.
  - apply (proj2 (deposit_spec 7%Z (PyFloat.of_Z (-5)) sample_account sample_conn)).
    vm_compute. reflexivity.
Defined.

(** C2. The input on which [withdraw] does not do what the claim says:
    account 1001 after a deposit of [inf], which returns [True] and leaves
    the balance [inf] in the object and in the committed row, and the
    amount [inf].  [0 < inf <= balance] holds, so the guard lets the amount
    pass, and the difference that [withdraw] assigns to the balance before
    it persists it is NaN. *)
Theorem withdraw_breaks_on_nan_difference :
  let self := (deposit 7%Z PyFloat.inf sample_account sample_conn).1.2 in
  let conn := (deposit 7%Z PyFloat.inf sample_account sample_conn).2 in
  (deposit 7%Z PyFloat.inf sample_account sample_conn).1.1 = true
  /\ __balance self = PyFloat.inf
  /\ Sql.balance <$> Sql.select (account_number self) (Sql.committed conn)
     = Some PyFloat.inf
  /\ PyFloat.ltb PyFloat.zero PyFloat.inf = true
  /\ PyFloat.leb PyFloat.inf (__balance self) = true
  /\ PyFloat.is_nan (PyFloat.sub (__balance self) PyFloat.inf) = true
  /\ PyFloat.is_nan (__balance (withdraw 8%Z PyFloat.inf self conn).1.2) = true.
Proof. vm_compute. repeat split. Qed.

(** The part of C2 that the code keeps.  Where the difference is a number,
    a withdrawal of [a] with [0 < a <= balance] returns [True], takes [a]
    off the balance, commits the table with the new balance written in the
    row of the account, so that the committed row of an account that has
    one carries the new balance, and appends one WITHDRAW record; with
    [a <= 0] or [a > balance] it returns [False], the same value for both
    causes, and changes nothing. *)
Theorem withdraw_spec (now : datetime) (a : float) (self : Account) (conn : Sql.Connection) :
  (PyFloat.ltb PyFloat.zero a = true -> PyFloat.leb a (__balance self) = true ->
   PyFloat.is_nan (PyFloat.sub (__balance self) a) = false ->
   exists self' conn',
     withdraw now a self conn = (true, self', conn')
     /\ __balance self' = PyFloat.sub (__balance self) a
     /\ Sql.committed conn'
        = Sql.update_balance (__balance self') (account_number self) (Sql.working conn)
     /\ (linked self conn ->
         Sql.balance <$> Sql.select (account_number self) (Sql.committed conn')
         = Some (__balance self'))
     /\ _transactions self'
        = _transactions self
          ++ [{| txn_type := "WITHDRAW"; amount := a;
                 balance_after := PyFloat.sub (__balance self) a; timestamp := now |}])
  /\ (PyFloat.leb a PyFloat.zero = true \/ PyFloat.ltb (__balance self) a = true ->
      withdraw now a self conn = (false, self, conn)).
Proof.
  split.
  - intros Hpos Hle _. unfold withdraw.
    rewrite (ltb_zero_leb a Hpos), (leb_ltb a _ Hle). simpl.
    eexists _, _. split; [reflexivity|]. repeat split.
    intros Hlinked.
    apply (persist_balance_committed (set_balance _ self)). exact Hlinked.
  - intros H. unfold withdraw.
    destruct H as [H|H]; rewrite H; [|rewrite orb_true_r]; reflexivity.
Qed.

Lemma withdraw_spec_witness :
  (exists self' conn',
     withdraw 7%Z (PyFloat.of_Z 200) funded_account funded_conn = (true, self', conn')
     /\ __balance self' = PyFloat.sub (__balance funded_account) (PyFloat.of_Z 200)
     /\ Sql.balance <$> Sql.select (account_number funded_account) (Sql.committed conn')
        = Some (__balance self')
     /\ _transactions self'
        = _transactions funded_account
          ++ [{| txn_type := "WITHDRAW"; amount := PyFloat.of_Z 200;
                 balance_after := PyFloat.sub (__balance funded_account) (PyFloat.of_Z 200);
                 timestamp := 7%Z |}])
  /\ withdraw 7%Z (PyFloat.of_Z 1000) funded_account funded_conn
     = (false, funded_account, funded_conn).
Proof.
  split.
  - destruct (proj1 (withdraw_spec 7%Z (PyFloat.of_Z 200) funded_account funded_conn))
      as (self' & conn' & Hret & Hbal & _ & Hrow & Hlog).
    + vm_compute. reflexivity.
    + vm_compute. reflexivity.
    + vm_compute. reflexivity.
    + exists self', conn'. split; [exact Hret|]. split; [exact Hbal|].
      split; [|exact Hlog]. apply Hrow. vm_compute. eexists. reflexivity.
  - apply (proj2 (withdraw_spec 7%Z (PyFloat.of_Z 1000) funded_account funded_conn)).
    right. vm_compute. reflexivity.
Defined.

(** C8. When [deposit], [withdraw] or [change_pin] returns [False], the
    object (balance, digest, log) and the connection (committed and working
    table) are the ones before the call. *)
Theorem failure_writes_nothing
  (now : datetime) (a : float) (old_pin new_pin : string)
  (self : Account) (conn : Sql.Connection) :
  ((deposit now a self conn).1.1 = false ->
   (deposit now a self conn).1.2 = self /\ (deposit now a self conn).2 = conn)
  /\ ((withdraw now a self conn).1.1 = false ->
      (withdraw now a self conn).1.2 = self /\ (withdraw now a self conn).2 = conn)
  /\ ((change_pin old_pin new_pin self conn).1.1 = false ->
      (change_pin old_pin new_pin self conn).1.2 = self
      /\ (change_pin old_pin new_pin self conn).2 = conn).
Proof.
  unfold deposit, withdraw, change_pin.
  repeat match goal with |- context [if ?c then _ else _] => destruct c end;
    simpl; repeat split; congruence.
Qed.

Lemma failure_writes_nothing_witness :
  ((deposit 7%Z (PyFloat.of_Z 0) funded_account funded_conn).1.2 = funded_account
   /\ (deposit 7%Z (PyFloat.of_Z 0) funded_account funded_conn).2 = funded_conn)
  /\ ((withdraw 7%Z (PyFloat.of_Z 1000) funded_account funded_conn).1.2 = funded_account
      /\ (withdraw 7%Z (PyFloat.of_Z 1000) funded_account funded_conn).2 = funded_conn)
  /\ ((change_pin "0000" "4321" funded_account funded_conn).1.2 = funded_account
      /\ (change_pin "0000" "4321" funded_account funded_conn).2 = funded_conn).
Proof.
  pose proof (failure_writes_nothing 7%Z (PyFloat.of_Z 0) "0000" "4321"
                funded_account funded_conn) as [Hd [_ Hc]].
  pose proof (failure_writes_nothing 7%Z (PyFloat.of_Z 1000) "0000" "4321"
                funded_account funded_conn) as [_ [Hw _]].
  split; [|split].
  - apply Hd. vm_compute. reflexivity.
  - apply Hw. vm_compute. reflexivity.
  - apply Hc. vm_compute. reflexivity.
Defined.

(** C10. [get_balance], [deposit] and [withdraw] keep the digest, in the
    object and in every row; [change_pin] keeps the balance, in the object
    and in every row, and the log; no operation changes the account number
    of the object or the keys of the table. *)
Theorem operations_frame
  (now : datetime) (a : float) (old_pin new_pin : string)
  (self : Account) (conn : Sql.Connection) :
  (__pin_hash (get_balance now self).2 = __pin_hash self
   /\ account_number (get_balance now self).2 = account_number self)
  /\ (__pin_hash (deposit now a self conn).1.2 = __pin_hash self
      /\ account_number (deposit now a self conn).1.2 = account_number self
      /\ map Sql.pin (Sql.working (deposit now a self conn).2) = map Sql.pin (Sql.working conn)
      /\ map Sql.account_number (Sql.working (deposit now a self conn).2)
         = map Sql.account_number (Sql.working conn))
  /\ (__pin_hash (withdraw now a self conn).1.2 = __pin_hash self
      /\ account_number (withdraw now a self conn).1.2 = account_number self
      /\ map Sql.pin (Sql.working (withdraw now a self conn).2) = map Sql.pin (Sql.working conn)
      /\ map Sql.account_number (Sql.working (withdraw now a self conn).2)
         = map Sql.account_number (Sql.working conn))
  /\ (__balance (change_pin old_pin new_pin self conn).1.2 = __balance self
      /\ _transactions (change_pin old_pin new_pin self conn).1.2 = _transactions self
      /\ account_number (change_pin old_pin new_pin self conn).1.2 = account_number self
      /\ map Sql.balance (Sql.working (change_pin old_pin new_pin self conn).2)
         = map Sql.balance (Sql.working conn)
      /\ map Sql.account_number (Sql.working (change_pin old_pin new_pin self conn).2)
         = map Sql.account_number (Sql.working conn))
  /\ get_transactions self = _transactions self.
Proof.
  unfold deposit, withdraw, change_pin, get_balance.
  repeat match goal with |- context [if ?c then _ else _] => destruct c end;
    simpl; repeat split;
    auto using pins_update_balance, keys_update_balance, balances_update_pin, keys_update_pin.
Qed.

(** ** Rounding of floats

    What [SFadd] and [SFsub] return is again a binary64 number, and the
    sign of a rounded number is the sign of the exact one. *)

Section FloatRounding.
Import PyFloat.
Local Open Scope Z_scope.

Lemma digits2_size (p : positive) : digits2_pos p = Pos.size p.
Proof. induction p; simpl; congruence. Qed.

Lemma digits_log2 (m : Z) : 0 < m -> digits m = Z.log2 m + 1.
Proof.
  destruct m as [|p|p]; try lia. intros _. unfold digits. simpl.
  rewrite digits2_size. destruct p; simpl; lia.
Qed.

Lemma digits_0 : digits 0 = 0.
Proof. reflexivity. Qed.

Lemma digits_nonneg (m : Z) : 0 <= digits m.
Proof. destruct m; simpl; lia. Qed.

Lemma digits_pos (m : Z) : 0 < m -> 0 < digits m.
Proof. destruct m; simpl; lia. Qed.

Lemma iter_pos_nat {A} (f : A -> A) (p : positive) (x : A) :
  SpecFloat.iter_pos f p x = Nat.iter (Pos.to_nat p) f x.
Proof.
  revert x. induction p as [p IH|p IH|]; intros x; cbn [SpecFloat.iter_pos].
  - rewrite !IH, Pos2Nat.inj_xI, <- Nat.iter_add, <- Nat.iter_succ_r.
    f_equal. lia.
  - rewrite !IH, Pos2Nat.inj_xO, <- Nat.iter_add. f_equal. lia.
  - reflexivity.
Qed.

Lemma shr_1_m (r : shr_record) : 0 <= shr_m r -> shr_m (shr_1 r) = Z.div2 (shr_m r).
Proof.
  destruct r as [m b s]. simpl. intros H.
  destruct m as [|[p|p|]|p]; try reflexivity; lia.
Qed.

Lemma shr_iter_m (n : nat) (r : shr_record) :
  0 <= shr_m r -> shr_m (Nat.iter n shr_1 r) = shr_m r / 2 ^ Z.of_nat n.
Proof.
  intros H. induction n as [|n IH].
  - simpl. rewrite Z.div_1_r. reflexivity.
  - simpl Nat.iter. rewrite shr_1_m.
    + rewrite IH, Z.div2_div, Z.div_div by lia.
      f_equal. rewrite Nat2Z.inj_succ, Z.pow_succ_r by lia. lia.
    + rewrite IH. apply Z.div_pos; lia.
Qed.

Lemma shr_m_spec (r : shr_record) (e n : Z) :
  0 <= shr_m r ->
  shr_m (fst (shr r e n)) = (if 0 <? n then shr_m r / 2 ^ n else shr_m r)
  /\ snd (shr r e n) = (if 0 <? n then e + n else e).
Proof.
  intros H. destruct n as [|p|p]; simpl; auto.
  rewrite iter_pos_nat, shr_iter_m by exact H.
  rewrite positive_nat_Z. auto.
Qed.

Lemma digits_div (m n : Z) :
  0 <= m -> 0 <= n -> digits (m / 2 ^ n) = Z.max 0 (digits m - n).
Proof.
  intros Hm Hn. destruct (Z.eq_dec m 0) as [->|Hm0].
  { rewrite Z.div_0_l by (apply Z.pow_nonzero; lia). simpl. lia. }
  assert (Hpos : 0 < m) by lia.
  rewrite (digits_log2 m Hpos).
  destruct (Z.eq_dec (m / 2 ^ n) 0) as [Hz|Hnz].
  - rewrite Hz. simpl.
    apply Z.div_small_iff in Hz; [|apply Z.pow_nonzero; lia].
    destruct Hz as [Hz|Hz]; [|pose proof (Z.pow_pos_nonneg 2 n); lia].
    assert (Z.log2 m < n) by (apply Z.log2_lt_pow2; lia). lia.
  - assert (Hq : 0 < m / 2 ^ n).
    { pose proof (Z.div_pos m (2 ^ n) Hm). pose proof (Z.pow_pos_nonneg 2 n). lia. }
    rewrite (digits_log2 _ Hq), <- Z.shiftr_div_pow2, Z.log2_shiftr by lia.
    assert (n <= Z.log2 m).
    { apply Z.log2_le_pow2; [lia|].
      destruct (Z.lt_ge_cases m (2 ^ n)) as [Hlt|Hge]; [|exact Hge].
      rewrite Z.div_small in Hq by lia. lia. }
    lia.
Qed.

Lemma digits_mul (m n : Z) : 0 < m -> 0 <= n -> digits (m * 2 ^ n) = digits m + n.
Proof.
  intros Hm Hn.
  assert (0 < m * 2 ^ n) by (pose proof (Z.pow_pos_nonneg 2 n); nia).
  rewrite !digits_log2, Z.log2_mul_pow2 by lia. lia.
Qed.

Lemma digits_succ (m : Z) :
  0 <= m ->
  digits (m + 1) = digits m \/ (digits (m + 1) = digits m + 1 /\ m + 1 = 2 ^ digits m).
Proof.
  intros Hm. destruct (Z.eq_dec m 0) as [->|Hm0]; [right; split; reflexivity|].
  rewrite !digits_log2 by lia.
  destruct (Z.log2_succ_or m) as [H|H]; unfold Z.succ in H.
  - right. split; [lia|].
    destruct (Z.log2_eq_succ_is_pow2 m H) as [b Hb]. unfold Z.succ in Hb.
    assert (0 <= b).
    { destruct (Z.lt_ge_cases b 0) as [Hneg|]; [|assumption].
      rewrite Z.pow_neg_r in Hb by exact Hneg. lia. }
    rewrite Hb. f_equal. rewrite Hb, Z.log2_pow2 in H by lia. lia.
  - left. lia.
Qed.

Lemma digits_pow2 (n : Z) : 0 <= n -> digits (2 ^ n) = n + 1.
Proof.
  intros Hn. rewrite digits_log2 by (apply Z.pow_pos_nonneg; lia).
  rewrite Z.log2_pow2 by lia. reflexivity.
Qed.

Lemma shl_align_spec (mx : positive) (ex ex' : Z) :
  Zpos (fst (shl_align mx ex ex')) = (if ex' <? ex then Zpos mx * 2 ^ (ex - ex') else Zpos mx)
  /\ snd (shl_align mx ex ex') = (if ex' <? ex then ex' else ex).
Proof.
  unfold shl_align. destruct (ex' - ex) as [|d|d] eqn:Hd.
  - destruct (Z.ltb_spec ex' ex); [lia|]. auto.
  - destruct (Z.ltb_spec ex' ex); [lia|]. auto.
  - destruct (Z.ltb_spec ex' ex); [|lia]. simpl. split; [|reflexivity].
    change (Pos.iter xO mx d) with (shift_pos d mx).
    rewrite shift_pos_correct.
    replace (ex - ex') with (Zpos d) by lia.
    change (Z.pow_pos 2 d) with (2 ^ Zpos d). apply Z.mul_comm.
Qed.

(** ** Rounding gives a canonical float of the sign it is given *)

Lemma round_nearest_even_cases (m : Z) (l : location) :
  round_nearest_even m l = m \/ round_nearest_even m l = m + 1.
Proof.
  destruct l as [|[]]; simpl; auto. destruct (Z.even m); auto.
Qed.

Lemma binary_round_aux_valid (s : bool) (mz : positive) (ez : Z) :
  ez <= fexp64 (digits (Zpos mz) + ez) ->
  valid (binary_round_aux prec emax s (Zpos mz) ez loc_Exact) = true
  /\ has_sign s (binary_round_aux prec emax s (Zpos mz) ez loc_Exact).
Proof.
  intros Hez. unfold binary_round_aux, shr_fexp. change (fexp prec emax) with fexp64.
  set (E := fexp64 (digits (Zpos mz) + ez)) in *.
  change (Zdigits2 (Zpos mz)) with (digits (Zpos mz)). fold E.
  pose proof (shr_m_spec (shr_record_of_loc (Zpos mz) loc_Exact) ez (E - ez)) as Hs1.
  destruct (shr (shr_record_of_loc (Zpos mz) loc_Exact) ez (E - ez)) as [mrs1 e1].
  simpl in Hs1. destruct Hs1 as [Hm1 He1]; [lia|].
  assert (He1' : e1 = E) by (destruct (Z.ltb_spec 0 (E - ez)); lia).
  assert (Hm1' : shr_m mrs1 = Zpos mz / 2 ^ (E - ez)).
  { destruct (Z.ltb_spec 0 (E - ez)); [exact Hm1|].
    replace (E - ez) with 0 by lia. rewrite Z.div_1_r. exact Hm1. }
  clear Hm1 He1. subst e1.
  set (m1 := shr_m mrs1) in *.
  assert (Hm1pos : 0 <= m1).
  { rewrite Hm1'. apply Z.div_pos; [lia|apply Z.pow_pos_nonneg; lia]. }
  assert (Hd1 : digits m1 = Z.max 0 (digits (Zpos mz) - (E - ez))).
  { rewrite Hm1'. apply digits_div; lia. }
  set (m2 := round_nearest_even m1 (loc_of_shr_record mrs1)).
  assert (Hm2 : m2 = m1 \/ m2 = m1 + 1) by apply round_nearest_even_cases.
  assert (Hm2pos : 0 <= m2) by lia.
  change (Zdigits2 m2) with (digits m2).
  pose proof (shr_m_spec (shr_record_of_loc m2 loc_Exact) E (fexp64 (digits m2 + E) - E)) as Hs2.
  destruct (shr (shr_record_of_loc m2 loc_Exact) E (fexp64 (digits m2 + E) - E)) as [mrs2 e2].
  simpl in Hs2. destruct Hs2 as [Hm3 He2]; [exact Hm2pos|].
  set (m3 := shr_m mrs2) in *.
  pose proof (digits_pos (Zpos mz) eq_refl) as HdZ.
  assert (Hcanon : 0 < m3 -> fexp64 (digits m3 + e2) = e2).
  { intros Hm3pos.
    assert (Hd2 : digits m2 = digits m1
                  \/ (digits m2 = digits m1 + 1 /\ m2 = 2 ^ digits m1)).
    { destruct Hm2 as [->| ->]; [left; reflexivity|apply digits_succ, Hm1pos]. }
    pose proof (digits_nonneg m1) as Hdn1.
    destruct (Z.ltb_spec 0 (fexp64 (digits m2 + E) - E)) as [Hshift|Hnoshift].
    - (* one more digit after rounding *)
      assert (Hd3 : digits m3 = Z.max 0 (digits m2 - (fexp64 (digits m2 + E) - E))).
      { rewrite Hm3. apply digits_div; lia. }
      subst e2. subst E. unfold fexp64 in *. clear Hm1' Hm3. clearbody m1 m2 m3. lia.
    - assert (Hd3 : digits m3 = digits m2) by (rewrite Hm3; reflexivity).
      subst e2. subst E. unfold fexp64 in *. clear Hm1' Hm3. clearbody m1 m2 m3.
      destruct Hd2 as [Hd2|[Hd2 _]]; lia. }
  assert (Hm3pos : 0 <= m3).
  { rewrite Hm3. destruct (Z.ltb_spec 0 (fexp64 (digits m2 + E) - E)); [|exact Hm2pos].
    apply Z.div_pos; [exact Hm2pos|apply Z.pow_pos_nonneg; lia]. }
  destruct m3 as [|p|p] eqn:Hp; [split; reflexivity| |lia].
  destruct (Z.leb_spec e2 (emax - prec)) as [Hle|Hgt]; [|split; reflexivity].
  split; [|reflexivity]. simpl. unfold bounded, canonical_mantissa.
  change (fexp prec emax) with fexp64. change (Zpos (digits2_pos p)) with (digits (Zpos p)).
  rewrite Hcanon by lia. rewrite Z.eqb_refl. simpl. apply Z.leb_le. exact Hle.
Qed.

Lemma binary_round_valid (s : bool) (mx : positive) (ex : Z) :
  valid (binary_round prec emax s mx ex) = true
  /\ has_sign s (binary_round prec emax s mx ex).
Proof.
  unfold binary_round. change (fexp prec emax) with fexp64.
  change (Zpos (digits2_pos mx)) with (digits (Zpos mx)).
  pose proof (shl_align_spec mx ex (fexp64 (digits (Zpos mx) + ex))) as [Hm He].
  destruct (shl_align mx ex (fexp64 (digits (Zpos mx) + ex))) as [mz ez].
  cbn [fst snd] in Hm, He. apply binary_round_aux_valid.
  destruct (Z.ltb_spec (fexp64 (digits (Zpos mx) + ex)) ex) as [Hlt|Hge].
  - rewrite Hm, digits_mul by lia. subst ez. unfold fexp64 in *. lia.
  - rewrite Hm. subst ez. exact Hge.
Qed.

Lemma binary_normalize_valid (m e : Z) (szero : bool) :
  valid (binary_normalize prec emax m e szero) = true
  /\ match m with
     | Z0 => binary_normalize prec emax m e szero = S754_zero szero
     | Zpos _ => has_sign false (binary_normalize prec emax m e szero)
     | Zneg _ => has_sign true (binary_normalize prec emax m e szero)
     end.
Proof.
  destruct m as [|p|p]; simpl; [split; reflexivity| |]; apply binary_round_valid.
Qed.

Lemma SFadd_valid (x y : float) :
  valid x = true -> valid y = true ->
  valid (add x y) = true.
Proof.
  intros Hx Hy.
  destruct x as [sx|sx| |sx mx ex], y as [sy|sy| |sy my ey]; simpl; auto;
    try (destruct sx, sy; reflexivity).
  apply binary_normalize_valid.
Qed.

Lemma SFsub_valid (x y : float) :
  valid x = true -> valid y = true ->
  valid (sub x y) = true.
Proof.
  intros Hx Hy.
  destruct x as [sx|sx| |sx mx ex], y as [sy|sy| |sy my ey]; simpl; auto;
    try (destruct sx, sy; reflexivity).
  apply binary_normalize_valid.
Qed.

Lemma nonneg_cases (x : float) :
  nonneg x = true <->
  match x with
  | S754_zero _ => True
  | S754_infinity s | S754_finite s _ _ => s = false
  | S754_nan => False
  end.
Proof.
  destruct x as [s|[]| |[] m e]; unfold nonneg, leb, zero, SFleb; simpl;
    intuition congruence.
Qed.

Lemma has_sign_nonneg (x : float) : has_sign false x -> nonneg x = true.
Proof. intros H. apply nonneg_cases. destruct x; simpl in *; auto. Qed.

Lemma positive_cases (a : float) :
  ltb zero a = true <->
  match a with
  | S754_infinity s | S754_finite s _ _ => s = false
  | _ => False
  end.
Proof.
  destruct a as [s|[]| |[] m e]; unfold ltb, zero, SFltb; simpl;
    intuition congruence.
Qed.

Lemma add_nonneg (b a : float) :
  nonneg b = true -> ltb zero a = true ->
  nonneg (add b a) = true.
Proof.
  intros Hb Ha. apply nonneg_cases in Hb. apply positive_cases in Ha.
  destruct b as [sb|sb| |sb mb eb], a as [sa|sa| |sa ma ea]; try contradiction; subst;
    try reflexivity.
  apply has_sign_nonneg. unfold add, SFadd, cond_Zopp.
  match goal with |- has_sign _ (binary_normalize _ _ ?m ?e ?s) =>
    pose proof (binary_normalize_valid m e s) as [_ H]; simpl in H; exact H end.
Qed.

Lemma digits_bounds (m : Z) : 0 < m -> 2 ^ (digits m - 1) <= m < 2 ^ digits m.
Proof.
  intros Hm. rewrite digits_log2 by exact Hm.
  replace (Z.log2 m + 1 - 1) with (Z.log2 m) by lia.
  apply Z.log2_spec, Hm.
Qed.

Lemma valid_canonical (s : bool) (m : positive) (e : Z) :
  valid (S754_finite s m e) = true ->
  fexp64 (digits (Zpos m) + e) = e.
Proof.
  simpl. unfold bounded, canonical_mantissa. intros H.
  apply andb_true_iff in H as [H _]. apply Z.eqb_eq in H. exact H.
Qed.

(** For canonical floats the order of the exponents and then of the
    mantissas is the order of the values. *)
Lemma aligned_le (ma mb : positive) (ea eb : Z) :
  valid (S754_finite false ma ea) = true ->
  valid (S754_finite false mb eb) = true ->
  SFleb (S754_finite false ma ea) (S754_finite false mb eb) = true ->
  Zpos (fst (shl_align ma ea (Z.min eb ea))) <= Zpos (fst (shl_align mb eb (Z.min eb ea))).
Proof.
  intros Ha Hb Hle. apply valid_canonical in Ha, Hb.
  pose proof (shl_align_spec ma ea (Z.min eb ea)) as [Hma _].
  pose proof (shl_align_spec mb eb (Z.min eb ea)) as [Hmb _].
  rewrite Hma, Hmb. clear Hma Hmb.
  unfold SFleb, SFcompare in Hle.
  destruct (Z.compare_spec ea eb) as [Heq|Hlt|Hgt]; [| |discriminate].
  - subst eb. rewrite Z.min_id, Z.ltb_irrefl.
    change (Pos.compare_cont Eq ma mb) with (Pos.compare ma mb) in Hle.
    destruct (Pos.compare_spec ma mb); [lia|lia|discriminate].
  - rewrite Z.min_r by lia. rewrite Z.ltb_irrefl.
    destruct (Z.ltb_spec ea eb); [|lia].
    pose proof (digits_bounds (Zpos ma) eq_refl) as [_ Hma].
    pose proof (digits_bounds (Zpos mb) eq_refl) as [Hmb _].
    assert (Hda : digits (Zpos ma) <= 53) by (unfold fexp64 in Ha; lia).
    assert (Hdb : digits (Zpos mb) = 53) by (unfold fexp64 in Ha, Hb; lia).
    rewrite Hdb in Hmb.
    assert (Hma' : Zpos ma < 2 ^ 53).
    { eapply Z.lt_le_trans; [exact Hma|]. apply Z.pow_le_mono_r; lia. }
    assert (Hk : 2 ^ 1 <= 2 ^ (eb - ea)) by (apply Z.pow_le_mono_r; lia).
    change (2 ^ 1) with 2 in Hk. change (2 ^ (53 - 1)) with 4503599627370496 in Hmb.
    change (2 ^ 53) with 9007199254740992 in Hma'. nia.
Qed.

Lemma sub_nonneg (b a : float) :
  valid b = true -> valid a = true ->
  nonneg b = true -> ltb zero a = true ->
  a <> S754_infinity false ->
  SFleb a b = true ->
  nonneg (sub b a) = true.
Proof.
  intros Hvb Hva Hb Ha Hfin Hle. apply nonneg_cases in Hb. apply positive_cases in Ha.
  destruct b as [sb|sb| |sb mb eb], a as [sa|sa| |sa ma ea]; try contradiction; subst;
    try reflexivity; try discriminate; try congruence.
  pose proof (aligned_le ma mb ea eb Hva Hvb Hle) as Hal.
  unfold sub, SFsub, cond_Zopp.
  match goal with |- nonneg (binary_normalize _ _ ?m ?e ?s) = true =>
    pose proof (binary_normalize_valid m e s) as [_ H];
    destruct m as [|p|p] eqn:Hm; [rewrite H; reflexivity|apply has_sign_nonneg, H|lia] end.
Qed.

End FloatRounding.

(** ** The balance over a run *)

(** C3. The guard [amount <= 0] of [deposit] is [False] for a NaN: on every
    account a deposit of NaN gets past it and leaves a NaN balance, for
    which [balance >= 0] is [False]; so it does on account 1001 with its
    balance of [0.0], also when the amount comes from the console, where the
    user typed [nan].  The guard of [withdraw] lets [inf] pass on a balance
    of [inf], and [inf - inf] is NaN again. *)
Theorem nan_amount_breaks_nonnegative_balance :
  (forall now self conn,
     __balance (deposit now PyFloat.nan self conn).1.2 = PyFloat.nan)
  /\ PyFloat.leb PyFloat.zero PyFloat.nan = false
  /\ PyFloat.leb PyFloat.zero (__balance sample_account) = true
  /\ PyFloat.leb PyFloat.zero
       (__balance (perform_all [(7%Z, Deposit PyFloat.nan)] sample_account sample_conn).1.2)
     = false
  /\ __balance <$>
       heap ((let* _ := authenticate_user in handle_choice float_of_digits "3")%atm
               (sample_world ["1001"; "1234"; "nan"])).2 !! 0%nat
     = Some PyFloat.nan
  /\ PyFloat.leb PyFloat.zero
       (__balance (perform_all [(7%Z, Deposit PyFloat.inf)] sample_account sample_conn).1.2)
     = true
  /\ PyFloat.leb PyFloat.zero
       (__balance (perform_all [(7%Z, Deposit PyFloat.inf); (8%Z, Withdraw PyFloat.inf)]
                     sample_account sample_conn).1.2)
     = false.
Proof.
  split.
  - intros now self conn. unfold deposit. simpl.
    destruct (__balance self) as [[]|[]| |[] m e]; reflexivity.
  - vm_compute. repeat split.
Qed.

(** With amounts that are finite numbers the guards do what they are meant
    to do: what passes [deposit] is positive, and what passes [withdraw] is
    positive and at most the balance. *)
Lemma deposit_guard_finite (a : float) :
  PyFloat.is_finite a = true -> PyFloat.leb a PyFloat.zero = false ->
  PyFloat.ltb PyFloat.zero a = true /\ a <> S754_infinity false.
Proof.
  destruct a as [s|s| |[] m e]; simpl; try discriminate; intros _ H;
    try (split; [reflexivity|discriminate]); discriminate H.
Qed.

Lemma withdraw_guard_finite (a b : float) :
  PyFloat.nonneg b = true -> PyFloat.is_finite a = true ->
  PyFloat.ltb b a = false -> PyFloat.leb a b = true.
Proof.
  unfold PyFloat.ltb, PyFloat.leb, SFltb, SFleb. intros Hb Ha.
  rewrite (SFcompare_swap b a).
  destruct b as [sb|sb| |sb mb eb]; try discriminate Hb;
    destruct a as [sa|sa| |sa ma ea]; try discriminate Ha;
    match goal with |- context [SFcompare ?x ?y] => destruct (SFcompare x y) as [[]|] eqn:Hc end;
    simpl; try congruence; simpl in Hc; try discriminate Hc.
Qed.

Lemma perform_balance_ok (now : datetime) (o : Op) (self : Account) (conn : Sql.Connection) :
  balance_ok (__balance self) -> finite_amount o ->
  balance_ok (__balance (perform now o self conn).1.2).
Proof.
  intros [Hvalid Hpos] Hfin. destruct o as [|a|a|old_pin new_pin|]; simpl.
  - split; assumption.
  - destruct Hfin as [Hva Hfa]. unfold deposit.
    destruct (PyFloat.leb a PyFloat.zero) eqn:Hguard; simpl; [split; assumption|].
    destruct (deposit_guard_finite a Hfa Hguard) as [Ha _]. split.
    + apply SFadd_valid; assumption.
    + apply add_nonneg; assumption.
  - destruct Hfin as [Hva Hfa]. unfold withdraw.
    destruct (PyFloat.leb a PyFloat.zero) eqn:Hguard; simpl; [split; assumption|].
    destruct (PyFloat.ltb (__balance self) a) eqn:Hfunds; simpl; [split; assumption|].
    destruct (deposit_guard_finite a Hfa Hguard) as [Ha Hinf]. split.
    + apply SFsub_valid; assumption.
    + apply sub_nonneg; try assumption.
      apply withdraw_guard_finite; assumption.
  - unfold change_pin.
    destruct (negb (_check_pin self old_pin)); [split; assumption|].
    destruct (String.length new_pin <? 4)%nat; split; assumption.
  - split; assumption.
Qed.

(** The part of C3 that the code keeps: from a balance that is a number
    with [0 <= balance], after every operation of a run whose amounts are
    finite numbers the balance is again a number with [0 <= balance]. *)
Theorem finite_amounts_keep_balance_nonnegative
  (ops : list (datetime * Op)) (self : Account) (conn : Sql.Connection) :
  balance_ok (__balance self) ->
  Forall (fun p => finite_amount p.2) ops ->
  Forall balance_ok (balances ops self conn).
Proof.
  revert self conn. induction ops as [|[now o] ops IH]; intros self conn Hb Hops.
  - constructor.
  - inversion Hops as [|? ? Ho Hops']; subst. cbn [balances].
    pose proof (perform_balance_ok now o self conn Hb Ho) as Hstep.
    destruct (perform now o self conn) as [[v self1] conn1]. cbn [fst snd] in Hstep.
    constructor; [exact Hstep|]. apply IH; assumption.
Qed.

Lemma finite_amounts_run :
  Forall balance_ok
    (balances [(7%Z, Deposit (PyFloat.of_Z 500)); (8%Z, Withdraw (PyFloat.of_Z 200));
               (9%Z, Withdraw (PyFloat.of_Z 1000)); (9%Z, GetBalance)]
       sample_account sample_conn).
Proof.
  apply finite_amounts_keep_balance_nonnegative.
  - split; reflexivity.
  - repeat constructor.
Defined.

(** ** The session log *)






(** ** PIN rotation *)

(** C5, counterexample: a change from ["1234"] to ["1234"] succeeds, and the
    old PIN still passes the check. *)
Lemma change_pin_same_pin_still_accepted :
  (change_pin "1234" "1234" sample_account sample_conn).1.1 = true
  /\ _check_pin (change_pin "1234" "1234" sample_account sample_conn).1.2 "1234" <> false.
Proof. vm_compute. split; [reflexivity|discriminate]. Qed.

(** C5, amended. [change_pin] returns [True] exactly when the old PIN passes
    the check and the new one has at least 4 characters; after it returned
    [True] the new PIN passes the check, and the old PIN passes it exactly
    when its digest is the digest of the new one, so it fails whenever the
    two digests differ. *)
Theorem change_pin_spec (old_pin new_pin : string) (self : Account) (conn : Sql.Connection) :
  ((change_pin old_pin new_pin self conn).1.1 = true
   <-> _check_pin self old_pin = true /\ 4 <= String.length new_pin)
  /\ ((change_pin old_pin new_pin self conn).1.1 = true ->
      _check_pin (change_pin old_pin new_pin self conn).1.2 new_pin = true
      /\ (hash_pin old_pin <> hash_pin new_pin ->
          _check_pin (change_pin old_pin new_pin self conn).1.2 old_pin = false)
      /\ (hash_pin old_pin = hash_pin new_pin ->
          _check_pin (change_pin old_pin new_pin self conn).1.2 old_pin = true)).
Proof.
  unfold change_pin.
  destruct (_check_pin self old_pin) eqn:Hold; simpl.
  - destruct (Nat.ltb_spec (String.length new_pin) 4) as [Hlen|Hlen]; simpl.
    + split; [split; [discriminate|intros [_ H]; lia]|discriminate].
    + split; [split; [intros _; split; [reflexivity|exact Hlen]|reflexivity]|].
      intros _. unfold _check_pin; simpl. rewrite String.eqb_refl.
      split; [reflexivity|]. split.
      * intros Hne. apply String.eqb_neq. congruence.
      * intros Heq. apply String.eqb_eq. congruence.
  - split; [split; [discriminate|intros [H _]; discriminate]|discriminate].
Qed.

Lemma change_pin_spec_witness :
  _check_pin (change_pin "1234" "4321" sample_account sample_conn).1.2 "4321" = true
  /\ _check_pin (change_pin "1234" "4321" sample_account sample_conn).1.2 "1234" = false.
Proof.
  pose proof (change_pin_spec "1234" "4321" sample_account sample_conn) as [Hiff Hafter].
  assert (Hok : (change_pin "1234" "4321" sample_account sample_conn).1.1 = true).
  { apply Hiff. split; [vm_compute; reflexivity|simpl; lia]. }
  destruct (Hafter Hok) as [Hnew [Hold _]].
  split; [exact Hnew|]. apply Hold. vm_compute. discriminate.
Defined.

(** ** Insertion *)

Section Insertion.
Import Sql.

Lemma select_app (k : string) (t : table) (r : Row) :
  select k (t ++ [r])
  = match select k t with
    | Some r0 => Some r0
    | None => if String.eqb (account_number r) k then Some r else None
    end.
Proof.
  unfold select. induction t as [|r0 t IH]; simpl; [reflexivity|].
  destruct (String.eqb (account_number r0) k); [reflexivity|exact IH].
Qed.

Lemma select_None (k : string) (t : table) :
  select k t = None <-> ~ In k (map account_number t).
Proof.
  unfold select. induction t as [|r t IH]; simpl; [tauto|].
  destruct (String.eqb_spec (account_number r) k) as [Heq|Hne].
  - split; [discriminate|]. intros H. exfalso. apply H. left. exact Heq.
  - rewrite IH. tauto.
Qed.

Lemma insert_or_ignore_keeps (k : string) (t : table) (r r0 : Row) :
  select k t = Some r0 -> select k (insert_or_ignore t r) = Some r0.
Proof.
  intros H. unfold insert_or_ignore.
  destruct (select (account_number r) t); [exact H|].
  rewrite select_app, H. reflexivity.
Qed.



Lemma insert_or_ignore_NoDup (t : table) (r : Row) :
  List.NoDup (map account_number t) ->
  List.NoDup (map account_number (insert_or_ignore t r)).
Proof.
  intros Hnd. unfold insert_or_ignore.
  destruct (select (account_number r) t) eqn:Hsel; [exact Hnd|].
  rewrite map_app. simpl. apply select_None in Hsel.
  apply NoDup_ListNoDup, NoDup_app. apply NoDup_ListNoDup in Hnd.
  split; [exact Hnd|]. split; [|apply NoDup_singleton].
  intros k Hk Hk'. apply list_elem_of_In in Hk. apply list_elem_of_singleton in Hk'.
  subst k. exact (Hsel Hk).
Qed.

Lemma fold_insert_keeps (k : string) (rows : list Row) (t : table) (r0 : Row) :
  select k t = Some r0 -> select k (fold_left insert_or_ignore rows t) = Some r0.
Proof.
  revert t. induction rows as [|r rows IH]; intros t H; simpl; [exact H|].
  apply IH, insert_or_ignore_keeps, H.
Qed.


Lemma fold_insert_NoDup (rows : list Row) (t : table) :
  List.NoDup (map account_number t) ->
  List.NoDup (map account_number (fold_left insert_or_ignore rows t)).
Proof.
  revert t. induction rows as [|r rows IH]; intros t H; simpl; [exact H|].
  apply IH, insert_or_ignore_NoDup, H.
Qed.



End Insertion.


Lemma init_db_unfold (db : option Sql.Connection) :
  init_db db
  = {| Sql.committed :=
         fold_left Sql.insert_or_ignore samples
           (Sql.working (Sql.create_table_if_not_exists db));
       Sql.working :=
         fold_left Sql.insert_or_ignore samples
           (Sql.working (Sql.create_table_if_not_exists db)) |}.
Proof. reflexivity. Qed.




(** ** Account creation *)

Lemma insert_account_to_db_present (c : Sql.Connection) (k pin : string) :
  is_Some (Sql.select k (Sql.working c)) -> insert_account_to_db c k pin = (false, c).
Proof.
  intros [r Hr]. unfold insert_account_to_db, Sql.insert. simpl. rewrite Hr. reflexivity.
Qed.

(** C6. With an account number that has a row in the table,
    [insert_account_to_db] returns [False] and leaves the connection as it
    was, and [create_account] leaves the connection (so every row, with its
    balance and digest), the heap and the [accounts] dictionary as they
    were, and does not report a creation. *)
Theorem create_account_existing (w : World) (line pin : string) (rest : list string) :
  stdin w = line :: rest ->
  is_Some (Sql.select (strip line) (Sql.working (conn w))) ->
  insert_account_to_db (conn w) (strip line) pin = (false, conn w)
  /\ conn (create_account w).2 = conn w
  /\ heap (create_account w).2 = heap w
  /\ accounts (create_account w).2 = accounts w
  /\ current_account (create_account w).2 = current_account w
  /\ exists outs, stdout (create_account w).2 = stdout w ++ outs
                  /\ ~ In (Line "Account created. Initial balance: ₹0.") outs.
Proof.
  intros Hin Hsel. split; [apply insert_account_to_db_present, Hsel|].
  unfold create_account, bind, input, print, modify, gets. simpl. rewrite Hin.
  destruct (String.eqb (strip line) "") eqn:Hempty; simpl.
  { repeat split. eexists. rewrite <- app_assoc. split; [reflexivity|].
    simpl. intros [H|[H|[]]]; discriminate H. }
  destruct (accounts w !! strip line) eqn:Hacc; simpl.
  { repeat split. eexists. rewrite <- app_assoc. split; [reflexivity|].
    simpl. intros [H|[H|[]]]; discriminate H. }
  destruct rest as [|pin' rest']; simpl.
  { repeat split. eexists. rewrite <- app_assoc. split; [reflexivity|].
    simpl. intros [H|[H|[]]]; discriminate H. }
  destruct (String.length (strip pin') <? 4)%nat; simpl.
  { repeat split. eexists. rewrite <- !app_assoc. split; [reflexivity|].
    simpl. intros [H|[H|[H|[]]]]; discriminate H. }
  rewrite (insert_account_to_db_present _ _ (strip pin') Hsel). simpl.
  repeat split. eexists. rewrite <- !app_assoc. split; [reflexivity|].
  simpl. intros [H|[H|[H|[]]]]; discriminate H.
Qed.

Lemma create_account_existing_witness :
  conn (create_account (sample_world ["1001"; "9999"])).2 = conn (sample_world ["1001"; "9999"])
  /\ accounts (create_account (sample_world ["1001"; "9999"])).2
     = accounts (sample_world ["1001"; "9999"]).
Proof.
  pose proof (create_account_existing (sample_world ["1001"; "9999"]) "1001" "9999" ["9999"])
    as H.
  destruct H as [_ [Hconn [_ [Hacc _]]]].
  - vm_compute. reflexivity.
  - vm_compute. eexists. reflexivity.
  - split; [exact Hconn|exact Hacc].
Defined.

(** ** Logout and the log *)







(** ** Consistency of the reachable states *)

Lemma method_ok_deposit (now : datetime) (a : float) : method_ok (deposit now a).
Proof.
  intros self c r Hsync Hsel [Hk [Hp Hb]]. unfold deposit.
  destruct (PyFloat.leb a PyFloat.zero); simpl.
  - repeat split; [exact Hsync|]. exists (fun x => x).
    repeat split; auto. symmetry. apply map_id.
  - repeat split. eexists. split; [|split; [|split; [reflexivity|]]].
    + intros x. simpl. destruct (String.eqb _ _); reflexivity.
    + intros x Hx. simpl. apply String.eqb_neq in Hx. rewrite Hx. reflexivity.
    + simpl. rewrite Hk, String.eqb_refl. repeat split; simpl; assumption.
Qed.

Lemma method_ok_withdraw (now : datetime) (a : float) : method_ok (withdraw now a).
Proof.
  intros self c r Hsync Hsel [Hk [Hp Hb]]. unfold withdraw.
  destruct (PyFloat.leb a PyFloat.zero || PyFloat.ltb (__balance self) a); simpl.
  - repeat split; [exact Hsync|]. exists (fun x => x).
    repeat split; auto. symmetry. apply map_id.
  - repeat split. eexists. split; [|split; [|split; [reflexivity|]]].
    + intros x. simpl. destruct (String.eqb _ _); reflexivity.
    + intros x Hx. simpl. apply String.eqb_neq in Hx. rewrite Hx. reflexivity.
    + simpl. rewrite Hk, String.eqb_refl. repeat split; simpl; assumption.
Qed.

Lemma method_ok_change_pin (old_pin new_pin : string) :
  method_ok (change_pin old_pin new_pin).
Proof.
  intros self c r Hsync Hsel [Hk [Hp Hb]]. unfold change_pin.
  destruct (negb (_check_pin self old_pin)); simpl;
    [|destruct (String.length new_pin <? 4)%nat; simpl].
  1, 2: repeat split; [exact Hsync|]; exists (fun x => x);
        repeat split; auto; symmetry; apply map_id.
  repeat split. eexists. split; [|split; [|split; [reflexivity|]]].
  - intros x. simpl. destruct (String.eqb _ _); reflexivity.
  - intros x Hx. simpl. apply String.eqb_neq in Hx. rewrite Hx. reflexivity.
  - simpl. rewrite Hk, String.eqb_refl. repeat split; simpl; assumption.
Qed.

Lemma method_ok_get_balance (now : datetime) :
  method_ok (fun self c => let '(b, self') := get_balance now self in (b, self', c)).
Proof.
  intros self c r Hsync Hsel [Hk [Hp Hb]]. simpl.
  repeat split; [exact Hsync|]. exists (fun x => x).
  repeat split; auto. symmetry. apply map_id.
Qed.

Lemma method_ok_get_transactions :
  method_ok (fun self c => (get_transactions self, self, c)).
Proof.
  intros self c r Hsync Hsel [Hk [Hp Hb]]. simpl.
  repeat split; [exact Hsync|]. exists (fun x => x).
  repeat split; auto. symmetry. apply map_id.
Qed.

Lemma consistent_core (w w' : World) :
  conn w' = conn w -> heap w' = heap w -> accounts w' = accounts w ->
  current_account w' = current_account w ->
  consistent w -> consistent w'.
Proof.
  unfold consistent. intros -> -> -> ->. tauto.
Qed.

Lemma preserves_ret {A} (a : A) : preserves (ret a).
Proof. intros w H. exact H. Qed.

Lemma preserves_bind {A B} (c : M A) (k : A -> M B) :
  preserves c -> (forall a, preserves (k a)) -> preserves (bind c k).
Proof.
  intros Hc Hk w Hw. unfold bind. specialize (Hc w Hw).
  destruct (c w) as [[a|e] w']; simpl in *; [apply Hk, Hc|exact Hc].
Qed.

Lemma preserves_gets {A} (f : World -> A) : preserves (gets f).
Proof. intros w H. exact H. Qed.

Lemma preserves_print (o : Output) : preserves (print o).
Proof. intros w H. exact (consistent_core w _ eq_refl eq_refl eq_refl eq_refl H). Qed.

Lemma preserves_input (p : string) : preserves (input p).
Proof.
  intros w H. unfold input. simpl.
  destruct (stdin w); exact (consistent_core w _ eq_refl eq_refl eq_refl eq_refl H).
Qed.

Lemma preserves_logout : preserves (modify (set_current_account None)).
Proof.
  intros w (Hsync & Hacc & Hcur). repeat split; [exact Hsync|exact Hacc|].
  simpl. discriminate.
Qed.

Lemma preserves_call_current {A}
  (method : Account -> Sql.Connection -> A * Account * Sql.Connection) :
  method_ok method -> preserves (call_current method).
Proof.
  intros Hm w Hw. unfold call_current.
  destruct (current_account w) as [l|] eqn:Hcur; [|exact Hw].
  destruct Hw as (Hsync & Hacc & Hbound).
  destruct (Hbound l Hcur) as [k Hk].
  destruct (Hacc k l Hk) as (self & r & Hheap & Hkey & Hsel & Hmir).
  unfold call. rewrite Hheap.
  subst k. specialize (Hm self (conn w) r Hsync Hsel Hmir).
  destruct (method self (conn w)) as [[res self'] conn'] eqn:Hcall. simpl in Hm |- *.
  destruct Hm as (Hkey' & Hsync' & g & Hgkey & Hgother & Hwork & Hmir').
  repeat split; simpl.
  - exact Hsync'.
  - intros k' l' Hk'. destruct (decide (l' = l)) as [->|Hne].
    + destruct (Hacc k' l Hk') as (self0 & r0 & Hheap0 & Hkey0 & Hsel0 & _).
      rewrite Hheap in Hheap0. injection Hheap0 as <-. subst k'.
      exists self', (g r). rewrite lookup_insert_eq. repeat split; try apply Hmir'.
      * exact Hkey'.
      * rewrite Hwork, select_map, Hsel; [reflexivity|exact Hgkey].
    + destruct (Hacc k' l' Hk') as (self0 & r0 & Hheap0 & Hkey0 & Hsel0 & Hmir0).
      exists self0, r0. rewrite lookup_insert_ne by congruence.
      repeat split; try apply Hmir0; try assumption.
      rewrite Hwork, select_map, Hsel0 by exact Hgkey. simpl. f_equal.
      apply Hgother. rewrite (select_key _ _ _ Hsel0).
      intros ->. rewrite Hk in Hk'. congruence.
  - exact Hbound.
Qed.

Lemma preserves_print_transactions (txns : list Transaction) :
  preserves (print_transactions txns).
Proof.
  induction txns as [|t txns IH]; simpl; [apply preserves_ret|].
  apply preserves_bind; [apply preserves_print|intros _; exact IH].
Qed.

Ltac preserves_step :=
  first
    [ apply preserves_ret | apply preserves_print | apply preserves_input
    | apply preserves_gets | apply preserves_logout | apply preserves_print_transactions
    | apply preserves_call_current;
      first [ apply method_ok_deposit | apply method_ok_withdraw | apply method_ok_change_pin
            | apply method_ok_get_balance | apply method_ok_get_transactions ]
    | apply preserves_bind; [|intros ?]
    | match goal with
      | |- preserves (if ?c then _ else _) => destruct c
      | |- preserves (match ?x with _ => _ end) => destruct x
      end ].

Lemma preserves_handle_choice (float_of_str : string -> option float) (choice : string) :
  preserves (handle_choice float_of_str choice).
Proof. unfold handle_choice. repeat preserves_step. Qed.

Lemma preserves_authenticate_user : preserves authenticate_user.
Proof.
  intros w Hw. unfold authenticate_user, bind, input, print, modify, gets, ret. simpl.
  destruct (stdin w) as [|acc_no [|pin rest]]; simpl;
    try exact (consistent_core w _ eq_refl eq_refl eq_refl eq_refl Hw).
  destruct (accounts w !! strip acc_no) as [l|] eqn:Hacc; simpl;
    try exact (consistent_core w _ eq_refl eq_refl eq_refl eq_refl Hw).
  destruct (heap w !! l) as [self|]; simpl;
    try exact (consistent_core w _ eq_refl eq_refl eq_refl eq_refl Hw).
  destruct (_check_pin self (strip pin)); simpl;
    try exact (consistent_core w _ eq_refl eq_refl eq_refl eq_refl Hw).
  destruct Hw as (Hsync & Haccs & Hbound).
  repeat split; [exact Hsync|exact Haccs|].
  simpl. intros l' [= <-]. exists (strip acc_no). exact Hacc.
Qed.

Lemma fresh_lookup (h : gmap loc Account) : h !! fresh (dom h) = None.
Proof. apply not_elem_of_dom. apply is_fresh. Qed.

Lemma preserves_create_account : preserves create_account.
Proof.
  intros w Hw. unfold create_account, bind, input, print, modify, gets, new. simpl.
  destruct (stdin w) as [|line rest]; simpl;
    try exact (consistent_core w _ eq_refl eq_refl eq_refl eq_refl Hw).
  destruct (String.eqb (strip line) ""); simpl;
    try exact (consistent_core w _ eq_refl eq_refl eq_refl eq_refl Hw).
  destruct (accounts w !! strip line) eqn:Hnew; simpl;
    try exact (consistent_core w _ eq_refl eq_refl eq_refl eq_refl Hw).
  destruct rest as [|pin rest]; simpl;
    try exact (consistent_core w _ eq_refl eq_refl eq_refl eq_refl Hw).
  destruct (String.length (strip pin) <? 4)%nat; simpl;
    try exact (consistent_core w _ eq_refl eq_refl eq_refl eq_refl Hw).
  unfold insert_account_to_db, Sql.insert. simpl.
  destruct (Sql.select (strip line) (Sql.working (conn w))) eqn:Hsel; simpl;
    try exact (consistent_core w _ eq_refl eq_refl eq_refl eq_refl Hw).
  destruct Hw as (Hsync & Haccs & Hbound).
  repeat split; simpl.
  - intros k l Hk. destruct (decide (k = strip line)) as [->|Hne].
    + rewrite lookup_insert_eq in Hk. injection Hk as <-.
      eexists _, _. rewrite lookup_insert_eq. split; [reflexivity|].
      split; [reflexivity|]. split.
      * rewrite select_app, Hsel. simpl. rewrite String.eqb_refl. reflexivity.
      * repeat split.
    + rewrite lookup_insert_ne in Hk by congruence.
      destruct (Haccs k l Hk) as (self & r & Hheap & Hkey & Hselk & Hmir).
      exists self, r. split.
      * rewrite lookup_insert_ne; [exact Hheap|].
        intros Heq. rewrite <- Heq, fresh_lookup in Hheap. discriminate.
      * split; [exact Hkey|]. split; [|exact Hmir].
        rewrite select_app, Hselk. reflexivity.
  - intros l Hl. destruct (Hbound l Hl) as [k Hk]. exists k.
    rewrite lookup_insert_ne; [exact Hk|]. intros <-. congruence.
Qed.

Lemma select_first (t : Sql.table) (r : Sql.Row) :
  List.NoDup (map Sql.account_number t) -> In r t ->
  Sql.select (Sql.account_number r) t = Some r.
Proof.
  unfold Sql.select. induction t as [|r0 t IH]; intros Hnd Hin; [destruct Hin|].
  simpl in *. inversion Hnd as [|? ? Hnotin Hnd']; subst.
  destruct Hin as [->|Hin]; [rewrite String.eqb_refl; reflexivity|].
  destruct (String.eqb_spec (Sql.account_number r0) (Sql.account_number r)) as [Heq|_].
  - exfalso. apply Hnotin. rewrite Heq. apply in_map, Hin.
  - apply IH; assumption.
Qed.

(** [load_rows] returns; it keeps the connection and the objects that were
    there, gives every row its entry and its object, and leaves the other
    entries. *)
Lemma load_rows_spec (rows : list Sql.Row) (w : World) :
  List.NoDup (map Sql.account_number rows) ->
  (load_rows rows w).1 = Return tt
  /\ conn (load_rows rows w).2 = conn w
  /\ current_account (load_rows rows w).2 = current_account w
  /\ (forall l x, heap w !! l = Some x -> heap (load_rows rows w).2 !! l = Some x)
  /\ (forall k, ~ In k (map Sql.account_number rows) ->
        accounts (load_rows rows w).2 !! k = accounts w !! k)
  /\ (forall r, In r rows ->
        exists l, accounts (load_rows rows w).2 !! Sql.account_number r = Some l
                  /\ heap (load_rows rows w).2 !! l
                     = Some (SavingsAccount (Sql.account_number r) (Sql.pin r) (Sql.balance r))).
Proof.
  revert w. induction rows as [|r rows IH]; intros w Hnd.
  - simpl. repeat split; auto. intros r [].
  - inversion Hnd as [|? ? Hnotin Hnd']; subst.
    cbn [load_rows]. unfold bind at 1. unfold load_account, bind, new, modify. cbn [fst snd].
    set (l0 := fresh (dom (heap w))).
    set (w1 := set_accounts _ _).
    destruct (IH w1 Hnd') as (Hret & Hconn & Hcur & Hheap & Hothers & Hrows).
    destruct (load_rows rows w1) as [res w2]. cbn [fst snd] in *.
    split; [exact Hret|]. split; [exact Hconn|]. split; [exact Hcur|]. split; [|split].
    + intros l x Hl. apply Hheap. subst w1. simpl.
      rewrite lookup_insert_ne; [exact Hl|].
      intros Heq. subst l0. rewrite <- Heq, fresh_lookup in Hl. discriminate.
    + intros k Hk. simpl in Hk. rewrite Hothers by tauto. subst w1. simpl.
      apply lookup_insert_ne. tauto.
    + intros r' [<-|Hin].
      * exists l0. rewrite Hothers by exact Hnotin. split.
        -- subst w1. simpl. apply lookup_insert_eq.
        -- apply Hheap. subst w1. simpl. apply lookup_insert_eq.
      * apply Hrows, Hin.
Qed.

Lemma consistent_ATM_init (db : option Sql.Connection) (i : list string) (t : datetime) :
  table_ok db -> consistent (ATM_init db i t).
Proof.
  intros Hok. unfold ATM_init, load_all_accounts.
  unfold bind at 1. unfold bind at 1. unfold modify at 1. cbn [fst snd].
  unfold bind at 1. unfold gets. cbn [fst snd].
  match goal with |- context [load_rows ?rows ?w] =>
    set (rows0 := rows); set (w0 := w) end.
  assert (Hnd : List.NoDup (map Sql.account_number rows0)).
  { subst rows0 w0. cbn [conn set_accounts]. rewrite init_db_unfold. cbn [Sql.working].
    apply fold_insert_NoDup. destruct db as [c|]; [exact Hok|constructor]. }
  destruct (load_rows_spec rows0 w0 Hnd) as (Hret & Hconn & Hcur & Hheap & Hothers & Hrows).
  destruct (load_rows rows0 w0) as [res w1]. cbn [fst snd] in *. subst res.
  unfold modify. cbn [snd]. repeat split.
  - simpl. rewrite Hconn. reflexivity.
  - simpl. intros k l Hk.
    destruct (in_dec string_dec k (map Sql.account_number rows0)) as [Hin|Hout].
    + apply in_map_iff in Hin as (r & <- & Hin).
      destruct (Hrows r Hin) as (l' & Hl' & Hobj). rewrite Hk in Hl'. injection Hl' as <-.
      eexists _, r. split; [exact Hobj|]. split; [reflexivity|]. split.
      * rewrite Hconn. apply select_first; assumption.
      * repeat split.
    + rewrite (Hothers k Hout) in Hk. subst w0. simpl in Hk.
      rewrite lookup_empty in Hk. discriminate.
  - simpl. discriminate.
Qed.

(** Every state of the process is consistent. *)
Theorem reachable_consistent (float_of_str : string -> option float) (w : World) :
  reachable float_of_str w -> consistent w.
Proof.
  induction 1 as [db i t Hok|w _ IH|w _ IH|w choice _ IH|w i t _ IH].
  - apply consistent_ATM_init, Hok.
  - apply preserves_create_account, IH.
  - apply preserves_authenticate_user, IH.
  - apply preserves_handle_choice, IH.
  - exact (consistent_core w _ eq_refl eq_refl eq_refl eq_refl IH).
Qed.

(** The account that the session is bound to has its row, and its balance
    and digest are the committed ones. *)
Corollary current_account_linked (float_of_str : string -> option float) (w : World) (l : loc) :
  reachable float_of_str w -> current_account w = Some l ->
  exists self r,
    heap w !! l = Some self /\ linked self (conn w)
    /\ Sql.select (account_number self) (Sql.committed (conn w)) = Some r
    /\ Sql.balance r = __balance self /\ Sql.pin r = __pin_hash self.
Proof.
  intros Hreach Hcur. destruct (reachable_consistent _ _ Hreach) as (Hsync & Hacc & Hbound).
  destruct (Hbound l Hcur) as [k Hk].
  destruct (Hacc k l Hk) as (self & r & Hheap & <- & Hsel & _ & Hp & Hb).
  exists self, r. split; [exact Hheap|]. split; [exists r; exact Hsel|].
  rewrite Hsync. auto.
Qed.

(** * Further properties of the code *)

(** ** Writes of the ledger *)

Lemma update_balance_absent (b : float) (k : string) (t : Sql.table) :
  Sql.select k t = None -> Sql.update_balance b k t = t.
Proof.
  intros Hnone. apply select_None in Hnone. unfold Sql.update_balance.
  induction t as [|r t IH]; [reflexivity|]. simpl in *.
  destruct (String.eqb_spec (Sql.account_number r) k) as [Heq|Hne]; [tauto|].
  f_equal. apply IH. tauto.
Qed.

Lemma update_pin_absent (p : string) (k : string) (t : Sql.table) :
  Sql.select k t = None -> Sql.update_pin p k t = t.
Proof.
  intros Hnone. apply select_None in Hnone. unfold Sql.update_pin.
  induction t as [|r t IH]; [reflexivity|]. simpl in *.
  destruct (String.eqb_spec (Sql.account_number r) k) as [Heq|Hne]; [tauto|].
  f_equal. apply IH. tauto.
Qed.

Lemma select_update_balance_other (b : float) (k k' : string) (t : Sql.table) :
  k' <> k -> Sql.select k' (Sql.update_balance b k t) = Sql.select k' t.
Proof.
  intros Hne. rewrite select_update_balance.
  destruct (Sql.select k' t) as [r|] eqn:Hsel; [|reflexivity]. simpl.
  rewrite (select_key _ _ _ Hsel). apply String.eqb_neq in Hne. rewrite Hne. reflexivity.
Qed.

Lemma select_update_pin_other (p : string) (k k' : string) (t : Sql.table) :
  k' <> k -> Sql.select k' (Sql.update_pin p k t) = Sql.select k' t.
Proof.
  intros Hne. rewrite select_update_pin.
  destruct (Sql.select k' t) as [r|] eqn:Hsel; [|reflexivity]. simpl.
  rewrite (select_key _ _ _ Hsel). apply String.eqb_neq in Hne. rewrite Hne. reflexivity.
Qed.

(** An operation on one account leaves the row of every other account
    number as it is, in the table of the connection and, when nothing was
    left uncommitted before, in the committed table. *)
Theorem ledger_writes_own_row_only
  (now : datetime) (o : Op) (self : Account) (conn : Sql.Connection) (k : string) :
  k <> account_number self ->
  Sql.select k (Sql.working (perform now o self conn).2) = Sql.select k (Sql.working conn)
  /\ (Sql.committed conn = Sql.working conn ->
      Sql.select k (Sql.committed (perform now o self conn).2)
      = Sql.select k (Sql.committed conn)).
Proof.
  intros Hne. destruct o as [|a|a|old_pin new_pin|]; simpl;
    unfold deposit, withdraw, change_pin;
    repeat match goal with |- context [if ?c then _ else _] => destruct c end;
    simpl; split; try reflexivity; try (intros ->);
    auto using select_update_balance_other, select_update_pin_other.
Qed.

Lemma ledger_writes_own_row_only_witness :
  Sql.select "1002" (Sql.working (perform 7%Z (Deposit (PyFloat.of_Z 500))
                                    sample_account sample_conn).2)
  = Sql.select "1002" (Sql.working sample_conn).
Proof.
  destruct (ledger_writes_own_row_only 7%Z (Deposit (PyFloat.of_Z 500))
              sample_account sample_conn "1002") as [Hwork _].
  - vm_compute. discriminate.
  - exact Hwork.
Defined.

(** The statement of [_persist_balance] names no row when the account has
    none: a deposit of [a > 0] on such an account returns [True] and changes
    the balance of the object, and the table stays as it was. *)
Theorem deposit_without_row
  (now : datetime) (a : float) (self : Account) (conn : Sql.Connection) :
  Sql.select (account_number self) (Sql.working conn) = None ->
  PyFloat.ltb PyFloat.zero a = true ->
  (deposit now a self conn).1.1 = true
  /\ __balance (deposit now a self conn).1.2 = PyFloat.add (__balance self) a
  /\ Sql.working (deposit now a self conn).2 = Sql.working conn
  /\ Sql.committed (deposit now a self conn).2 = Sql.working conn.
Proof.
  intros Hnone Hpos. unfold deposit. rewrite (ltb_zero_leb a Hpos). simpl.
  rewrite (update_balance_absent _ _ _ Hnone). repeat split.
Qed.

Lemma deposit_without_row_witness :
  (deposit 7%Z (PyFloat.of_Z 500) (SavingsAccount "4004" (hash_pin "4444") PyFloat.zero)
     sample_conn).1.1 = true
  /\ Sql.working (deposit 7%Z (PyFloat.of_Z 500)
                    (SavingsAccount "4004" (hash_pin "4444") PyFloat.zero) sample_conn).2
     = Sql.working sample_conn.
Proof.
  destruct (deposit_without_row 7%Z (PyFloat.of_Z 500)
              (SavingsAccount "4004" (hash_pin "4444") PyFloat.zero) sample_conn)
    as (Hret & _ & Hwork & _).
  - vm_compute. reflexivity.
  - vm_compute. reflexivity.
  - split; [exact Hret|exact Hwork].
Defined.

(** After [change_pin] returned [True] on an account that has its row, the
    committed row carries the digest of the new PIN and the balance it
    had, and nothing is left uncommitted. *)
Theorem change_pin_persists
  (old_pin new_pin : string) (self : Account) (conn : Sql.Connection) :
  (change_pin old_pin new_pin self conn).1.1 = true ->
  linked self conn ->
  Sql.pin <$> Sql.select (account_number self)
                (Sql.committed (change_pin old_pin new_pin self conn).2)
  = Some (hash_pin new_pin)
  /\ Sql.balance <$> Sql.select (account_number self)
                       (Sql.committed (change_pin old_pin new_pin self conn).2)
     = Sql.balance <$> Sql.select (account_number self) (Sql.working conn)
  /\ Sql.committed (change_pin old_pin new_pin self conn).2
     = Sql.working (change_pin old_pin new_pin self conn).2.
Proof.
  unfold change_pin. intros Hret Hlinked.
  destruct (negb (_check_pin self old_pin)); [discriminate Hret|].
  destruct (String.length new_pin <? 4)%nat; [discriminate Hret|]. simpl.
  split; [|split; [|reflexivity]].
  - apply (persist_pin_committed (set_pin_hash _ self)). exact Hlinked.
  - rewrite select_update_pin. destruct Hlinked as [r Hr]. rewrite Hr. simpl.
    destruct (String.eqb _ _); reflexivity.
Qed.

Lemma change_pin_persists_witness :
  Sql.pin <$> Sql.select "1001" (Sql.committed (change_pin "1234" "4321"
                                                  funded_account funded_conn).2)
  = Some (hash_pin "4321").
Proof.
  destruct (change_pin_persists "1234" "4321" funded_account funded_conn) as [Hpin _].
  - vm_compute. reflexivity.
  - vm_compute. eexists. reflexivity.
  - exact Hpin.
Defined.

(** ** Insertion of a new account *)

(** With an account number that has no row, [insert_account_to_db] returns
    [True]; the new row is the last one, with the digest of the PIN and a
    balance of [0.0]; it is committed; the rows of the other account
    numbers are as before, and distinct keys stay distinct. *)
Theorem insert_account_to_db_new (c : Sql.Connection) (k pin : string) :
  Sql.select k (Sql.working c) = None ->
  (insert_account_to_db c k pin).1 = true
  /\ Sql.working (insert_account_to_db c k pin).2
     = Sql.working c
       ++ [{| Sql.account_number := k; Sql.pin := hash_pin pin; Sql.balance := PyFloat.zero |}]
  /\ Sql.committed (insert_account_to_db c k pin).2
     = Sql.working (insert_account_to_db c k pin).2
  /\ Sql.select k (Sql.committed (insert_account_to_db c k pin).2)
     = Some {| Sql.account_number := k; Sql.pin := hash_pin pin; Sql.balance := PyFloat.zero |}
  /\ (forall k', k' <> k ->
        Sql.select k' (Sql.working (insert_account_to_db c k pin).2)
        = Sql.select k' (Sql.working c))
  /\ (List.NoDup (map Sql.account_number (Sql.working c)) ->
      List.NoDup (map Sql.account_number (Sql.working (insert_account_to_db c k pin).2))).
Proof.
  intros Hnone. unfold insert_account_to_db, Sql.insert. simpl. rewrite Hnone. simpl.
  repeat split.
  - rewrite select_app, Hnone. simpl. rewrite String.eqb_refl. reflexivity.
  - intros k' Hne. rewrite select_app. simpl.
    apply not_eq_sym, String.eqb_neq in Hne. rewrite Hne.
    destruct (Sql.select k' (Sql.working c)); reflexivity.
  - intros Hnd.
    pose proof (insert_or_ignore_NoDup (Sql.working c)
                  {| Sql.account_number := k; Sql.pin := hash_pin pin;
                     Sql.balance := PyFloat.zero |} Hnd) as H.
    unfold Sql.insert_or_ignore in H. simpl in H. rewrite Hnone in H. exact H.
Qed.

Lemma insert_account_to_db_new_witness :
  (insert_account_to_db sample_conn "2001" "4321").1 = true
  /\ Sql.select "2001" (Sql.committed (insert_account_to_db sample_conn "2001" "4321").2)
     = Some {| Sql.account_number := "2001"; Sql.pin := hash_pin "4321";
               Sql.balance := PyFloat.zero |}.
Proof.
  destruct (insert_account_to_db_new sample_conn "2001" "4321") as (Hret & _ & _ & Hsel & _).
  - vm_compute. reflexivity.
  - split; [exact Hret|exact Hsel].
Defined.

(** ** Account creation and login *)

(** [create_account] with a new account number and a PIN of at least four
    characters returns; it reads both lines, inserts the row, stores a new
    object with a balance of [0.0] and an empty log under the account
    number, reports the creation, and leaves the binding of the session as
    it was: a creation is no login. *)
Theorem create_account_new (w : World) (line pinline : string) (rest : list string) :
  stdin w = line :: pinline :: rest ->
  strip line <> ""%string ->
  accounts w !! strip line = None ->
  Sql.select (strip line) (Sql.working (conn w)) = None ->
  4 <= String.length (strip pinline) ->
  (create_account w).1 = Return tt
  /\ conn (create_account w).2 = (insert_account_to_db (conn w) (strip line) (strip pinline)).2
  /\ heap (create_account w).2
     = <[fresh (dom (heap w)) :=
           SavingsAccount (strip line) (hash_pin (strip pinline)) PyFloat.zero]> (heap w)
  /\ accounts (create_account w).2 = <[strip line := fresh (dom (heap w))]> (accounts w)
  /\ current_account (create_account w).2 = current_account w
  /\ stdin (create_account w).2 = rest
  /\ stdout (create_account w).2
     = stdout w ++ [Prompt "Enter NEW Account Number: "; Prompt "Set a 4-digit PIN: ";
                    Line "Account created. Initial balance: ₹0."].
Proof.
  intros Hin Hne Hacc Hsel Hlen.
  unfold create_account, bind, input, print, modify, gets, new. simpl. rewrite Hin. simpl.
  apply String.eqb_neq in Hne. rewrite Hne. simpl. rewrite Hacc. simpl.
  apply Nat.ltb_ge in Hlen. rewrite Hlen. simpl.
  unfold insert_account_to_db, Sql.insert. simpl. rewrite Hsel. simpl.
  repeat split. rewrite <- !app_assoc. reflexivity.
Qed.

Lemma create_account_new_witness :
  (create_account (sample_world ["2001"; "4321"])).1 = Return tt
  /\ accounts (create_account (sample_world ["2001"; "4321"])).2 !! "2001"%string
     = Some (fresh (dom (heap (sample_world ["2001"; "4321"]))))
  /\ current_account (create_account (sample_world ["2001"; "4321"])).2 = None.
Proof.
  destruct (create_account_new (sample_world ["2001"; "4321"]) "2001" "4321" [])
    as (Hret & _ & _ & Hacc & Hcur & _).
  - vm_compute. reflexivity.
  - vm_compute. discriminate.
  - vm_compute. reflexivity.
  - vm_compute. reflexivity.
  - vm_compute. lia.
  - split; [exact Hret|]. split; [rewrite Hacc; apply lookup_insert_eq|].
    rewrite Hcur. vm_compute. reflexivity.
Defined.

(** [create_account] refuses an empty account number and an account number
    that the dictionary holds after the first line, without asking for a
    PIN, and a PIN of less than four characters after the second line; each
    time it says why and leaves the table, the heap, the dictionary and the
    binding as they were. *)
Theorem create_account_rejects (w : World) (line : string) (rest : list string) :
  stdin w = line :: rest ->
  (strip line = ""%string ->
   create_account w
   = (Return tt,
      set_stdout (stdout w ++ [Prompt "Enter NEW Account Number: "]
                  ++ [Line "Account number required."]) (set_stdin rest w)))
  /\ (strip line <> ""%string -> is_Some (accounts w !! strip line) ->
      create_account w
      = (Return tt,
         set_stdout (stdout w ++ [Prompt "Enter NEW Account Number: "]
                     ++ [Line "Account number exists."]) (set_stdin rest w)))
  /\ (forall pinline rest',
        strip line <> ""%string -> accounts w !! strip line = None ->
        rest = pinline :: rest' -> String.length (strip pinline) < 4 ->
        create_account w
        = (Return tt,
           set_stdout (stdout w ++ [Prompt "Enter NEW Account Number: "]
                       ++ [Prompt "Set a 4-digit PIN: "]
                       ++ [Line "PIN must be at least 4 digits."]) (set_stdin rest' w))).
Proof.
  intros Hin. unfold create_account, bind, input, print, modify, gets. simpl. rewrite Hin.
  simpl. split; [|split].
  - intros ->. simpl. rewrite <- app_assoc. reflexivity.
  - intros Hne [l Hl]. apply String.eqb_neq in Hne. rewrite Hne. simpl. rewrite Hl. simpl.
    rewrite <- app_assoc. reflexivity.
  - intros pinline rest' Hne Hacc -> Hlen. apply String.eqb_neq in Hne. rewrite Hne. simpl.
    rewrite Hacc. simpl. apply Nat.ltb_lt in Hlen. rewrite Hlen. simpl.
    rewrite <- !app_assoc. reflexivity.
Qed.

Lemma create_account_rejects_witness :
  create_account (sample_world ["   "; "4321"])
  = (Return tt,
     set_stdout (stdout (sample_world ["   "; "4321"])
                 ++ [Prompt "Enter NEW Account Number: "]
                 ++ [Line "Account number required."])
       (set_stdin ["4321"] (sample_world ["   "; "4321"])))
  /\ create_account (sample_world ["2001"; "43"; "x"])
     = (Return tt,
        set_stdout (stdout (sample_world ["2001"; "43"; "x"])
                    ++ [Prompt "Enter NEW Account Number: "]
                    ++ [Prompt "Set a 4-digit PIN: "]
                    ++ [Line "PIN must be at least 4 digits."])
          (set_stdin ["x"] (sample_world ["2001"; "43"; "x"]))).
Proof.
  split.
  - destruct (create_account_rejects (sample_world ["   "; "4321"]) "   " ["4321"])
      as [Hempty _].
    + vm_compute. reflexivity.
    + apply Hempty. vm_compute. reflexivity.
  - destruct (create_account_rejects (sample_world ["2001"; "43"; "x"]) "2001" ["43"; "x"])
      as [_ [_ Hshort]].
    + vm_compute. reflexivity.
    + apply (Hshort "43" ["x"]).
      * vm_compute. discriminate.
      * vm_compute. reflexivity.
      * reflexivity.
      * vm_compute. lia.
Defined.

(** [authenticate_user] reads two lines and changes neither the table, the
    heap nor the dictionary.  It returns [True] exactly when the dictionary
    holds the account number and the PIN passes the check of that account,
    and then binds the session to that object; otherwise it returns [False]
    and the binding stays what it was. *)
Theorem authenticate_user_spec (w : World) (acc_no pin : string) (rest : list string) :
  stdin w = acc_no :: pin :: rest ->
  ((authenticate_user w).1 = Return true \/ (authenticate_user w).1 = Return false)
  /\ ((authenticate_user w).1 = Return true <->
      exists l self, accounts w !! strip acc_no = Some l /\ heap w !! l = Some self
                     /\ _check_pin self (strip pin) = true)
  /\ ((authenticate_user w).1 = Return true ->
      current_account (authenticate_user w).2 = accounts w !! strip acc_no)
  /\ ((authenticate_user w).1 = Return false ->
      current_account (authenticate_user w).2 = current_account w)
  /\ conn (authenticate_user w).2 = conn w
  /\ heap (authenticate_user w).2 = heap w
  /\ accounts (authenticate_user w).2 = accounts w
  /\ stdin (authenticate_user w).2 = rest.
Proof.
  intros Hin. unfold authenticate_user, bind, input, print, modify, gets, ret. simpl.
  rewrite Hin. simpl.
  destruct (accounts w !! strip acc_no) as [l|] eqn:Hacc; simpl.
  - destruct (heap w !! l) as [self|] eqn:Hheap; simpl.
    + destruct (_check_pin self (strip pin)) eqn:Hpin; simpl.
      * repeat split; auto; try discriminate. intros _. exists l, self. auto.
      * repeat split; auto; try discriminate.
        intros (l' & self' & [= <-] & Hh & Hp). congruence.
    + repeat split; auto; try discriminate.
      intros (l' & self' & [= <-] & Hh & Hp). congruence.
  - repeat split; auto; try discriminate.
    intros (l' & self' & Hl & _). discriminate.
Qed.

Lemma authenticate_user_spec_witness :
  (authenticate_user (sample_world ["1002"; "5678"])).1 = Return true
  /\ current_account (authenticate_user (sample_world ["1002"; "5678"])).2
     = accounts (sample_world ["1002"; "5678"]) !! "1002"%string.
Proof.
  destruct (authenticate_user_spec (sample_world ["1002"; "5678"]) "1002" "5678" [])
    as (_ & Hiff & Hcur & _).
  - vm_compute. reflexivity.
  - assert (H : (authenticate_user (sample_world ["1002"; "5678"])).1 = Return true).
    { apply Hiff. eexists _, _. vm_compute. repeat split. }
    split; [exact H|exact (Hcur H)].
Defined.

(** A new account can log in with its PIN and with no PIN of another
    digest: after [create_account] stored the account, [authenticate_user]
    with the same account number returns [True] and binds the new object
    when the PIN is the same, and returns [False] when the digest of the
    PIN differs. *)
Theorem create_then_authenticate
  (w : World) (line pinline line' pin' : string) (rest : list string) :
  stdin w = line :: pinline :: line' :: pin' :: rest ->
  strip line <> ""%string ->
  accounts w !! strip line = None ->
  Sql.select (strip line) (Sql.working (conn w)) = None ->
  4 <= String.length (strip pinline) ->
  strip line' = strip line ->
  (strip pin' = strip pinline ->
   (authenticate_user (create_account w).2).1 = Return true
   /\ current_account (authenticate_user (create_account w).2).2
      = Some (fresh (dom (heap w))))
  /\ (hash_pin (strip pin') <> hash_pin (strip pinline) ->
      (authenticate_user (create_account w).2).1 = Return false
      /\ current_account (authenticate_user (create_account w).2).2 = current_account w).
Proof.
  intros Hin Hne Hacc Hsel Hlen Hsame.
  assert (Hw1 : exists w1,
             create_account w = (Return tt, w1)
             /\ stdin w1 = line' :: pin' :: rest
             /\ accounts w1 !! strip line = Some (fresh (dom (heap w)))
             /\ heap w1 !! fresh (dom (heap w))
                = Some (SavingsAccount (strip line) (hash_pin (strip pinline)) PyFloat.zero)
             /\ current_account w1 = current_account w).
  { unfold create_account, bind, input, print, modify, gets, new. simpl. rewrite Hin. simpl.
    apply String.eqb_neq in Hne. rewrite Hne. simpl. rewrite Hacc. simpl.
    apply Nat.ltb_ge in Hlen. rewrite Hlen. simpl.
    unfold insert_account_to_db, Sql.insert. simpl. rewrite Hsel. simpl.
    eexists. split; [reflexivity|]. simpl.
    repeat split; apply lookup_insert_eq. }
  destruct Hw1 as (w1 & Hc & Hin1 & Hacc1 & Hheap1 & Hcur1). rewrite Hc. cbn [snd].
  unfold authenticate_user, bind, input, print, modify, gets, ret. simpl.
  rewrite Hin1. simpl. rewrite Hsame, Hacc1. simpl. rewrite Hheap1. simpl.
  unfold _check_pin. simpl. split.
  - intros ->. rewrite String.eqb_refl. simpl. split; reflexivity.
  - intros Hdiff. apply not_eq_sym, String.eqb_neq in Hdiff. rewrite Hdiff. simpl.
    split; [reflexivity|exact Hcur1].
Qed.

Lemma create_then_authenticate_witness :
  (authenticate_user
     (create_account (sample_world ["2001"; "4321"; " 2001"; "4321 "])).2).1 = Return true
  /\ (authenticate_user
        (create_account (sample_world ["2001"; "4321"; "2001"; "1234"])).2).1 = Return false.
Proof.
  split.
  - destruct (create_then_authenticate (sample_world ["2001"; "4321"; " 2001"; "4321 "])
                "2001" "4321" " 2001" "4321 " []) as [[H _] _].
    + vm_compute. reflexivity.
    + vm_compute. discriminate.
    + vm_compute. reflexivity.
    + vm_compute. reflexivity.
    + vm_compute. lia.
    + vm_compute. reflexivity.
    + vm_compute. reflexivity.
    + exact H.
  - destruct (create_then_authenticate (sample_world ["2001"; "4321"; "2001"; "1234"])
                "2001" "4321" "2001" "1234" []) as [_ [H _]].
    + vm_compute. reflexivity.
    + vm_compute. discriminate.
    + vm_compute. reflexivity.
    + vm_compute. reflexivity.
    + vm_compute. lia.
    + vm_compute. reflexivity.
    + vm_compute. discriminate.
    + exact H.
Defined.

(** ** The choices of the session menu *)

Lemma print_transactions_eq (txns : list Transaction) (w : World) :
  print_transactions txns w
  = (Return tt, set_stdout (stdout w ++ map TransactionLine txns) w).
Proof.
  revert w. induction txns as [|t txns IH]; intros w.
  - simpl. rewrite app_nil_r. destruct w; reflexivity.
  - cbn [print_transactions]. unfold bind, print, modify. cbn [fst snd].
    rewrite IH. simpl. rewrite <- app_assoc. reflexivity.
Qed.

Ltac unfold_atm :=
  unfold handle_choice, bind, input, print, modify, gets, ret, call_current, call.

(** [handle_choice] returns [False], which ends the session, for the choice
    ["6"] and for no other. *)
Theorem handle_choice_ends_on_logout_only
  (float_of_str : string -> option float) (choice : string) (w : World) :
  (handle_choice float_of_str choice w).1 = Return false <-> choice = "6"%string.
Proof.
  split; [|intros ->; reflexivity].
  unfold_atm.
  destruct (String.eqb_spec choice "1");
    [|destruct (String.eqb_spec choice "2");
      [|destruct (String.eqb_spec choice "3");
        [|destruct (String.eqb_spec choice "4");
          [|destruct (String.eqb_spec choice "5");
            [|destruct (String.eqb_spec choice "6"); [auto|simpl; discriminate]]]]]];
    simpl.
  - destruct (current_account w) as [l|]; [|simpl; discriminate].
    destruct (heap w !! l); simpl; discriminate.
  - destruct (stdin w) as [|text rest]; [simpl; discriminate|]. simpl.
    destruct (float_of_str text) as [amt|]; [|simpl; discriminate]. simpl.
    destruct (current_account w) as [l|]; [|simpl; discriminate].
    destruct (heap w !! l) as [self|]; [|simpl; discriminate]. simpl.
    destruct (withdraw _ _ _ _) as [[[] self'] conn']; simpl; discriminate.
  - destruct (stdin w) as [|text rest]; [simpl; discriminate|]. simpl.
    destruct (float_of_str text) as [amt|]; [|simpl; discriminate]. simpl.
    destruct (current_account w) as [l|]; [|simpl; discriminate].
    destruct (heap w !! l) as [self|]; [|simpl; discriminate]. simpl.
    destruct (deposit _ _ _ _) as [[[] self'] conn']; simpl; discriminate.
  - destruct (current_account w) as [l|]; [|simpl; discriminate].
    destruct (heap w !! l) as [self|]; [|simpl; discriminate]. simpl.
    destruct (get_transactions self) as [|t txns]; [simpl; discriminate|].
    rewrite print_transactions_eq. simpl. discriminate.
  - destruct (stdin w) as [|old_pin [|new_pin rest]]; simpl; try discriminate.
    destruct (current_account w) as [l|]; [|simpl; discriminate].
    destruct (heap w !! l) as [self|]; [|simpl; discriminate]. simpl.
    destruct (change_pin _ _ _ _) as [[[] self'] conn']; simpl; discriminate.
Qed.

(** A text that is no number, typed as the amount of a withdrawal or of a
    deposit, is refused with a message: [handle_choice] returns [True] and
    the table, the heap, the dictionary and the binding stay as they were,
    whether an account is bound or not. *)
Theorem handle_choice_invalid_amount
  (float_of_str : string -> option float) (choice text : string)
  (rest : list string) (w : World) :
  choice = "2"%string \/ choice = "3"%string ->
  stdin w = text :: rest ->
  float_of_str text = None ->
  (handle_choice float_of_str choice w).1 = Return true
  /\ untouched w (handle_choice float_of_str choice w).2
  /\ stdin (handle_choice float_of_str choice w).2 = rest
  /\ last (stdout (handle_choice float_of_str choice w).2) = Some (Line "Invalid amount.").
Proof.
  intros Hchoice Hin Hnone. unfold_atm.
  destruct Hchoice as [-> | ->]; simpl; rewrite Hin; simpl; rewrite Hnone; simpl;
    repeat split; apply last_snoc.
Qed.

Lemma handle_choice_invalid_amount_witness :
  (handle_choice float_of_digits "3" (sample_world ["five hundred"])).1 = Return true
  /\ untouched (sample_world ["five hundred"])
       (handle_choice float_of_digits "3" (sample_world ["five hundred"])).2.
Proof.
  destruct (handle_choice_invalid_amount float_of_digits "3" "five hundred" []
              (sample_world ["five hundred"])) as (Hret & Hsame & _).
  - right. reflexivity.
  - vm_compute. reflexivity.
  - vm_compute. reflexivity.
  - split; [exact Hret|exact Hsame].
Defined.

(** A choice that is none of ["1"] to ["6"] is answered with a message and
    changes nothing else: no line is read, and [handle_choice] returns
    [True]. *)
Theorem handle_choice_invalid_choice
  (float_of_str : string -> option float) (choice : string) (w : World) :
  ~ In choice ["1"; "2"; "3"; "4"; "5"; "6"]%string ->
  handle_choice float_of_str choice w
  = (Return true, set_stdout (stdout w ++ [Line "Invalid choice."]) w).
Proof.
  intros Hnot. unfold handle_choice.
  repeat match goal with
    | |- context [String.eqb choice ?c] =>
        destruct (String.eqb_spec choice c) as [->|_];
        [exfalso; apply Hnot; simpl; tauto|]
    end.
  reflexivity.
Qed.

Lemma handle_choice_invalid_choice_witness :
  handle_choice float_of_digits "7" (sample_world [])
  = (Return true,
     set_stdout (stdout (sample_world []) ++ [Line "Invalid choice."]) (sample_world [])).
Proof.
  apply (handle_choice_invalid_choice float_of_digits "7" (sample_world [])).
  simpl. intros [H|[H|[H|[H|[H|[H|[]]]]]]]; discriminate H.
Defined.

(** While no account is bound, no choice changes the table, an account or
    the dictionary. *)
Theorem handle_choice_logged_out
  (float_of_str : string -> option float) (choice : string) (w : World) :
  current_account w = None ->
  untouched w (handle_choice float_of_str choice w).2.
Proof.
  intros Hcur. unfold_atm.
  destruct (String.eqb choice "1"); [|destruct (String.eqb choice "2");
    [|destruct (String.eqb choice "3"); [|destruct (String.eqb choice "4");
      [|destruct (String.eqb choice "5"); [|destruct (String.eqb choice "6")]]]]];
    simpl; rewrite ?Hcur; simpl; try (repeat split; reflexivity).
  - destruct (stdin w) as [|text rest]; simpl; [repeat split; reflexivity|].
    destruct (float_of_str text); simpl; rewrite ?Hcur; repeat split; reflexivity.
  - destruct (stdin w) as [|text rest]; simpl; [repeat split; reflexivity|].
    destruct (float_of_str text); simpl; rewrite ?Hcur; repeat split; reflexivity.
  - destruct (stdin w) as [|old_pin [|new_pin rest]]; simpl; rewrite ?Hcur;
      repeat split; reflexivity.
  - repeat split. simpl. symmetry. exact Hcur.
Qed.

Lemma handle_choice_logged_out_witness :
  untouched (sample_world ["500"])
    (handle_choice float_of_digits "3" (sample_world ["500"])).2.
Proof.
  apply (handle_choice_logged_out float_of_digits "3" (sample_world ["500"])).
  vm_compute. reflexivity.
Defined.

(** The fourth choice prints the log of the bound account, one line for
    each record in the order of the log, or a message when the log is
    empty; it returns [True], reads no line and changes nothing else. *)
Theorem handle_choice_history
  (float_of_str : string -> option float) (w : World) (l : loc) (self : Account) :
  current_account w = Some l ->
  heap w !! l = Some self ->
  (handle_choice float_of_str "4" w).1 = Return true
  /\ untouched w (handle_choice float_of_str "4" w).2
  /\ stdin (handle_choice float_of_str "4" w).2 = stdin w
  /\ stdout (handle_choice float_of_str "4" w).2
     = stdout w ++ match _transactions self with
                   | [] => [Line "No transactions this session."]
                   | txns => map TransactionLine txns
                   end.
Proof.
  intros Hcur Hheap. unfold_atm. simpl. rewrite Hcur, Hheap. simpl.
  rewrite (insert_id _ _ _ Hheap).
  replace (set_conn (conn w) (set_heap (heap w) w)) with w by (destruct w; reflexivity).
  unfold get_transactions. destruct (_transactions self) as [|t txns] eqn:Hlog.
  - simpl. repeat split.
  - rewrite print_transactions_eq. simpl. repeat split.
Qed.

Lemma handle_choice_history_witness :
  stdout (handle_choice float_of_digits "4" busy_world).2
  = stdout busy_world ++ map TransactionLine (_transactions funded_account).
Proof.
  destruct (handle_choice_history float_of_digits busy_world 0%nat funded_account)
    as (_ & _ & _ & Hout).
  - vm_compute. reflexivity.
  - vm_compute. reflexivity.
  - exact Hout.
Defined.

(** The first choice prints the balance of the bound account, and in every
    state of the process this is the balance of its committed row. *)
Theorem balance_inquiry_shows_committed_balance
  (float_of_str : string -> option float) (w : World) (l : loc) :
  reachable float_of_str w ->
  current_account w = Some l ->
  exists self r,
    heap w !! l = Some self
    /\ Sql.select (account_number self) (Sql.committed (conn w)) = Some r
    /\ (handle_choice float_of_str "1" w).1 = Return true
    /\ stdout (handle_choice float_of_str "1" w).2
       = stdout w ++ [BalanceLine (Sql.balance r)]
    /\ conn (handle_choice float_of_str "1" w).2 = conn w.
Proof.
  intros Hreach Hcur.
  destruct (reachable_consistent _ _ Hreach) as (Hsync & Hacc & Hbound).
  destruct (Hbound l Hcur) as [k Hk].
  destruct (Hacc k l Hk) as (self & r & Hheap & <- & Hsel & _ & _ & Hb).
  exists self, r. rewrite Hsync. split; [exact Hheap|]. split; [exact Hsel|].
  unfold_atm. simpl. rewrite Hcur, Hheap. simpl. rewrite Hb. repeat split.
Qed.

Lemma balance_inquiry_shows_committed_balance_witness :
  exists self r,
    heap busy_world !! 0%nat = Some self
    /\ Sql.select (account_number self) (Sql.committed (conn busy_world)) = Some r
    /\ (handle_choice float_of_digits "1" busy_world).1 = Return true
    /\ stdout (handle_choice float_of_digits "1" busy_world).2
       = stdout busy_world ++ [BalanceLine (Sql.balance r)]
    /\ conn (handle_choice float_of_digits "1" busy_world).2 = conn busy_world.
Proof.
  apply (balance_inquiry_shows_committed_balance float_of_digits busy_world 0%nat).
  - assert (Hb : busy_world
                 = (handle_choice float_of_digits "3"
                      (authenticate_user
                         (ATM_init None ["1001"; "1234"; "500"; "1001"; "1234"] 7%Z)).2).2)
      by (vm_compute; reflexivity).
    rewrite Hb. apply reach_handle_choice, reach_authenticate_user, reach_init. exact I.
  - vm_compute. reflexivity.
Defined.

(** ** Relations that every step of the program respects *)

Lemma call_current_world {A B}
  (m1 : Account -> Sql.Connection -> A * Account * Sql.Connection)
  (m2 : Account -> Sql.Connection -> B * Account * Sql.Connection) (w : World) :
  (forall self c, (m1 self c).1.2 = (m2 self c).1.2 /\ (m1 self c).2 = (m2 self c).2) ->
  (call_current m1 w).2 = (call_current m2 w).2.
Proof.
  intros H. unfold call_current, call.
  destruct (current_account w) as [l|]; [|reflexivity].
  destruct (heap w !! l) as [self|]; [|reflexivity].
  specialize (H self (conn w)).
  destruct (m1 self (conn w)) as [[r1 s1] c1], (m2 self (conn w)) as [[r2 s2] c2].
  simpl in *. destruct H as [-> ->]. reflexivity.
Qed.

Lemma world_eta_conn (w : World) : set_conn (conn w) w = w.
Proof. destruct w; reflexivity. Qed.

Section Respects.

Variable R : World -> World -> Prop.
Hypothesis R_refl : forall w, R w w.
Hypothesis R_trans : forall w1 w2 w3, R w1 w2 -> R w2 w3 -> R w1 w3.
Hypothesis R_print : forall o w, R w (print o w).2.
Hypothesis R_input : forall p w, R w (input p w).2.
Hypothesis R_login :
  forall w k l self, accounts w !! k = Some l -> heap w !! l = Some self ->
                     R w (set_current_account (Some l) w).
Hypothesis R_logout : forall w, R w (set_current_account None w).
Hypothesis R_call : forall now o w, R w (call_current (perform now o) w).2.
Hypothesis R_created :
  forall w k pin, accounts w !! k = None ->
                  Sql.select k (Sql.working (conn w)) = None ->
                  R w (created k pin w).

Lemma respects_ret {A} (a : A) : respects R (ret a).
Proof. intros w. apply R_refl. Qed.

Lemma respects_bind {A B} (c : M A) (k : A -> M B) :
  respects R c -> (forall a, respects R (k a)) -> respects R (bind c k).
Proof.
  intros Hc Hk w. unfold bind. specialize (Hc w).
  destruct (c w) as [[a|e] w']; simpl in *; [|exact Hc].
  eapply R_trans; [exact Hc|apply Hk].
Qed.

Lemma respects_print (o : Output) : respects R (print o).
Proof. intros w. apply R_print. Qed.

Lemma respects_input (p : string) : respects R (input p).
Proof. intros w. apply R_input. Qed.

Lemma respects_gets {A} (f : World -> A) : respects R (gets f).
Proof. intros w. apply R_refl. Qed.

Lemma respects_print_transactions (txns : list Transaction) :
  respects R (print_transactions txns).
Proof.
  induction txns as [|t txns IH]; simpl; [apply respects_ret|].
  apply respects_bind; [apply respects_print|intros _; exact IH].
Qed.

Lemma respects_call_deposit (now : datetime) (a : float) :
  respects R (call_current (deposit now a)).
Proof.
  intros w. rewrite (call_current_world _ (perform now (Deposit a))); [apply R_call|].
  intros self c. simpl. destruct (deposit now a self c) as [[r s] c']. split; reflexivity.
Qed.

Lemma respects_call_withdraw (now : datetime) (a : float) :
  respects R (call_current (withdraw now a)).
Proof.
  intros w. rewrite (call_current_world _ (perform now (Withdraw a))); [apply R_call|].
  intros self c. simpl. destruct (withdraw now a self c) as [[r s] c']. split; reflexivity.
Qed.

Lemma respects_call_change_pin (old_pin new_pin : string) :
  respects R (call_current (change_pin old_pin new_pin)).
Proof.
  intros w. rewrite (call_current_world _ (perform 0%Z (ChangePin old_pin new_pin)));
    [apply R_call|].
  intros self c. simpl. destruct (change_pin old_pin new_pin self c) as [[r s] c'].
  split; reflexivity.
Qed.

Lemma respects_call_get_balance (now : datetime) :
  respects R (call_current
                (fun self c => let '(b, self') := get_balance now self in (b, self', c))).
Proof.
  intros w. rewrite (call_current_world _ (perform now GetBalance)); [apply R_call|].
  intros self c. split; reflexivity.
Qed.

Lemma respects_call_get_transactions :
  respects R (call_current (fun self c => (get_transactions self, self, c))).
Proof.
  intros w. rewrite (call_current_world _ (perform 0%Z GetTransactions)); [apply R_call|].
  intros self c. split; reflexivity.
Qed.

Lemma respects_logout : respects R (modify (set_current_account None)).
Proof. intros w. apply R_logout. Qed.

Ltac respects_step :=
  first
    [ apply respects_ret | apply respects_print | apply respects_input
    | apply respects_gets | apply respects_logout | apply respects_print_transactions
    | apply respects_call_deposit | apply respects_call_withdraw
    | apply respects_call_change_pin | apply respects_call_get_balance
    | apply respects_call_get_transactions
    | apply respects_bind; [|intros ?]
    | match goal with
      | |- respects _ (if ?c then _ else _) => destruct c
      | |- respects _ (match ?x with _ => _ end) => destruct x
      end ].

Lemma respects_handle_choice (float_of_str : string -> option float) (choice : string) :
  respects R (handle_choice float_of_str choice).
Proof. unfold handle_choice. repeat respects_step. Qed.

Lemma respects_show_menu : respects R show_menu.
Proof. unfold show_menu. repeat respects_step. Qed.

Lemma respects_authenticate_user : respects R authenticate_user.
Proof.
  unfold authenticate_user.
  apply respects_bind; [apply respects_input|intros acc_no].
  apply respects_bind; [apply respects_input|intros pin].
  intros w. unfold bind at 1. unfold gets at 1. cbn [fst snd].
  unfold bind at 1. unfold gets at 1. cbn [fst snd].
  destruct (accounts w !! strip acc_no) as [l|] eqn:Hacc; simpl.
  - destruct (heap w !! l) as [self|] eqn:Hheap.
    + destruct (_check_pin self (strip pin)).
      * unfold bind, modify, ret. cbn [fst snd].
        eapply R_trans; [exact (R_login w _ l self Hacc Hheap)|apply R_print].
      * unfold bind, ret. simpl. apply R_print.
    + unfold bind, ret. simpl. apply R_print.
  - unfold bind, ret. simpl. apply R_print.
Qed.

Lemma respects_create_account : respects R create_account.
Proof.
  unfold create_account.
  apply respects_bind; [apply respects_input|intros line].
  destruct (String.eqb (strip line) ""); [apply respects_print|].
  intros w. unfold bind at 1. unfold gets at 1. cbn [fst snd].
  destruct (accounts w !! strip line) eqn:Hacc; [apply R_print|].
  unfold bind at 1. pose proof (R_input "Set a 4-digit PIN: " w) as Hin.
  destruct (input "Set a 4-digit PIN: " w) as [[pin|e] w1] eqn:Hw1; cbn [fst snd] in *;
    [|exact Hin].
  destruct (String.length (strip pin) <? 4)%nat.
  { eapply R_trans; [exact Hin|apply R_print]. }
  assert (Hsame : conn w1 = conn w /\ accounts w1 = accounts w /\ heap w1 = heap w).
  { unfold input in Hw1. simpl in Hw1. destruct (stdin w); inversion Hw1; subst.
    repeat split. }
  destruct Hsame as (Hc1 & Ha1 & Hh1).
  eapply R_trans; [exact Hin|].
  unfold bind at 1. unfold gets at 1. cbn [fst snd].
  destruct (insert_account_to_db (conn w1) (strip line) (strip pin)) as [ok c'] eqn:Hins.
  unfold bind at 1. unfold modify at 1. cbn [fst snd].
  unfold insert_account_to_db, Sql.insert in Hins. simpl in Hins.
  destruct (Sql.select (strip line) (Sql.working (conn w1))) eqn:Hsel;
    inversion Hins; subst; clear Hins.
  - rewrite world_eta_conn. apply R_print.
  - unfold bind, new, modify. cbn [fst snd].
    eapply R_trans; [|apply R_print].
    pose proof (R_created w1 (strip line) (strip pin)) as Hcr.
    unfold created, insert_account_to_db, Sql.insert in Hcr. simpl in Hcr.
    rewrite Hsel in Hcr. simpl in Hcr. apply Hcr; [rewrite Ha1; exact Hacc|reflexivity].
Qed.

Lemma respects_session_loop (fuel : nat) (float_of_str : string -> option float) :
  respects R (session_loop fuel float_of_str).
Proof.
  induction fuel as [|fuel IH]; simpl; [apply respects_ret|].
  apply respects_bind; [apply respects_show_menu|intros _].
  apply respects_bind; [apply respects_input|intros choice].
  apply respects_bind; [apply respects_handle_choice|intros [|]];
    [exact IH|apply respects_ret].
Qed.

Lemma respects_run (fuel : nat) (float_of_str : string -> option float) :
  respects R (run fuel float_of_str).
Proof.
  induction fuel as [|fuel IH]; simpl; [apply respects_ret|].
  repeat (apply respects_bind; [apply respects_print|intros _]).
  apply respects_bind; [apply respects_input|intros opt].
  destruct (String.eqb (strip opt) "1").
  { apply respects_bind; [apply respects_authenticate_user|intros [|]]; [|exact IH].
    apply respects_bind; [apply respects_session_loop|intros [[]|]];
      [exact IH|apply respects_ret]. }
  destruct (String.eqb (strip opt) "2").
  { apply respects_bind; [apply respects_create_account|intros _; exact IH]. }
  destruct (String.eqb (strip opt) "3"); [apply respects_ret|].
  apply respects_bind; [apply respects_print|intros _; exact IH].
Qed.

End Respects.

(** ** The console is only read forward *)

Lemma call_current_io {A}
  (m : Account -> Sql.Connection -> A * Account * Sql.Connection) (w : World) :
  stdin (call_current m w).2 = stdin w
  /\ stdout (call_current m w).2 = stdout w
  /\ accounts (call_current m w).2 = accounts w
  /\ current_account (call_current m w).2 = current_account w.
Proof.
  unfold call_current, call. destruct (current_account w) as [l|] eqn:Hcur; [|auto].
  destruct (heap w !! l); [|auto].
  destruct (m _ _) as [[r s] c]. simpl. auto.
Qed.

Lemma consumes_input (p : string) (w : World) : consumes w (input p w).2.
Proof.
  unfold consumes, input. simpl.
  destruct (stdin w) eqn:Hin; simpl; rewrite ?Hin; simpl; lia.
Qed.

Lemma consumes_handle_choice (float_of_str : string -> option float) (choice : string) :
  respects consumes (handle_choice float_of_str choice).
Proof.
  apply respects_handle_choice; unfold consumes; intros; simpl; try lia.
  - apply consumes_input.
  - destruct (call_current_io (perform now o) w) as [-> _]. lia.
Qed.

Lemma consumes_authenticate_user : respects consumes authenticate_user.
Proof.
  apply respects_authenticate_user; unfold consumes; intros; simpl; try lia.
  apply consumes_input.
Qed.

Lemma consumes_create_account : respects consumes create_account.
Proof.
  apply respects_create_account; unfold consumes; intros; simpl; try lia.
  apply consumes_input.
Qed.

Lemma consumes_session_loop (fuel : nat) (float_of_str : string -> option float) :
  respects consumes (session_loop fuel float_of_str).
Proof.
  apply respects_session_loop; unfold consumes; intros; simpl; try lia.
  - apply consumes_input.
  - destruct (call_current_io (perform now o) w) as [-> _]. lia.
Qed.

Lemma show_menu_eq (w : World) :
  show_menu w
  = (Return tt,
     set_stdout (stdout w ++ [Line "1. Balance Inquiry"; Line "2. Cash Withdrawal";
                              Line "3. Cash Deposit";
                              Line "4. Transaction History (session)";
                              Line "5. Change PIN"; Line "6. Logout"]) w).
Proof.
  unfold show_menu, bind, print, modify. simpl. rewrite <- !app_assoc. reflexivity.
Qed.

(** One turn of the loop of a session: the menu, the choice, its handling. *)
Lemma session_loop_step (fuel : nat) (float_of_str : string -> option float) (w : World) :
  session_loop (S fuel) float_of_str w
  = match input "Enter choice: " (show_menu w).2 with
    | (Return choice, w1) =>
        match handle_choice float_of_str (strip choice) w1 with
        | (Return true, w2) => session_loop fuel float_of_str w2
        | (Return false, w2) => (Return (Some tt), w2)
        | (Raise e, w2) => (Raise e, w2)
        end
    | (Raise e, w1) => (Raise e, w1)
    end.
Proof.
  cbn [session_loop]. unfold bind at 1. rewrite show_menu_eq. cbn [fst snd].
  unfold bind at 1. destruct (input _ _) as [[choice|e] w1]; [|reflexivity].
  unfold bind at 1. destruct (handle_choice _ _ _) as [[[|]|e] w2]; reflexivity.
Qed.

Lemma session_loop_enough_fuel
  (fuel : nat) (float_of_str : string -> option float) (w : World) :
  length (stdin w) < fuel -> (session_loop fuel float_of_str w).1 <> Return None.
Proof.
  revert w. induction fuel as [|fuel IH]; intros w Hlen; [lia|].
  rewrite session_loop_step, show_menu_eq. cbn [snd]. unfold input. cbn [stdin set_stdout].
  destruct (stdin w) as [|choice rest] eqn:Hin; [discriminate|]. cbn [length] in Hlen.
  match goal with |- context [handle_choice ?f ?c ?w1] =>
    pose proof (consumes_handle_choice f c w1) as Hc;
    destruct (handle_choice f c w1) as [[[|]|e] w2] end;
    cbn [fst snd] in *; try discriminate.
  apply IH. unfold consumes in Hc. simpl in Hc. lia.
Qed.

Lemma session_loop_more_fuel
  (fuel fuel' : nat) (float_of_str : string -> option float) (w : World) :
  length (stdin w) < fuel -> fuel <= fuel' ->
  session_loop fuel' float_of_str w = session_loop fuel float_of_str w.
Proof.
  revert fuel' w. induction fuel as [|fuel IH]; intros fuel' w Hlen Hle; [lia|].
  destruct fuel' as [|fuel']; [lia|].
  rewrite !session_loop_step, show_menu_eq. cbn [snd]. unfold input. cbn [stdin set_stdout].
  destruct (stdin w) as [|choice rest] eqn:Hin; [reflexivity|]. cbn [length] in Hlen.
  match goal with |- context [handle_choice ?f ?c ?w1] =>
    pose proof (consumes_handle_choice f c w1) as Hc;
    destruct (handle_choice f c w1) as [[[|]|e] w2] end;
    cbn [fst snd] in *; try reflexivity.
  apply IH; [|lia]. unfold consumes in Hc. simpl in Hc. lia.
Qed.

(** One turn of the main loop. *)
Lemma run_step (fuel : nat) (float_of_str : string -> option float) (w : World) :
  run (S fuel) float_of_str w
  = match input "Choose (1-3): "
            (set_stdout (stdout w ++ [Line (String "010" "Main Menu"); Line "1. Login";
                                      Line "2. Create New Account"; Line "3. Exit"]) w) with
    | (Return opt, w1) =>
        if String.eqb (strip opt) "1" then
          match authenticate_user w1 with
          | (Return true, w2) =>
              match session_loop fuel float_of_str w2 with
              | (Return (Some _), w3) => run fuel float_of_str w3
              | (Return None, w3) => (Return None, w3)
              | (Raise e, w3) => (Raise e, w3)
              end
          | (Return false, w2) => run fuel float_of_str w2
          | (Raise e, w2) => (Raise e, w2)
          end
        else if String.eqb (strip opt) "2" then
          match create_account w1 with
          | (Return _, w2) => run fuel float_of_str w2
          | (Raise e, w2) => (Raise e, w2)
          end
        else if String.eqb (strip opt) "3" then (Return (Some tt), w1)
        else run fuel float_of_str (set_stdout (stdout w1 ++ [Line "Invalid option."]) w1)
    | (Raise e, w1) => (Raise e, w1)
    end.
Proof.
  cbn [run]. unfold bind at 1 2 3 4. unfold print at 1 2 3 4. unfold modify.
  cbn [fst snd stdout set_stdout conn heap accounts current_account stdin clock].
  rewrite <- !app_assoc. cbn [app].
  unfold bind at 1. destruct (input _ _) as [[opt|e] w1]; [|reflexivity].
  destruct (String.eqb (strip opt) "1").
  { unfold bind at 1. destruct (authenticate_user w1) as [[[|]|e] w2]; try reflexivity.
    unfold bind at 1. destruct (session_loop _ _ _) as [[[[]|]|e] w3]; reflexivity. }
  destruct (String.eqb (strip opt) "2").
  { unfold bind at 1. destruct (create_account w1) as [[[]|e] w2]; reflexivity. }
  destruct (String.eqb (strip opt) "3"); reflexivity.
Qed.


Lemma run_enough_fuel (fuel : nat) (float_of_str : string -> option float) (w : World) :
  length (stdin w) < fuel -> (run fuel float_of_str w).1 <> Return None.
Proof.
  revert w. induction fuel as [|fuel IH]; intros w Hlen; [lia|].
  rewrite run_step. unfold input. cbn [stdin set_stdout].
  destruct (stdin w) as [|opt rest] eqn:Hin; [discriminate|]. cbn [length] in Hlen.
  match goal with |- context [set_stdin rest ?w0] => set (w1 := set_stdin rest w0) end.
  assert (Hw1 : length (stdin w1) < fuel) by (subst w1; simpl; lia).
  destruct (String.eqb (strip opt) "1").
  { pose proof (consumes_authenticate_user w1) as Ha.
    destruct (authenticate_user w1) as [[[|]|e] w2]; cbn [fst snd] in *;
      unfold consumes in Ha; [|apply IH; lia|discriminate].
    pose proof (consumes_session_loop fuel float_of_str w2) as Hs.
    pose proof (session_loop_enough_fuel fuel float_of_str w2 ltac:(lia)) as Hf.
    destruct (session_loop fuel float_of_str w2) as [[[[]|]|e] w3]; cbn [fst snd] in *;
      unfold consumes in Hs; [apply IH; lia|exact Hf|discriminate]. }
  destruct (String.eqb (strip opt) "2").
  { pose proof (consumes_create_account w1) as Hc.
    destruct (create_account w1) as [[[]|e] w2]; cbn [fst snd] in *;
      unfold consumes in Hc; [apply IH; lia|discriminate]. }
  destruct (String.eqb (strip opt) "3"); [discriminate|].
  apply IH. simpl. subst w1. simpl. lia.
Qed.

Lemma run_more_fuel (fuel fuel' : nat) (float_of_str : string -> option float) (w : World) :
  length (stdin w) < fuel -> fuel <= fuel' ->
  run fuel' float_of_str w = run fuel float_of_str w.
Proof.
  revert fuel' w. induction fuel as [|fuel IH]; intros fuel' w Hlen Hle; [lia|].
  destruct fuel' as [|fuel']; [lia|].
  rewrite !run_step. unfold input. cbn [stdin set_stdout].
  destruct (stdin w) as [|opt rest] eqn:Hin; [reflexivity|]. cbn [length] in Hlen.
  match goal with |- context [set_stdin rest ?w0] => set (w1 := set_stdin rest w0) end.
  assert (Hw1 : length (stdin w1) < fuel) by (subst w1; simpl; lia).
  destruct (String.eqb (strip opt) "1").
  { pose proof (consumes_authenticate_user w1) as Ha.
    destruct (authenticate_user w1) as [[[|]|e] w2]; cbn [fst snd] in *;
      unfold consumes in Ha; [|apply IH; lia|reflexivity].
    rewrite (session_loop_more_fuel fuel fuel' float_of_str w2) by lia.
    pose proof (consumes_session_loop fuel float_of_str w2) as Hs.
    destruct (session_loop fuel float_of_str w2) as [[[[]|]|e] w3]; cbn [fst snd] in *;
      unfold consumes in Hs; [apply IH; lia|reflexivity|reflexivity]. }
  destruct (String.eqb (strip opt) "2").
  { pose proof (consumes_create_account w1) as Hc.
    destruct (create_account w1) as [[[]|e] w2]; cbn [fst snd] in *;
      unfold consumes in Hc; [apply IH; lia|reflexivity]. }
  destruct (String.eqb (strip opt) "3"); [reflexivity|].
  apply IH; [|lia]. simpl. subst w1. simpl. lia.
Qed.

(** [run] ends on every console with finitely many lines: with more fuel
    than there are lines it returns, after the choice of Exit, or raises,
    and then more fuel changes neither how it ends nor the state it ends
    in. *)
Theorem run_terminates (fuel : nat) (float_of_str : string -> option float) (w : World) :
  length (stdin w) < fuel ->
  ((run fuel float_of_str w).1 = Return (Some tt)
   \/ exists e, (run fuel float_of_str w).1 = Raise e)
  /\ (forall fuel', fuel <= fuel' ->
        run fuel' float_of_str w = run fuel float_of_str w).
Proof.
  intros Hlen. split.
  - pose proof (run_enough_fuel fuel float_of_str w Hlen) as H.
    destruct (run fuel float_of_str w).1 as [[[]|]|e]; [left; reflexivity|tauto|eauto].
  - intros fuel' Hle. apply run_more_fuel; assumption.
Qed.

Lemma run_terminates_witness :
  (run 4 float_of_digits (sample_world ["1"; "1001"; "1234"])).1 = Raise EOFError
  /\ run 9 float_of_digits (sample_world ["1"; "1001"; "1234"])
     = run 4 float_of_digits (sample_world ["1"; "1001"; "1234"]).
Proof.
  destruct (run_terminates 4 float_of_digits (sample_world ["1"; "1001"; "1234"]))
    as [_ Hmore].
  - vm_compute. lia.
  - split; [vm_compute; reflexivity|apply Hmore; lia].
Defined.

(** ** A choice is only handled for a bound account *)

Lemma handle_choice_bound
  (float_of_str : string -> option float) (choice : string) (w : World) :
  bound w ->
  (handle_choice float_of_str choice w).1 <> Raise AttributeError
  /\ ((handle_choice float_of_str choice w).1 = Return true ->
      bound (handle_choice float_of_str choice w).2).
Proof.
  intros (l & self & Hcur & Hheap). unfold_atm.
  destruct (String.eqb choice "1"); [|destruct (String.eqb choice "2");
    [|destruct (String.eqb choice "3"); [|destruct (String.eqb choice "4");
      [|destruct (String.eqb choice "5"); [|destruct (String.eqb choice "6")]]]]];
    simpl.
  - rewrite Hcur, Hheap. simpl. split; [discriminate|]. intros _.
    eexists l, _. split; [exact Hcur|apply lookup_insert_eq].
  - destruct (stdin w) as [|text rest]; simpl; [split; discriminate|].
    destruct (float_of_str text) as [amt|]; simpl.
    + rewrite Hcur, Hheap. simpl.
      destruct (withdraw _ _ _ _) as [[[] self'] conn']; simpl; (split; [discriminate|]);
        intros _; exists l, self'; (split; [exact Hcur|apply lookup_insert_eq]).
    + split; [discriminate|]. intros _. exists l, self. auto.
  - destruct (stdin w) as [|text rest]; simpl; [split; discriminate|].
    destruct (float_of_str text) as [amt|]; simpl.
    + rewrite Hcur, Hheap. simpl.
      destruct (deposit _ _ _ _) as [[[] self'] conn']; simpl; (split; [discriminate|]);
        intros _; exists l, self'; (split; [exact Hcur|apply lookup_insert_eq]).
    + split; [discriminate|]. intros _. exists l, self. auto.
  - rewrite Hcur, Hheap. simpl.
    destruct (get_transactions self) as [|t txns]; [simpl|rewrite print_transactions_eq; simpl].
    + split; [discriminate|]. intros _. exists l, self.
      split; [exact Hcur|apply lookup_insert_eq].
    + split; [discriminate|]. intros _.
      exists l, self. split; [exact Hcur|apply lookup_insert_eq].
  - destruct (stdin w) as [|old_pin [|new_pin rest]]; simpl; try (split; discriminate).
    rewrite Hcur, Hheap. simpl.
    destruct (change_pin _ _ _ _) as [[[] self'] conn']; simpl; (split; [discriminate|]);
      intros _; exists l, self'; (split; [exact Hcur|apply lookup_insert_eq]).
  - split; discriminate.
  - split; [discriminate|]. intros _. exists l, self. auto.
Qed.

Lemma session_loop_bound
  (fuel : nat) (float_of_str : string -> option float) (w : World) :
  bound w -> (session_loop fuel float_of_str w).1 <> Raise AttributeError.
Proof.
  revert w. induction fuel as [|fuel IH]; intros w Hb; [discriminate|].
  rewrite session_loop_step, show_menu_eq. cbn [snd]. unfold input. cbn [stdin set_stdout].
  destruct (stdin w) as [|choice rest] eqn:Hin; [discriminate|].
  match goal with |- context [handle_choice ?f ?c ?w1] =>
    assert (Hb1 : bound w1) by
      (destruct Hb as (l & self & Hcur & Hheap); exists l, self; auto);
    pose proof (handle_choice_bound f c w1 Hb1) as [Hne Hkeep];
    destruct (handle_choice f c w1) as [[[|]|e] w2] end;
    cbn [fst snd] in *; [apply IH; auto|discriminate|intros [= ->]; congruence].
Qed.

Lemma authenticate_user_bound (w : World) :
  (authenticate_user w).1 <> Raise AttributeError
  /\ ((authenticate_user w).1 = Return true -> bound (authenticate_user w).2).
Proof.
  unfold authenticate_user, bind, input, print, modify, gets, ret. simpl.
  destruct (stdin w) as [|acc_no [|pin rest]]; simpl; try (split; discriminate).
  destruct (accounts w !! strip acc_no) as [l|]; simpl; [|split; discriminate].
  destruct (heap w !! l) as [self|] eqn:Hheap; simpl; [|split; discriminate].
  destruct (_check_pin self (strip pin)); simpl; [|split; discriminate].
  split; [discriminate|]. intros _. exists l, self. auto.
Qed.

Lemma create_account_no_AttributeError (w : World) :
  (create_account w).1 <> Raise AttributeError.
Proof.
  unfold create_account, bind, input, print, modify, gets, new. simpl.
  destruct (stdin w) as [|line rest]; simpl; [discriminate|].
  destruct (String.eqb (strip line) ""); simpl; [discriminate|].
  destruct (accounts w !! strip line); simpl; [discriminate|].
  destruct rest as [|pin rest]; simpl; [discriminate|].
  destruct (String.length (strip pin) <? 4)%nat; simpl; [discriminate|].
  destruct (insert_account_to_db _ _ _) as [[] c']; simpl; discriminate.
Qed.

(** [run] never fails on a missing account: it calls [handle_choice] only
    after a login that succeeded and before the logout, so that
    [current_account] is an object whenever a method of it is called. *)
Theorem run_never_AttributeError
  (fuel : nat) (float_of_str : string -> option float) (w : World) :
  (run fuel float_of_str w).1 <> Raise AttributeError.
Proof.
  revert w. induction fuel as [|fuel IH]; intros w; [discriminate|].
  rewrite run_step. unfold input. cbn [stdin set_stdout].
  destruct (stdin w) as [|opt rest]; [discriminate|].
  match goal with |- context [set_stdin rest ?w0] => set (w1 := set_stdin rest w0) end.
  destruct (String.eqb (strip opt) "1").
  { pose proof (authenticate_user_bound w1) as [Hne Hb].
    destruct (authenticate_user w1) as [[[|]|e] w2]; cbn [fst snd] in *;
      [|apply IH|intros [= ->]; congruence].
    pose proof (session_loop_bound fuel float_of_str w2 (Hb eq_refl)) as Hs.
    destruct (session_loop fuel float_of_str w2) as [[[[]|]|e] w3]; cbn [fst snd] in *;
      [apply IH|discriminate|exact Hs]. }
  destruct (String.eqb (strip opt) "2").
  { pose proof (create_account_no_AttributeError w1) as Hc.
    destruct (create_account w1) as [[[]|e] w2]; cbn [fst snd] in *;
      [apply IH|intros [= ->]; congruence]. }
  destruct (String.eqb (strip opt) "3"); [discriminate|]. apply IH.
Qed.

(** ** Nothing is taken away during a run *)

Lemma grows_refl (w : World) : grows w w.
Proof.
  split; [|auto]. intros l self H. exists self, []. rewrite app_nil_r. auto.
Qed.

Lemma grows_trans (w1 w2 w3 : World) : grows w1 w2 -> grows w2 w3 -> grows w1 w3.
Proof.
  intros [H12 A12] [H23 A23]. split; [|auto].
  intros l self H. destruct (H12 l self H) as (self2 & new2 & Hl2 & Hk2 & Hlog2).
  destruct (H23 l self2 Hl2) as (self3 & new3 & Hl3 & Hk3 & Hlog3).
  exists self3, (new2 ++ new3). split; [exact Hl3|]. split; [congruence|].
  rewrite Hlog3, Hlog2, app_assoc. reflexivity.
Qed.

Lemma grows_same (w w' : World) :
  heap w' = heap w -> accounts w' = accounts w -> grows w w'.
Proof.
  intros Hh Ha. split.
  - intros l self H. exists self, []. rewrite Hh, app_nil_r. auto.
  - intros k l H. rewrite Ha. exact H.
Qed.

Lemma input_untouched (p : string) (w : World) : untouched w (input p w).2.
Proof.
  unfold untouched, input. simpl. destruct (stdin w); simpl; auto.
Qed.

Lemma grows_input (p : string) (w : World) : grows w (input p w).2.
Proof.
  destruct (input_untouched p w) as (_ & Hh & Ha & _). apply grows_same; assumption.
Qed.

Lemma perform_grows (now : datetime) (o : Op) (self : Account) (c : Sql.Connection) :
  account_number (perform now o self c).1.2 = account_number self
  /\ exists new, _transactions (perform now o self c).1.2 = _transactions self ++ new.
Proof.
  destruct o; simpl; unfold deposit, withdraw, change_pin;
    repeat match goal with |- context [if ?b then _ else _] => destruct b end;
    simpl; (split; [reflexivity|]);
    first [ exists []; rewrite app_nil_r; reflexivity | eexists; reflexivity ].
Qed.

Lemma grows_call (now : datetime) (o : Op) (w : World) :
  grows w (call_current (perform now o) w).2.
Proof.
  unfold call_current, call.
  destruct (current_account w) as [l|]; [|apply grows_refl].
  destruct (heap w !! l) as [self|] eqn:Hheap; [|apply grows_refl].
  pose proof (perform_grows now o self (conn w)) as [Hk [new Hlog]].
  destruct (perform now o self (conn w)) as [[v self'] c']. simpl in *.
  split; [|auto]. intros l0 self0 H0. destruct (decide (l0 = l)) as [->|Hne].
  - rewrite Hheap in H0. injection H0 as <-. exists self', new. simpl.
    rewrite lookup_insert_eq. auto.
  - exists self0, []. simpl. rewrite lookup_insert_ne, app_nil_r by congruence. auto.
Qed.

Lemma grows_created (w : World) (k pin : string) :
  accounts w !! k = None -> grows w (created k pin w).
Proof.
  intros Hk. unfold created. split; simpl.
  - intros l self H. exists self, []. rewrite app_nil_r.
    rewrite lookup_insert_ne; [auto|]. intros Heq. rewrite <- Heq, fresh_lookup in H.
    discriminate.
  - intros k' l H. rewrite lookup_insert_ne; [exact H|]. congruence.
Qed.

(** During a run no account object and no entry of the dictionary is
    removed, no object changes its account number, and every log is only
    appended to: this holds for each method of [ATM] and for the whole of
    [run]. *)
Theorem session_only_grows
  (fuel : nat) (float_of_str : string -> option float) (choice : string) (w : World) :
  grows w (create_account w).2
  /\ grows w (authenticate_user w).2
  /\ grows w (handle_choice float_of_str choice w).2
  /\ grows w (run fuel float_of_str w).2.
Proof.
  assert (Hio : forall w w', heap w' = heap w -> accounts w' = accounts w -> grows w w')
    by exact grows_same.
  split; [|split; [|split]].
  - apply respects_create_account;
      eauto using grows_refl, grows_trans, grows_created, grows_input.
  - apply respects_authenticate_user;
      eauto using grows_refl, grows_trans, grows_input.
  - apply respects_handle_choice;
      eauto using grows_refl, grows_trans, grows_call, grows_input.
  - apply respects_run;
      eauto using grows_refl, grows_trans, grows_call, grows_created, grows_input.
Qed.

(** ** Rows of the table *)

Lemma keeps_rows_refl (w : World) : keeps_rows w w.
Proof. split; [exists []; rewrite app_nil_r; reflexivity|auto]. Qed.

Lemma keeps_rows_trans (w1 w2 w3 : World) :
  keeps_rows w1 w2 -> keeps_rows w2 w3 -> keeps_rows w1 w3.
Proof.
  intros [[m2 H12] N12] [[m3 H23] N23]. split; [|auto].
  exists (m2 ++ m3). rewrite H23, H12, app_assoc. reflexivity.
Qed.

Lemma keeps_rows_same (w w' : World) : conn w' = conn w -> keeps_rows w w'.
Proof.
  intros Hc. unfold keeps_rows, keys. rewrite Hc.
  split; [exists []; rewrite app_nil_r; reflexivity|auto].
Qed.

Lemma perform_keys (now : datetime) (o : Op) (self : Account) (c : Sql.Connection) :
  map Sql.account_number (Sql.working (perform now o self c).2)
  = map Sql.account_number (Sql.working c).
Proof.
  destruct o; simpl; unfold deposit, withdraw, change_pin;
    repeat match goal with |- context [if ?b then _ else _] => destruct b end;
    simpl; auto using keys_update_balance, keys_update_pin.
Qed.

Lemma keeps_rows_call (now : datetime) (o : Op) (w : World) :
  keeps_rows w (call_current (perform now o) w).2.
Proof.
  unfold call_current, call.
  destruct (current_account w) as [l|]; [|apply keeps_rows_refl].
  destruct (heap w !! l) as [self|]; [|apply keeps_rows_refl].
  pose proof (perform_keys now o self (conn w)) as Hk.
  destruct (perform now o self (conn w)) as [[v self'] c']. simpl in *.
  unfold keeps_rows, keys. simpl. rewrite Hk.
  split; [exists []; rewrite app_nil_r; reflexivity|auto].
Qed.

Lemma keeps_rows_created (w : World) (k pin : string) :
  Sql.select k (Sql.working (conn w)) = None -> keeps_rows w (created k pin w).
Proof.
  intros Hsel. unfold keeps_rows, keys, created, insert_account_to_db, Sql.insert.
  simpl. rewrite Hsel. simpl. rewrite map_app. simpl. split; [eauto|].
  intros Hnd. apply NoDup_ListNoDup, NoDup_app. apply NoDup_ListNoDup in Hnd.
  split; [exact Hnd|]. split; [|apply NoDup_singleton].
  intros k' Hk' Hk''. apply list_elem_of_singleton in Hk''. subst k'.
  apply list_elem_of_In in Hk'. apply select_None in Hsel. exact (Hsel Hk').
Qed.

(** No method of [ATM], and so no run, deletes or moves a row: the account
    numbers of the table before are the beginning of those after, and they
    stay distinct when they were. *)
Theorem rows_are_never_deleted
  (fuel : nat) (float_of_str : string -> option float) (choice : string) (w : World) :
  keeps_rows w (create_account w).2
  /\ keeps_rows w (authenticate_user w).2
  /\ keeps_rows w (handle_choice float_of_str choice w).2
  /\ keeps_rows w (run fuel float_of_str w).2.
Proof.
  assert (Hsame : forall w w', conn w' = conn w -> keeps_rows w w')
    by exact keeps_rows_same.
  assert (Hin : forall p w0, keeps_rows w0 (input p w0).2).
  { intros p w0. destruct (input_untouched p w0) as (Hc & _). apply keeps_rows_same, Hc. }
  split; [|split; [|split]].
  - apply respects_create_account;
      eauto using keeps_rows_refl, keeps_rows_trans, keeps_rows_created.
  - apply respects_authenticate_user; eauto using keeps_rows_refl, keeps_rows_trans.
  - apply respects_handle_choice;
      eauto using keeps_rows_refl, keeps_rows_trans, keeps_rows_call.
  - apply respects_run;
      eauto using keeps_rows_refl, keeps_rows_trans, keeps_rows_call, keeps_rows_created.
Qed.

(** ** A session touches the bound account only *)

Lemma perform_other_rows
  (now : datetime) (o : Op) (self : Account) (c : Sql.Connection) (k : string) :
  k <> account_number self ->
  Sql.select k (Sql.working (perform now o self c).2) = Sql.select k (Sql.working c).
Proof.
  intros Hne. destruct o; simpl; unfold deposit, withdraw, change_pin;
    repeat match goal with |- context [if ?b then _ else _] => destruct b end;
    simpl; auto using select_update_balance_other, select_update_pin_other.
Qed.

Lemma perform_sync (now : datetime) (o : Op) (self : Account) (c : Sql.Connection) :
  Sql.committed c = Sql.working c ->
  Sql.committed (perform now o self c).2 = Sql.working (perform now o self c).2.
Proof.
  intros Hs. destruct o; simpl; unfold deposit, withdraw, change_pin;
    repeat match goal with |- context [if ?b then _ else _] => destruct b end;
    simpl; auto.
Qed.

Lemma isolates_untouched (w w' : World) : untouched w w' -> isolates w w'.
Proof.
  intros (Hc & Hh & Ha & Hcur). unfold isolates. rewrite Hc, Hh, Ha, Hcur.
  split; [auto|]. split; [reflexivity|].
  destruct (current_account w) as [l|]; [|auto].
  split; [auto|]. split; [auto|].
  destruct (heap w !! l) as [self|]; [|auto]. split; [eauto|auto].
Qed.

Lemma isolates_refl (w : World) : isolates w w.
Proof. apply isolates_untouched. repeat split. Qed.

Lemma isolates_trans (w1 w2 w3 : World) :
  isolates w1 w2 -> isolates w2 w3 -> isolates w1 w3.
Proof.
  intros (S12 & A12 & H12) (S23 & A23 & H23). unfold isolates.
  split; [auto|]. split; [congruence|].
  destruct (current_account w1) as [l|].
  - destruct H12 as (Hcur2 & Hoth2 & Hl2).
    destruct Hcur2 as [Hcur2|Hcur2]; rewrite Hcur2 in H23.
    + destruct H23 as (Hcur3 & Hoth3 & Hl3).
      split; [exact Hcur3|]. split; [intros l' Hne; rewrite Hoth3, Hoth2; auto|].
      destruct (heap w1 !! l) as [self|].
      * destruct Hl2 as ((self2 & Hh2 & Hk2) & Hrows2). rewrite Hh2 in Hl3.
        destruct Hl3 as ((self3 & Hh3 & Hk3) & Hrows3).
        split; [exists self3; split; [exact Hh3|congruence]|].
        intros k Hne. rewrite Hrows3, Hrows2; [reflexivity|exact Hne|congruence].
      * destruct Hl2 as (Hh2 & Hw2). rewrite Hh2 in Hl3. destruct Hl3 as (Hh3 & Hw3).
        split; [exact Hh3|congruence].
    + destruct H23 as (Hcur3 & Hh3 & Hw3).
      split; [auto|]. split; [intros l' Hne; rewrite Hh3; auto|].
      destruct (heap w1 !! l) as [self|].
      * destruct Hl2 as ((self2 & Hh2 & Hk2) & Hrows2).
        split; [exists self2; rewrite Hh3; auto|].
        intros k Hne. rewrite Hw3. auto.
      * destruct Hl2 as (Hh2 & Hw2). rewrite Hh3, Hw3. auto.
  - destruct H12 as (Hcur2 & Hh2 & Hw2). rewrite Hcur2 in H23.
    destruct H23 as (Hcur3 & Hh3 & Hw3). split; [auto|]. split; congruence.
Qed.

Lemma isolates_logout (w : World) : isolates w (set_current_account None w).
Proof.
  unfold isolates. simpl. split; [auto|]. split; [reflexivity|].
  destruct (current_account w) as [l|]; [|auto].
  split; [auto|]. split; [auto|].
  destruct (heap w !! l) as [self|]; [|auto]. split; [eauto|auto].
Qed.

Lemma isolates_call (now : datetime) (o : Op) (w : World) :
  isolates w (call_current (perform now o) w).2.
Proof.
  unfold call_current, call.
  destruct (current_account w) as [l|] eqn:Hcur; [|apply isolates_refl].
  destruct (heap w !! l) as [self|] eqn:Hheap; [|apply isolates_refl].
  pose proof (perform_grows now o self (conn w)) as [Hk _].
  pose proof (perform_sync now o self (conn w)) as Hs.
  pose proof (perform_other_rows now o self (conn w)) as Hrows.
  destruct (perform now o self (conn w)) as [[v self'] c']. simpl in *.
  unfold isolates. simpl. rewrite Hcur, Hheap.
  split; [exact Hs|]. split; [reflexivity|]. split; [auto|].
  split; [intros l' Hne; apply lookup_insert_ne; congruence|].
  split; [exists self'; rewrite lookup_insert_eq; auto|exact Hrows].
Qed.

Lemma isolates_input (p : string) (w : World) : isolates w (input p w).2.
Proof. apply isolates_untouched, input_untouched. Qed.

Lemma isolates_print (o : Output) (w : World) : isolates w (print o w).2.
Proof. apply isolates_untouched. repeat split. Qed.

Lemma isolates_touches_only (w w' : World) (l : loc) (self : Account) :
  current_account w = Some l -> heap w !! l = Some self ->
  Sql.committed (conn w) = Sql.working (conn w) ->
  isolates w w' -> touches_only l self w w'.
Proof.
  intros Hcur Hheap Hsync (Hs & Ha & H). rewrite Hcur, Hheap in H.
  destruct H as (_ & Hoth & _ & Hrows).
  split; [exact Hoth|]. split; [exact Ha|].
  intros k Hne. split; [apply Hrows, Hne|].
  rewrite (Hs Hsync), Hsync. apply Hrows, Hne.
Qed.

(** While a session is bound to an account, each choice, and so the whole
    session up to the logout, changes no other account object, no entry of
    the dictionary and no row of another account number, in the table of
    the connection and, when nothing was uncommitted, in the committed
    table. *)
Theorem session_isolation
  (fuel : nat) (float_of_str : string -> option float) (choice : string)
  (w : World) (l : loc) (self : Account) :
  current_account w = Some l ->
  heap w !! l = Some self ->
  Sql.committed (conn w) = Sql.working (conn w) ->
  touches_only l self w (handle_choice float_of_str choice w).2
  /\ touches_only l self w (session_loop fuel float_of_str w).2.
Proof.
  intros Hcur Hheap Hsync. split; apply isolates_touches_only; try assumption.
  - apply respects_handle_choice;
      auto using isolates_refl, isolates_print, isolates_input, isolates_logout,
        isolates_call.
    exact isolates_trans.
  - apply respects_session_loop;
      auto using isolates_refl, isolates_print, isolates_input, isolates_logout,
        isolates_call.
    exact isolates_trans.
Qed.

Lemma session_isolation_witness :
  touches_only 0%nat funded_account busy_world
    (session_loop 5 float_of_digits busy_world).2.
Proof.
  apply (session_isolation 5 float_of_digits "3" busy_world 0%nat funded_account).
  - vm_compute. reflexivity.
  - vm_compute. reflexivity.
  - vm_compute. reflexivity.
Defined.

(** ** Start-up, and what a restart finds *)

Lemma preserves_session_loop (fuel : nat) (float_of_str : string -> option float) :
  preserves (session_loop fuel float_of_str).
Proof.
  induction fuel as [|fuel IH]; simpl; [apply preserves_ret|].
  apply preserves_bind; [unfold show_menu; repeat preserves_step|intros _].
  apply preserves_bind; [apply preserves_input|intros choice].
  apply preserves_bind; [apply preserves_handle_choice|intros [|]];
    [exact IH|apply preserves_ret].
Qed.

Lemma preserves_run (fuel : nat) (float_of_str : string -> option float) :
  preserves (run fuel float_of_str).
Proof.
  induction fuel as [|fuel IH]; simpl; [apply preserves_ret|].
  repeat (apply preserves_bind; [apply preserves_print|intros _]).
  apply preserves_bind; [apply preserves_input|intros opt].
  destruct (String.eqb (strip opt) "1").
  { apply preserves_bind; [apply preserves_authenticate_user|intros [|]]; [|exact IH].
    apply preserves_bind; [apply preserves_session_loop|intros [[]|]];
      [exact IH|apply preserves_ret]. }
  destruct (String.eqb (strip opt) "2").
  { apply preserves_bind; [apply preserves_create_account|intros _; exact IH]. }
  destruct (String.eqb (strip opt) "3"); [apply preserves_ret|].
  apply preserves_bind; [apply preserves_print|intros _; exact IH].
Qed.

Lemma run_keeps_rows (fuel : nat) (float_of_str : string -> option float) (w : World) :
  keeps_rows w (run fuel float_of_str w).2.
Proof.
  apply respects_run;
    auto using keeps_rows_refl, keeps_rows_call, keeps_rows_created.
  - exact keeps_rows_trans.
  - intros o w0. apply keeps_rows_same. reflexivity.
  - intros p w0. destruct (input_untouched p w0) as (Hc & _). apply keeps_rows_same, Hc.
  - intros w0 k l self _ _. apply keeps_rows_same. reflexivity.
  - intros w0. apply keeps_rows_same. reflexivity.
Qed.

Lemma load_rows_io (rows : list Sql.Row) (w : World) :
  stdin (load_rows rows w).2 = stdin w /\ stdout (load_rows rows w).2 = stdout w.
Proof.
  revert w. induction rows as [|r rows IH]; intros w; [split; reflexivity|].
  cbn [load_rows]. unfold bind at 1 2. unfold load_account, bind, new, modify. cbn [fst snd].
  match goal with |- context [load_rows rows ?w1] => destruct (IH w1) as [Hin Hout] end.
  rewrite Hin, Hout. split; reflexivity.
Qed.

Lemma load_rows_returns (rows : list Sql.Row) (w : World) :
  (load_rows rows w).1 = Return tt.
Proof.
  revert w. induction rows as [|r rows IH]; intros w; [reflexivity|].
  cbn [load_rows]. unfold bind at 1. unfold load_account, bind, new, modify. cbn [fst snd].
  apply IH.
Qed.

Lemma ATM_init_eq (db : option Sql.Connection) (i : list string) (t : datetime) :
  ATM_init db i t
  = set_current_account None
      (load_rows (Sql.working (init_db db))
         {| conn := init_db db; heap := ∅; accounts := ∅; current_account := None;
            stdin := i; stdout := []; clock := t |}).2.
Proof.
  set (w0 := {| conn := init_db db; heap := ∅; accounts := ∅; current_account := None;
                stdin := i; stdout := []; clock := t |}).
  unfold ATM_init, load_all_accounts. fold w0.
  unfold bind at 1. unfold bind at 1. unfold modify at 1. cbn [fst snd].
  unfold bind at 1. unfold gets. cbn [fst snd].
  change (set_accounts ∅ w0) with w0. change (conn w0) with (init_db db).
  pose proof (load_rows_returns (Sql.working (init_db db)) w0) as Hret.
  destruct (load_rows (Sql.working (init_db db)) w0) as [res w1].
  cbn [fst snd] in *. subst res. reflexivity.
Qed.

Lemma ATM_init_spec (db : option Sql.Connection) (i : list string) (t : datetime) :
  table_ok db ->
  conn (ATM_init db i t) = init_db db
  /\ current_account (ATM_init db i t) = None
  /\ stdin (ATM_init db i t) = i
  /\ stdout (ATM_init db i t) = []
  /\ (forall r, In r (Sql.working (init_db db)) ->
        exists l, accounts (ATM_init db i t) !! Sql.account_number r = Some l
                  /\ heap (ATM_init db i t) !! l
                     = Some (SavingsAccount (Sql.account_number r) (Sql.pin r)
                               (Sql.balance r)))
  /\ (forall k, ~ In k (map Sql.account_number (Sql.working (init_db db))) ->
        accounts (ATM_init db i t) !! k = None).
Proof.
  intros Hok. rewrite ATM_init_eq.
  set (rows0 := Sql.working (init_db db)).
  set (w0 := {| conn := init_db db; heap := ∅; accounts := ∅; current_account := None;
                stdin := i; stdout := []; clock := t |}).
  assert (Hnd : List.NoDup (map Sql.account_number rows0)).
  { subst rows0. rewrite init_db_unfold. cbn [Sql.working].
    apply fold_insert_NoDup. destruct db as [c|]; [exact Hok|constructor]. }
  destruct (load_rows_spec rows0 w0 Hnd) as (_ & Hconn & Hcur & Hheap & Hothers & Hrows).
  destruct (load_rows_io rows0 w0) as [Hin Hout].
  destruct (load_rows rows0 w0) as [res w1]. cbn [fst snd] in *.
  split; [exact Hconn|]. split; [reflexivity|]. split; [exact Hin|]. split; [exact Hout|].
  split; [exact Hrows|].
  intros k Hk. cbn [accounts set_current_account]. rewrite (Hothers k Hk). apply lookup_empty.
Qed.

(** After [ATM.__init__] the connection holds the initialized table and
    nothing is printed or read; the dictionary has an entry for each row and
    for nothing else, and the object of a row carries its digest and its
    balance with an empty log; no account is bound. *)
Theorem ATM_init_loads
  (db : option Sql.Connection) (i : list string) (t : datetime) :
  table_ok db ->
  conn (ATM_init db i t) = init_db db
  /\ current_account (ATM_init db i t) = None
  /\ stdin (ATM_init db i t) = i /\ stdout (ATM_init db i t) = []
  /\ (forall k r, Sql.select k (Sql.working (init_db db)) = Some r ->
        exists l, accounts (ATM_init db i t) !! k = Some l
                  /\ heap (ATM_init db i t) !! l
                     = Some {| account_number := k; __pin_hash := Sql.pin r;
                               __balance := Sql.balance r; _transactions := [] |})
  /\ (forall k, Sql.select k (Sql.working (init_db db)) = None ->
        accounts (ATM_init db i t) !! k = None).
Proof.
  intros Hok.
  destruct (ATM_init_spec db i t Hok) as (Hc & Hcur & Hin & Hout & Hrows & Hnone).
  split; [exact Hc|]. split; [exact Hcur|]. split; [exact Hin|]. split; [exact Hout|].
  split.
  - intros k r Hsel. pose proof (select_key _ _ _ Hsel) as Hk.
    unfold Sql.select in Hsel. apply find_some in Hsel as [Hr _].
    destruct (Hrows r Hr) as (l & Hl & Hobj). rewrite Hk in Hl, Hobj.
    exists l. split; [exact Hl|exact Hobj].
  - intros k Hsel. apply Hnone. apply select_None. exact Hsel.
Qed.

Lemma ATM_init_loads_witness :
  table_ok None
  /\ exists l, accounts (ATM_init None [] 7%Z) !! "1001"%string = Some l
               /\ heap (ATM_init None [] 7%Z) !! l
                  = Some {| account_number := "1001";
                            __pin_hash :=
                              Sql.pin {| Sql.account_number := "1001";
                                         Sql.pin := hash_pin "1234";
                                         Sql.balance := PyFloat.zero |};
                            __balance :=
                              Sql.balance {| Sql.account_number := "1001";
                                             Sql.pin := hash_pin "1234";
                                             Sql.balance := PyFloat.zero |};
                            _transactions := [] |}.
Proof.
  split; [exact I|].
  destruct (ATM_init_loads None [] 7%Z I) as (_ & _ & _ & _ & Hr & _).
  refine (Hr "1001"%string _ _). vm_compute. reflexivity.
Defined.


(** ** Balances stay numbers through a run *)

Lemma balance_ok_zero : balance_ok PyFloat.zero.
Proof. split; reflexivity. Qed.

Lemma perform_working (now : datetime) (o : Op) (self : Account) (c : Sql.Connection) :
  Sql.working (perform now o self c).2 = Sql.working c
  \/ Sql.working (perform now o self c).2
     = Sql.update_balance (__balance (perform now o self c).1.2) (account_number self)
         (Sql.working c)
  \/ exists p, Sql.working (perform now o self c).2
               = Sql.update_pin p (account_number self) (Sql.working c).
Proof.
  destruct o as [|a|a|old_pin new_pin|]; simpl; auto.
  - unfold deposit. destruct (PyFloat.leb a PyFloat.zero); simpl; auto.
  - unfold withdraw.
    destruct (PyFloat.leb a PyFloat.zero || PyFloat.ltb (__balance self) a); simpl; auto.
  - unfold change_pin. destruct (negb (_check_pin self old_pin)); simpl; auto.
    destruct (String.length new_pin <? 4)%nat; simpl; eauto.
Qed.

Lemma perform_rows_ok (now : datetime) (o : Op) (self : Account) (c : Sql.Connection) :
  balance_ok (__balance self) -> finite_amount o ->
  (forall r, In r (Sql.working c) -> balance_ok (Sql.balance r)) ->
  forall r, In r (Sql.working (perform now o self c).2) -> balance_ok (Sql.balance r).
Proof.
  intros Hb Ho Hrows r.
  pose proof (perform_balance_ok now o self c Hb Ho) as Hnew.
  destruct (perform_working now o self c) as [-> | [-> | [p ->]]].
  - apply Hrows.
  - unfold Sql.update_balance. intros Hr. apply in_map_iff in Hr as (r0 & <- & Hr0).
    destruct (String.eqb (Sql.account_number r0) (account_number self));
      [exact Hnew|apply Hrows, Hr0].
  - unfold Sql.update_pin. intros Hr. apply in_map_iff in Hr as (r0 & <- & Hr0).
    destruct (String.eqb (Sql.account_number r0) (account_number self));
      simpl; apply Hrows, Hr0.
Qed.

Section Numbers.

Variable float_of_str : string -> option float.

Lemma kn_refl (w : World) : keeps_numbers float_of_str w w.
Proof. intros H. exact H. Qed.

Lemma kn_trans (w1 w2 w3 : World) :
  keeps_numbers float_of_str w1 w2 -> keeps_numbers float_of_str w2 w3 ->
  keeps_numbers float_of_str w1 w3.
Proof. intros H12 H23 H. apply H23, H12, H. Qed.

Lemma kn_same (w w' : World) :
  heap w' = heap w -> conn w' = conn w -> (forall s, In s (stdin w') -> In s (stdin w)) ->
  keeps_numbers float_of_str w w'.
Proof.
  intros Hh Hc Hin [[Hobj Hrows] Hty]. unfold numbers. rewrite Hh, Hc.
  split; [split; assumption|]. intros s a Hs. apply Hty, Hin, Hs.
Qed.

Lemma kn_print (o : Output) (w : World) : keeps_numbers float_of_str w (print o w).2.
Proof. apply kn_same; auto. Qed.

Lemma kn_input (p : string) (w : World) : keeps_numbers float_of_str w (input p w).2.
Proof.
  destruct (input_untouched p w) as (Hc & Hh & _).
  apply kn_same; [exact Hh|exact Hc|].
  unfold input. simpl. destruct (stdin w) as [|s0 rest] eqn:E; simpl; rewrite ?E;
    intros s Hs; simpl in *; auto.
Qed.

Lemma kn_bound (c : option loc) (w : World) :
  keeps_numbers float_of_str w (set_current_account c w).
Proof. apply kn_same; auto. Qed.

Lemma kn_call (now : datetime) (o : Op) (w : World) :
  finite_amount o -> keeps_numbers float_of_str w (call_current (perform now o) w).2.
Proof.
  intros Ho [[Hobj Hrows] Hty]. unfold call_current, call.
  destruct (current_account w) as [l|]; [|exact (conj (conj Hobj Hrows) Hty)].
  destruct (heap w !! l) as [self|] eqn:Hl; [|exact (conj (conj Hobj Hrows) Hty)].
  pose proof (perform_balance_ok now o self (conn w) (Hobj l self Hl) Ho) as Hnew.
  pose proof (perform_rows_ok now o self (conn w) (Hobj l self Hl) Ho Hrows) as Hrows'.
  destruct (perform now o self (conn w)) as [[v self'] c']. cbn [fst snd] in *.
  split; [split|exact Hty]; simpl.
  - intros l' x. destruct (decide (l' = l)) as [->|Hne].
    + rewrite lookup_insert_eq. intros [= <-]. exact Hnew.
    + rewrite lookup_insert_ne by congruence. apply Hobj.
  - exact Hrows'.
Qed.

Lemma kn_call_as {A}
  (m : Account -> Sql.Connection -> A * Account * Sql.Connection)
  (now : datetime) (o : Op) :
  finite_amount o ->
  (forall self c, (m self c).1.2 = (perform now o self c).1.2
                  /\ (m self c).2 = (perform now o self c).2) ->
  respects (keeps_numbers float_of_str) (call_current m).
Proof.
  intros Ho Hm w. rewrite (call_current_world m (perform now o) w Hm). apply kn_call, Ho.
Qed.

Lemma kn_created (k pin : string) (w : World) :
  keeps_numbers float_of_str w (created k pin w).
Proof.
  intros [[Hobj Hrows] Hty]. unfold created. split; [split|exact Hty]; simpl.
  - intros l x. destruct (decide (l = fresh (dom (heap w)))) as [->|Hne].
    + rewrite lookup_insert_eq. intros [= <-]. exact balance_ok_zero.
    + rewrite lookup_insert_ne by congruence. apply Hobj.
  - unfold insert_account_to_db, Sql.insert. simpl.
    destruct (Sql.select k (Sql.working (conn w))); simpl; [exact Hrows|].
    intros r Hr. apply in_app_or in Hr as [Hr|[<-|[]]]; [apply Hrows, Hr|exact balance_ok_zero].
Qed.

Lemma kn_bind {A B} (c : M A) (k : A -> M B) :
  respects (keeps_numbers float_of_str) c ->
  (forall a, respects (keeps_numbers float_of_str) (k a)) ->
  respects (keeps_numbers float_of_str) (bind c k).
Proof. apply respects_bind. exact kn_trans. Qed.

(** What [input] returns is a line of the console: when the lines are
    numbers, so is the one that is read. *)
Lemma kn_input_amount {B} (p : string) (k : string -> M B) :
  (forall text,
      (forall a, float_of_str text = Some a ->
                 PyFloat.valid a = true /\ PyFloat.is_finite a = true) ->
      respects (keeps_numbers float_of_str) (k text)) ->
  respects (keeps_numbers float_of_str) (bind (input p) k).
Proof.
  intros Hk w Hinv. pose proof (kn_input p w Hinv) as Hinv1.
  destruct Hinv as [_ Hty]. unfold bind. unfold input in *. simpl in *.
  destruct (stdin w) as [|s rest]; simpl in *; [exact Hinv1|].
  apply Hk; [|exact Hinv1]. intros a Ha. apply (Hty s a); [left; reflexivity|exact Ha].
Qed.

Lemma kn_print_transactions (txns : list Transaction) :
  respects (keeps_numbers float_of_str) (print_transactions txns).
Proof.
  induction txns as [|t txns IH]; simpl; [intros w; apply kn_refl|].
  apply kn_bind; [intros w; apply kn_print|intros _; exact IH].
Qed.

Lemma kn_handle_choice (choice : string) :
  respects (keeps_numbers float_of_str) (handle_choice float_of_str choice).
Proof.
  unfold handle_choice.
  destruct (String.eqb choice "1").
  { apply kn_bind; [intros w; apply kn_refl|intros now].
    apply kn_bind; [|intros bal; apply kn_bind; intros; intros w;
                     [apply kn_print|apply kn_refl]].
    apply (kn_call_as _ now GetBalance); [exact I|]. intros self c. split; reflexivity. }
  destruct (String.eqb choice "2").
  { apply kn_input_amount. intros text Htext.
    destruct (float_of_str text) as [amt|].
    - specialize (Htext amt eq_refl).
      apply kn_bind; [intros w; apply kn_refl|intros now].
      apply kn_bind.
      + apply (kn_call_as _ now (Withdraw amt)); [exact Htext|]. intros self c. simpl.
        destruct (withdraw now amt self c) as [[r s] c']. split; reflexivity.
      + intros [|]; apply kn_bind; intros; intros w; first [apply kn_print|apply kn_refl].
    - apply kn_bind; intros; intros w; first [apply kn_print|apply kn_refl]. }
  destruct (String.eqb choice "3").
  { apply kn_input_amount. intros text Htext.
    destruct (float_of_str text) as [amt|].
    - specialize (Htext amt eq_refl).
      apply kn_bind; [intros w; apply kn_refl|intros now].
      apply kn_bind.
      + apply (kn_call_as _ now (Deposit amt)); [exact Htext|]. intros self c. simpl.
        destruct (deposit now amt self c) as [[r s] c']. split; reflexivity.
      + intros [|]; apply kn_bind; intros; intros w; first [apply kn_print|apply kn_refl].
    - apply kn_bind; intros; intros w; first [apply kn_print|apply kn_refl]. }
  destruct (String.eqb choice "4").
  { apply kn_bind.
    - apply (kn_call_as _ 0%Z GetTransactions); [exact I|]. intros self c. split; reflexivity.
    - intros txns. apply kn_bind; [|intros; intros w; apply kn_refl].
      destruct txns; [intros w; apply kn_print|apply kn_print_transactions]. }
  destruct (String.eqb choice "5").
  { apply kn_bind; [intros w; apply kn_input|intros old_pin].
    apply kn_bind; [intros w; apply kn_input|intros new_pin].
    apply kn_bind.
    - apply (kn_call_as _ 0%Z (ChangePin (strip old_pin) (strip new_pin))); [exact I|].
      intros self c. simpl.
      destruct (change_pin (strip old_pin) (strip new_pin) self c) as [[r s] c'].
      split; reflexivity.
    - intros [|]; apply kn_bind; intros; intros w; first [apply kn_print|apply kn_refl]. }
  destruct (String.eqb choice "6").
  { apply kn_bind; intros; intros w; first [apply kn_bound|apply kn_refl]. }
  apply kn_bind; intros; intros w; first [apply kn_print|apply kn_refl].
Qed.

Lemma kn_authenticate_user : respects (keeps_numbers float_of_str) authenticate_user.
Proof.
  apply respects_authenticate_user;
    auto using kn_refl, kn_print, kn_input, kn_bound.
  exact kn_trans.
Qed.

Lemma kn_create_account : respects (keeps_numbers float_of_str) create_account.
Proof.
  apply respects_create_account;
    auto using kn_refl, kn_print, kn_input, kn_created.
  exact kn_trans.
Qed.

Lemma kn_session_loop (fuel : nat) :
  respects (keeps_numbers float_of_str) (session_loop fuel float_of_str).
Proof.
  induction fuel as [|fuel IH]; simpl; [intros w; apply kn_refl|].
  apply kn_bind; [unfold show_menu; repeat (apply kn_bind; [|intros _]);
                  intros w; apply kn_print|intros _].
  apply kn_bind; [intros w; apply kn_input|intros choice].
  apply kn_bind; [apply kn_handle_choice|intros [|]];
    [exact IH|intros w; apply kn_refl].
Qed.

Lemma kn_run (fuel : nat) :
  respects (keeps_numbers float_of_str) (run fuel float_of_str).
Proof.
  induction fuel as [|fuel IH]; simpl; [intros w; apply kn_refl|].
  repeat (apply kn_bind; [intros w; apply kn_print|intros _]).
  apply kn_bind; [intros w; apply kn_input|intros opt].
  destruct (String.eqb (strip opt) "1").
  { apply kn_bind; [apply kn_authenticate_user|intros [|]]; [|exact IH].
    apply kn_bind; [apply kn_session_loop|intros [[]|]];
      [exact IH|intros w; apply kn_refl]. }
  destruct (String.eqb (strip opt) "2").
  { apply kn_bind; [apply kn_create_account|intros _; exact IH]. }
  destruct (String.eqb (strip opt) "3"); [intros w; apply kn_refl|].
  apply kn_bind; [intros w; apply kn_print|intros _; exact IH].
Qed.

End Numbers.

Lemma fold_insert_rows_ok (rows t : Sql.table) :
  (forall r, In r rows -> balance_ok (Sql.balance r)) ->
  (forall r, In r t -> balance_ok (Sql.balance r)) ->
  forall r, In r (fold_left Sql.insert_or_ignore rows t) -> balance_ok (Sql.balance r).
Proof.
  revert t. induction rows as [|r0 rows IH]; intros t Hrows Ht; [exact Ht|].
  simpl. apply IH; [intros r Hr; apply Hrows; right; exact Hr|].
  unfold Sql.insert_or_ignore. destruct (Sql.select _ t); [exact Ht|].
  intros r Hr. apply in_app_or in Hr as [Hr|[<-|[]]]; [apply Ht, Hr|apply Hrows; left; reflexivity].
Qed.

Lemma load_rows_conn (rows : list Sql.Row) (w : World) :
  conn (load_rows rows w).2 = conn w.
Proof.
  revert w. induction rows as [|r rows IH]; intros w; [reflexivity|].
  cbn [load_rows]. unfold bind at 1. unfold load_account, bind, new, modify. cbn [fst snd].
  rewrite IH. reflexivity.
Qed.

Lemma load_rows_heap (rows : list Sql.Row) (w : World) (l : loc) (self : Account) :
  heap (load_rows rows w).2 !! l = Some self ->
  heap w !! l = Some self
  \/ exists r, In r rows
               /\ self = SavingsAccount (Sql.account_number r) (Sql.pin r) (Sql.balance r).
Proof.
  revert w. induction rows as [|r rows IH]; intros w; [simpl; auto|].
  cbn [load_rows]. unfold bind at 1. unfold load_account, bind, new, modify. cbn [fst snd].
  intros H. apply IH in H as [H|(r' & Hr' & Hb)].
  - simpl in H. destruct (decide (l = fresh (dom (heap w)))) as [->|Hne].
    + rewrite lookup_insert_eq in H. injection H as <-. right. exists r.
      split; [left; reflexivity|reflexivity].
    + rewrite lookup_insert_ne in H by congruence. left. exact H.
  - right. exists r'. split; [right; exact Hr'|exact Hb].
Qed.

Lemma numbers_ATM_init (db : option Sql.Connection) (i : list string) (t : datetime) :
  (forall c r, db = Some c -> In r (Sql.working c) -> balance_ok (Sql.balance r)) ->
  numbers (ATM_init db i t) /\ stdin (ATM_init db i t) = i.
Proof.
  intros Hdb. rewrite ATM_init_eq.
  set (w0 := {| conn := init_db db; heap := ∅; accounts := ∅; current_account := None;
                stdin := i; stdout := []; clock := t |}).
  assert (Hrows : forall r, In r (Sql.working (init_db db)) -> balance_ok (Sql.balance r)).
  { rewrite init_db_unfold. cbn [Sql.working]. apply fold_insert_rows_ok.
    - intros r Hr. unfold samples in Hr. simpl in Hr.
      destruct Hr as [<-|[<-|[<-|[]]]]; exact balance_ok_zero.
    - destruct db as [c|]; [intros r; apply (Hdb c r eq_refl)|intros r []]. }
  pose proof (load_rows_heap (Sql.working (init_db db)) w0) as Hheap.
  pose proof (load_rows_io (Sql.working (init_db db)) w0) as [Hin _].
  pose proof (load_rows_conn (Sql.working (init_db db)) w0) as Hconn.
  destruct (load_rows (Sql.working (init_db db)) w0) as [res w1]. cbn [fst snd] in *.
  split; [split|exact Hin]; simpl.
  - intros l self Hl. destruct (Hheap l self Hl) as [H0|(r & Hr & ->)].
    + subst w0. simpl in H0. rewrite lookup_empty in H0. discriminate.
    + apply Hrows, Hr.
  - rewrite Hconn. exact Hrows.
Qed.

(** Non-negative balances for the whole program: when the balances in the
    database are numbers with [0 <= balance] and no typed amount reads as NaN
    or as an infinity, then after a run, however it ends, the balance of
    every account object and of every row is a number with [0 <= balance]. *)
Theorem run_keeps_balances_numbers
  (fuel : nat) (float_of_str : string -> option float)
  (db : option Sql.Connection) (i : list string) (t : datetime) :
  (forall c r, db = Some c -> In r (Sql.working c) -> balance_ok (Sql.balance r)) ->
  typed_numbers float_of_str i ->
  (forall l self, heap (run fuel float_of_str (ATM_init db i t)).2 !! l = Some self ->
                  balance_ok (__balance self))
  /\ (forall r, In r (Sql.working (conn (run fuel float_of_str (ATM_init db i t)).2)) ->
                balance_ok (Sql.balance r)).
Proof.
  intros Hdb Hty. destruct (numbers_ATM_init db i t Hdb) as [Hnum Hin].
  apply (kn_run float_of_str fuel (ATM_init db i t)).
  split; [exact Hnum|]. rewrite Hin. exact Hty.
Qed.

Lemma run_keeps_balances_numbers_witness :
  Forall (fun r => balance_ok (Sql.balance r))
    (Sql.working
       (conn (run 9 float_of_digits
                (ATM_init None ["1"; "1001"; "1234"; "3"; "500"; "2"; "200"; "6"; "3"]
                   7%Z)).2)).
Proof.
  apply List.Forall_forall.
  apply (run_keeps_balances_numbers 9 float_of_digits None
           ["1"; "1001"; "1234"; "3"; "500"; "2"; "200"; "6"; "3"] 7%Z).
  - intros c r [=].
  - intros s a Hin. simpl in Hin.
    repeat (destruct Hin as [<-|Hin];
            [vm_compute; intros [= <-]; split; reflexivity|]).
    destruct Hin.
Defined.

(** The table that [main] leaves in the file is all that the connection
    saw.  When the balances in the file were numbers with [0 <= balance] and
    no typed amount reads as NaN or as an infinity, a restart on that file
    finds every account of the run again, with the balance and the digest
    that its object had at the end, a balance that is a number with
    [0 <= balance], and with an empty log: balances and PINs survive the
    process, the session log does not. *)
Theorem restart_finds_accounts
  (fuel : nat) (float_of_str : string -> option float)
  (db : option Sql.table) (i i' : list string) (t t' : datetime)
  (k : string) (l : loc) (self : Account) :
  table_ok (connect db) ->
  (forall rows r, db = Some rows -> In r rows -> balance_ok (Sql.balance r)) ->
  typed_numbers float_of_str i ->
  accounts (run fuel float_of_str (ATM_init (connect db) i t)).2 !! k = Some l ->
  heap (run fuel float_of_str (ATM_init (connect db) i t)).2 !! l = Some self ->
  (main fuel float_of_str db i t).1.2
  = Sql.working (conn (run fuel float_of_str (ATM_init (connect db) i t)).2)
  /\ balance_ok (__balance self)
  /\ exists l',
       accounts (ATM_init (connect (Some (main fuel float_of_str db i t).1.2)) i' t') !! k
       = Some l'
       /\ heap (ATM_init (connect (Some (main fuel float_of_str db i t).1.2)) i' t') !! l'
          = Some {| account_number := k; __pin_hash := __pin_hash self;
                    __balance := __balance self; _transactions := [] |}.
Proof.
  intros Hok Hdb Hty Hacc Hheap.
  assert (Hmain : (main fuel float_of_str db i t).1.2
                  = Sql.committed (conn (run fuel float_of_str
                                           (ATM_init (connect db) i t)).2)).
  { unfold main. destruct (run _ _ _) as [r w]. reflexivity. }
  rewrite Hmain. clear Hmain.
  assert (Hdb' : forall c r, connect db = Some c -> In r (Sql.working c) ->
                             balance_ok (Sql.balance r)).
  { destruct db as [rows|]; simpl; intros c r [= <-]. simpl. apply (Hdb rows r eq_refl). }
  destruct (numbers_ATM_init (connect db) i t Hdb') as [Hnum0 Hin0].
  assert (Hnum : numbers (run fuel float_of_str (ATM_init (connect db) i t)).2).
  { apply (kn_run float_of_str fuel (ATM_init (connect db) i t)).
    split; [exact Hnum0|]. rewrite Hin0. exact Hty. }
  pose proof (preserves_run fuel float_of_str _ (consistent_ATM_init _ i t Hok)) as Hcons.
  pose proof (run_keeps_rows fuel float_of_str (ATM_init (connect db) i t)) as [_ Hnd].
  assert (Hnd0 : List.NoDup (keys (ATM_init (connect db) i t))).
  { unfold keys. destruct (ATM_init_spec (connect db) i t Hok) as (-> & _).
    rewrite init_db_unfold. cbn [Sql.working]. apply fold_insert_NoDup.
    destruct (connect db) as [c|]; [exact Hok|constructor]. }
  specialize (Hnd Hnd0). unfold keys in Hnd.
  set (w1 := (run fuel float_of_str (ATM_init (connect db) i t)).2) in *.
  destruct Hcons as (Hsync & Haccs & _).
  destruct (Haccs k l Hacc) as (self0 & r & Hheap0 & Hkey & Hsel & _ & Hp & Hb).
  rewrite Hheap in Hheap0. injection Hheap0 as <-.
  split; [exact Hsync|]. split; [exact (proj1 Hnum l self Hheap)|].
  assert (Hok' : table_ok (connect (Some (Sql.committed (conn w1))))).
  { simpl. rewrite Hsync. exact Hnd. }
  destruct (ATM_init_spec _ i' t' Hok') as (_ & _ & _ & _ & Hrows & _).
  assert (Hsel' : Sql.select k (Sql.working (init_db (connect (Some (Sql.committed (conn w1))))))
                  = Some r).
  { rewrite init_db_unfold. cbn [Sql.working]. apply fold_insert_keeps.
    simpl. rewrite Hsync. exact Hsel. }
  pose proof (select_key _ _ _ Hsel') as Hk.
  unfold Sql.select in Hsel'. apply find_some in Hsel' as [Hr _].
  destruct (Hrows r Hr) as (l' & Hl' & Hobj). rewrite Hk in Hl', Hobj.
  exists l'. split; [exact Hl'|]. rewrite Hobj. unfold SavingsAccount, Account_init.
  rewrite Hp, Hb. reflexivity.
Qed.

Lemma restart_finds_accounts_witness :
  exists l',
    accounts
      (ATM_init
         (connect
            (Some (main 9 float_of_digits None
                     ["1"; "1001"; "1234"; "3"; "500"; "6"; "3"] 7%Z).1.2))
         [] 8%Z) !! "1001"%string = Some l'
    /\ heap
         (ATM_init
            (connect
               (Some (main 9 float_of_digits None
                        ["1"; "1001"; "1234"; "3"; "500"; "6"; "3"] 7%Z).1.2))
            [] 8%Z) !! l'
       = Some {| account_number := "1001"; __pin_hash := __pin_hash funded_account;
                 __balance := __balance funded_account; _transactions := [] |}.
Proof.
  destruct (restart_finds_accounts 9 float_of_digits None
              ["1"; "1001"; "1234"; "3"; "500"; "6"; "3"] [] 7%Z 8%Z
              "1001" 0%nat funded_account) as (_ & _ & H).
  - exact I.
  - intros rows r [=].
  - intros s a Hin. simpl in Hin.
    repeat (destruct Hin as [<-|Hin];
            [vm_compute; intros [= <-]; split; reflexivity|]).
    destruct Hin.
  - vm_compute. reflexivity.
  - vm_compute. reflexivity.
  - exact H.
Defined.

(** ** PINs are held as digests only *)

Lemma string_length_app (s1 s2 : string) :
  String.length (s1 ++ s2) = String.length s1 + String.length s2.
Proof. induction s1 as [|c s1 IH]; simpl; [reflexivity|]. rewrite IH. reflexivity. Qed.

Lemma string_of_list_ascii_length (cs : list ascii) :
  String.length (string_of_list_ascii cs) = length cs.
Proof. induction cs as [|c cs IH]; simpl; [reflexivity|]. rewrite IH. reflexivity. Qed.

Lemma round_length (st : list N) (kw : N * N) :
  length (SHA256.round st kw) = length st.
Proof.
  unfold SHA256.round.
  destruct st as [|a [|b [|c [|d [|e [|f [|g [|h [|x st]]]]]]]]]; reflexivity.
Qed.

Lemma fold_round_length (kws : list (N * N)) (st : list N) :
  length (fold_left SHA256.round kws st) = length st.
Proof.
  revert st. induction kws as [|kw kws IH]; intros st; simpl; [reflexivity|].
  rewrite IH. apply round_length.
Qed.

Lemma compress_length (h block : list N) :
  length (SHA256.compress h block) = length h.
Proof.
  unfold SHA256.compress. rewrite length_map, length_combine, fold_round_length.
  apply Nat.min_id.
Qed.

Lemma blocks_length (n : nat) (ws h : list N) :
  length (SHA256.blocks n ws h) = length h.
Proof.
  revert ws h. induction n as [|n IH]; intros ws h; simpl; [reflexivity|].
  rewrite IH. apply compress_length.
Qed.

Lemma hex_word_length (w : N) : String.length (SHA256.hex_word w) = 8.
Proof.
  unfold SHA256.hex_word. rewrite string_of_list_ascii_length, length_map. reflexivity.
Qed.

Lemma hexdigest_length (msg : list N) : String.length (SHA256.hexdigest msg) = 64.
Proof.
  unfold SHA256.hexdigest.
  assert (Hlen : length (SHA256.digest msg) = 8).
  { unfold SHA256.digest. rewrite blocks_length. vm_compute. reflexivity. }
  revert Hlen. generalize (SHA256.digest msg). intros ws Hlen.
  assert (Hgen : String.length
                   (fold_right (fun w s => (SHA256.hex_word w ++ s)%string) EmptyString ws)
                 = 8 * length ws).
  { clear Hlen. induction ws as [|w ws IH]; [reflexivity|].
    cbn [fold_right]. rewrite string_length_app, hex_word_length, IH. simpl. lia. }
  rewrite Hgen, Hlen. reflexivity.
Qed.

Lemma perform_pins (now : datetime) (o : Op) (self : Account) (c : Sql.Connection) :
  (__pin_hash (perform now o self c).1.2 = __pin_hash self
   \/ is_digest (__pin_hash (perform now o self c).1.2))
  /\ (Sql.working (perform now o self c).2 = Sql.working c
      \/ (exists b, Sql.working (perform now o self c).2
                    = Sql.update_balance b (account_number self) (Sql.working c))
      \/ exists p, is_digest p
                   /\ Sql.working (perform now o self c).2
                      = Sql.update_pin p (account_number self) (Sql.working c)).
Proof.
  destruct o as [|a|a|old_pin new_pin|]; simpl; auto.
  - unfold deposit. destruct (PyFloat.leb a PyFloat.zero); simpl; [auto|].
    split; [left; reflexivity|right; left; eexists; reflexivity].
  - unfold withdraw.
    destruct (PyFloat.leb a PyFloat.zero || PyFloat.ltb (__balance self) a); simpl; [auto|].
    split; [left; reflexivity|right; left; eexists; reflexivity].
  - unfold change_pin. destruct (negb (_check_pin self old_pin)); simpl; auto.
    destruct (String.length new_pin <? 4)%nat; simpl; auto.
    split; [right; exists new_pin; reflexivity|].
    right. right. exists (hash_pin new_pin). split; [exists new_pin|]; reflexivity.
Qed.

Lemma kd_same (w w' : World) :
  heap w' = heap w -> conn w' = conn w -> keeps_digests w w'.
Proof. intros Hh Hc [Hobj Hrows]. unfold digests. rewrite Hh, Hc. split; assumption. Qed.

Lemma kd_call (now : datetime) (o : Op) (w : World) :
  keeps_digests w (call_current (perform now o) w).2.
Proof.
  intros [Hobj Hrows]. unfold call_current, call.
  destruct (current_account w) as [l|]; [|exact (conj Hobj Hrows)].
  destruct (heap w !! l) as [self|] eqn:Hl; [|exact (conj Hobj Hrows)].
  destruct (perform_pins now o self (conn w)) as [Hpin Hwork].
  destruct (perform now o self (conn w)) as [[v self'] c']. cbn [fst snd] in *.
  split; simpl.
  - intros l' x. destruct (decide (l' = l)) as [->|Hne].
    + rewrite lookup_insert_eq. intros [= <-].
      destruct Hpin as [->|Hpin]; [apply (Hobj l self Hl)|exact Hpin].
    + rewrite lookup_insert_ne by congruence. apply Hobj.
  - intros r. destruct Hwork as [->|[[b ->]|(p & Hp & ->)]]; [apply Hrows| |].
    + unfold Sql.update_balance. intros Hr. apply in_map_iff in Hr as (r0 & <- & Hr0).
      destruct (String.eqb (Sql.account_number r0) (account_number self));
        simpl; apply Hrows, Hr0.
    + unfold Sql.update_pin. intros Hr. apply in_map_iff in Hr as (r0 & <- & Hr0).
      destruct (String.eqb (Sql.account_number r0) (account_number self));
        simpl; [exact Hp|apply Hrows, Hr0].
Qed.

Lemma kd_created (k pin : string) (w : World) : keeps_digests w (created k pin w).
Proof.
  intros [Hobj Hrows]. unfold created. split; simpl.
  - intros l x. destruct (decide (l = fresh (dom (heap w)))) as [->|Hne].
    + rewrite lookup_insert_eq. intros [= <-]. exists pin. reflexivity.
    + rewrite lookup_insert_ne by congruence. apply Hobj.
  - unfold insert_account_to_db, Sql.insert. simpl.
    destruct (Sql.select k (Sql.working (conn w))); simpl; [exact Hrows|].
    intros r Hr. apply in_app_or in Hr as [Hr|[<-|[]]]; [apply Hrows, Hr|].
    exists pin. reflexivity.
Qed.

Lemma kd_run (fuel : nat) (float_of_str : string -> option float) (w : World) :
  keeps_digests w (run fuel float_of_str w).2.
Proof.
  apply respects_run; auto using kd_call, kd_created.
  - intros w0 H. exact H.
  - intros w1 w2 w3 H12 H23 H. apply H23, H12, H.
  - intros o w0. apply kd_same; reflexivity.
  - intros p w0. destruct (input_untouched p w0) as (Hc & Hh & _). apply kd_same; assumption.
  - intros w0 k l self _ _. apply kd_same; reflexivity.
  - intros w0. apply kd_same; reflexivity.
Qed.

Lemma fold_insert_pins (rows t : Sql.table) :
  (forall r, In r rows -> is_digest (Sql.pin r)) ->
  (forall r, In r t -> is_digest (Sql.pin r)) ->
  forall r, In r (fold_left Sql.insert_or_ignore rows t) -> is_digest (Sql.pin r).
Proof.
  revert t. induction rows as [|r0 rows IH]; intros t Hrows Ht; [exact Ht|].
  simpl. apply IH; [intros r Hr; apply Hrows; right; exact Hr|].
  unfold Sql.insert_or_ignore. destruct (Sql.select _ t); [exact Ht|].
  intros r Hr. apply in_app_or in Hr as [Hr|[<-|[]]]; [apply Ht, Hr|apply Hrows; left; reflexivity].
Qed.

Lemma digests_ATM_init (db : option Sql.Connection) (i : list string) (t : datetime) :
  (forall c r, db = Some c -> In r (Sql.working c) -> is_digest (Sql.pin r)) ->
  digests (ATM_init db i t).
Proof.
  intros Hdb. rewrite ATM_init_eq.
  set (w0 := {| conn := init_db db; heap := ∅; accounts := ∅; current_account := None;
                stdin := i; stdout := []; clock := t |}).
  assert (Hrows : forall r, In r (Sql.working (init_db db)) -> is_digest (Sql.pin r)).
  { rewrite init_db_unfold. cbn [Sql.working]. apply fold_insert_pins.
    - intros r Hr. unfold samples in Hr. cbn [In] in Hr.
      destruct Hr as [<-|[<-|[<-|[]]]]; eexists; reflexivity.
    - destruct db as [c|]; [intros r; apply (Hdb c r eq_refl)|intros r []]. }
  pose proof (load_rows_heap (Sql.working (init_db db)) w0) as Hheap.
  pose proof (load_rows_conn (Sql.working (init_db db)) w0) as Hconn.
  destruct (load_rows (Sql.working (init_db db)) w0) as [res w1]. cbn [fst snd] in *.
  split; simpl.
  - intros l self Hl. destruct (Hheap l self Hl) as [H0|(r & Hr & ->)].
    + subst w0. simpl in H0. rewrite lookup_empty in H0. discriminate.
    + apply Hrows, Hr.
  - rewrite Hconn. exact Hrows.
Qed.

(** No PIN is held in clear: when the PINs in the database are digests,
    then after a run, however it ends, the PIN of every row and of every
    account object is a digest that [hash_pin] returned, a string of 64
    characters. *)
Theorem pins_are_held_as_digests
  (fuel : nat) (float_of_str : string -> option float)
  (db : option Sql.Connection) (i : list string) (t : datetime) :
  (forall c r, db = Some c -> In r (Sql.working c) -> is_digest (Sql.pin r)) ->
  (forall r, In r (Sql.working (conn (run fuel float_of_str (ATM_init db i t)).2)) ->
             is_digest (Sql.pin r) /\ String.length (Sql.pin r) = 64)
  /\ (forall l self, heap (run fuel float_of_str (ATM_init db i t)).2 !! l = Some self ->
                     is_digest (__pin_hash self) /\ String.length (__pin_hash self) = 64).
Proof.
  intros Hdb.
  destruct (kd_run fuel float_of_str (ATM_init db i t) (digests_ATM_init db i t Hdb))
    as [Hobj Hrows].
  split.
  - intros r Hr. destruct (Hrows r Hr) as [pin Hpin]. split; [exists pin; exact Hpin|].
    rewrite Hpin. apply hexdigest_length.
  - intros l self Hl. destruct (Hobj l self Hl) as [pin Hpin]. split; [exists pin; exact Hpin|].
    rewrite Hpin. apply hexdigest_length.
Qed.

Lemma pins_are_held_as_digests_witness :
  Forall (fun r => is_digest (Sql.pin r) /\ String.length (Sql.pin r) = 64)
    (Sql.working
       (conn (run 9 float_of_digits
                (ATM_init None ["2"; "2001"; "4321"; "1"; "2001"; "4321"; "5"; "4321";
                                "9999"; "6"; "3"] 7%Z)).2)).
Proof.
  apply List.Forall_forall.
  apply (pins_are_held_as_digests 9 float_of_digits None
           ["2"; "2001"; "4321"; "1"; "2001"; "4321"; "5"; "4321"; "9999"; "6"; "3"] 7%Z).
  intros c r [=].
Defined.

(** ** The whole balance can be withdrawn *)

Lemma SFcompare_finite_refl (m : positive) (e : Z) :
  SFcompare (S754_finite false m e) (S754_finite false m e) = Some Eq.
Proof. simpl. rewrite Z.compare_refl, Pos.compare_cont_refl. reflexivity. Qed.

Lemma sub_diag_finite (m : positive) (e : Z) :
  PyFloat.sub (S754_finite false m e) (S754_finite false m e) = PyFloat.zero.
Proof.
  unfold PyFloat.sub, SFsub. cbv zeta. rewrite Z.sub_diag. reflexivity.
Qed.

(** The guard of [withdraw] is [amount > balance]: an amount equal to a
    positive finite balance is accepted, and it leaves the balance [0.0] in
    the object and in the committed row, with one WITHDRAW record. *)
Theorem withdraw_whole_balance
  (now : datetime) (self : Account) (conn : Sql.Connection) (m : positive) (e : Z) :
  __balance self = S754_finite false m e ->
  (withdraw now (__balance self) self conn).1.1 = true
  /\ __balance (withdraw now (__balance self) self conn).1.2 = PyFloat.zero
  /\ _transactions (withdraw now (__balance self) self conn).1.2
     = _transactions self
       ++ [{| txn_type := "WITHDRAW"; amount := __balance self;
              balance_after := PyFloat.zero; timestamp := now |}]
  /\ Sql.committed (withdraw now (__balance self) self conn).2
     = Sql.update_balance PyFloat.zero (account_number self) (Sql.working conn).
Proof.
  intros Hb. unfold withdraw. rewrite Hb.
  assert (Hguard : PyFloat.leb (S754_finite false m e) PyFloat.zero
                   || PyFloat.ltb (S754_finite false m e) (S754_finite false m e) = false).
  { unfold PyFloat.leb, PyFloat.ltb, SFleb, SFltb. rewrite SFcompare_finite_refl.
    reflexivity. }
  rewrite Hguard. cbv zeta. rewrite sub_diag_finite.
  unfold _persist_balance. simpl. repeat split; reflexivity.
Qed.

Lemma withdraw_whole_balance_witness :
  __balance (withdraw 8%Z (__balance funded_account) funded_account funded_conn).1.2
  = PyFloat.zero.
Proof.
  destruct (withdraw_whole_balance 8%Z funded_account funded_conn
              8796093022208000%positive (-44)%Z) as (_ & H & _).
  - vm_compute. reflexivity.
  - exact H.
Defined.

(** ** The program ends on Exit only *)

Lemma rf_refl (w : World) : reads_forward w w.
Proof. exists []. reflexivity. Qed.

Lemma rf_trans (w1 w2 w3 : World) :
  reads_forward w1 w2 -> reads_forward w2 w3 -> reads_forward w1 w3.
Proof.
  intros [r1 H1] [r2 H2]. exists (r1 ++ r2). rewrite H1, H2. apply app_assoc.
Qed.

Lemma rf_same (w w' : World) : stdin w' = stdin w -> reads_forward w w'.
Proof. intros H. exists []. rewrite H. reflexivity. Qed.

Lemma rf_input (p : string) (w : World) : reads_forward w (input p w).2.
Proof.
  unfold input. simpl. destruct (stdin w) as [|s rest] eqn:E; simpl.
  - exists []. simpl. rewrite ?E. reflexivity.
  - exists [s]. simpl. rewrite ?E. reflexivity.
Qed.

Lemma rf_call (now : datetime) (o : Op) (w : World) :
  reads_forward w (call_current (perform now o) w).2.
Proof. apply rf_same. apply call_current_io. Qed.

Lemma rf_In (w w' : World) (s : string) :
  reads_forward w w' -> In s (stdin w') -> In s (stdin w).
Proof. intros [r ->] Hs. apply in_or_app. right. exact Hs. Qed.

Lemma rf_steps :
  (forall w, reads_forward w (authenticate_user w).2)
  /\ (forall w, reads_forward w (create_account w).2)
  /\ (forall fuel float_of_str w, reads_forward w (session_loop fuel float_of_str w).2).
Proof.
  split; [|split]; intros;
    [apply respects_authenticate_user|apply respects_create_account
    |apply respects_session_loop];
    auto using rf_refl, rf_input, rf_call; try exact rf_trans;
    intros; apply rf_same; reflexivity.
Qed.

(** [run] returns only after the choice of Exit: when it returns, one of
    the lines of the console was, up to blanks around it, the option 3;
    without such a line [run] does not return. *)
Theorem run_returns_on_exit_only
  (fuel : nat) (float_of_str : string -> option float) (w : World) :
  (run fuel float_of_str w).1 = Return (Some tt) ->
  exists s, In s (stdin w) /\ strip s = "3"%string.
Proof.
  destruct rf_steps as (Hauth & Hcreate & Hloop).
  revert w. induction fuel as [|fuel IH]; intros w; [discriminate|].
  rewrite run_step. unfold input. cbn [stdin set_stdout].
  destruct (stdin w) as [|opt rest] eqn:Hin; [discriminate|].
  match goal with |- context [set_stdin rest ?w0] => set (w1 := set_stdin rest w0) end.
  assert (Hrest : forall w', reads_forward w1 w' ->
                             (exists s, In s (stdin w') /\ strip s = "3"%string) ->
                             exists s, In s (opt :: rest) /\ strip s = "3"%string).
  { intros w' Hrf (s & Hs & H3). exists s. split; [|exact H3].
    right. apply (rf_In w1 w' s Hrf) in Hs. exact Hs. }
  destruct (String.eqb (strip opt) "1").
  { pose proof (Hauth w1) as Ha.
    destruct (authenticate_user w1) as [[[|]|e] w2]; cbn [fst snd] in *;
      [|intros H; apply (Hrest w2 Ha), IH, H|discriminate].
    pose proof (Hloop fuel float_of_str w2) as Hs.
    destruct (session_loop fuel float_of_str w2) as [[[[]|]|e] w3]; cbn [fst snd] in *;
      [|discriminate|discriminate].
    intros H. apply (Hrest w3 (rf_trans _ _ _ Ha Hs)), IH, H. }
  destruct (String.eqb (strip opt) "2").
  { pose proof (Hcreate w1) as Hc.
    destruct (create_account w1) as [[[]|e] w2]; cbn [fst snd] in *; [|discriminate].
    intros H. apply (Hrest w2 Hc), IH, H. }
  destruct (String.eqb (strip opt) "3") eqn:H3.
  { intros _. exists opt. split; [left; reflexivity|]. apply String.eqb_eq, H3. }
  intros H.
  apply (Hrest (set_stdout (stdout w1 ++ [Line "Invalid option."]) w1)
           (rf_same w1 _ eq_refl)), IH, H.
Qed.

Lemma run_returns_on_exit_only_witness :
  exists s, In s (stdin (sample_world ["1"; "1001"; "0000"; " 3 "])) /\ strip s = "3"%string.
Proof.
  apply (run_returns_on_exit_only 5 float_of_digits
           (sample_world ["1"; "1001"; "0000"; " 3 "])).
  vm_compute. reflexivity.
Defined.
